(** * MedBook scraper: the article extraction pipeline

    A shallow embedding of [packages/server/src/scraper] (URL validation,
    page fetch, paywall detection, metadata extraction, HTML cleaning, image
    extraction and download, and the [scrapeArticle] orchestrator), of the
    routes that call it ([routes/scraper.ts], [routes/convert.ts]: rate
    limiting, body validation, the handlers and their replies) and of the
    escaping and input validation of the generators, followed by the
    properties proved about them.

    Conventions.
    - A JavaScript string is a [string]; one character stands for one UTF-16
      code unit, and the model covers the code units 0..255.  On that range
      [String.length] is JavaScript's [.length], and [toLowerCase], [trim]
      and the regular expression classes [\d] and [\s] are as defined in
      [Js] below.
    - [undefined] is [None]; a thrown [ScraperException] is the left side of
      a sum.
    - The runtime the code calls into (the WHATWG [URL] constructor,
      [fetch], [cheerio.load], cheerio's serializer, the clock, the
      renderers of the generators) is not part of the repository: it is a
      [Variable] of the sections below, or an argument. *)

From Stdlib Require Import List Bool Arith NArith ZArith Lia.
From Stdlib Require Import Ascii String.
Import ListNotations.

Set Implicit Arguments.

Local Open Scope string_scope.
Local Open Scope list_scope.

(* ================================================================== *)
(** ** JavaScript strings and values *)

Module Js.

Definition code (c : ascii) : N := N_of_ascii c.

(** [\d] *)
Definition isDigit (c : ascii) : bool :=
  ((48 <=? code c) && (code c <=? 57))%N.

(** [\s], and the characters removed by [String.prototype.trim] *)
Definition isSpace (c : ascii) : bool :=
  existsb (N.eqb (code c)) [9; 10; 11; 12; 13; 32; 160]%N.

Definition lowerChar (c : ascii) : ascii :=
  let n := code c in
  if (((65 <=? n) && (n <=? 90))
      || ((192 <=? n) && (n <=? 222) && negb (n =? 215)))%N
  then ascii_of_N (n + 32) else c.

Fixpoint toLowerCase (s : string) : string :=
  match s with
  | EmptyString => EmptyString
  | String c r => String (lowerChar c) (toLowerCase r)
  end.

Definition startsWith (s p : string) : bool := String.prefix p s.

Fixpoint endsWith (s p : string) : bool :=
  (s =? p) ||
  match s with
  | EmptyString => false
  | String _ r => endsWith r p
  end.

Fixpoint includes (s sub : string) : bool :=
  String.prefix sub s ||
  match s with
  | EmptyString => false
  | String _ r => includes r sub
  end.

Fixpoint trimStart (s : string) : string :=
  match s with
  | EmptyString => EmptyString
  | String c r => if isSpace c then trimStart r else s
  end.

Fixpoint trimEnd (s : string) : string :=
  match s with
  | EmptyString => EmptyString
  | String c r =>
      let r' := trimEnd r in
      if isSpace c && (r' =? "") then EmptyString else String c r'
  end.

Definition trim (s : string) : string := trimEnd (trimStart s).

(** Truthiness of a string, and of a possibly undefined string. *)
Definition truthy (s : string) : bool := negb (s =? "").

Definition truthyOpt (o : option string) : bool :=
  match o with
  | Some s => truthy s
  | None => false
  end.

(** [a || b] on possibly undefined strings. *)
Definition orElse (a b : option string) : option string :=
  if truthyOpt a then a else b.

(** [s.split(sep)] for a one-character separator. *)
Fixpoint split (sep : ascii) (s : string) : list string :=
  match s with
  | EmptyString => [EmptyString]
  | String c r =>
      if (c =? sep)%char then EmptyString :: split sep r
      else match split sep r with
           | [] => [String c EmptyString]
           | h :: t => String c h :: t
           end
  end.

(** [s.split(/\s+/)]: the pieces of [s] between its runs of white space. *)
Fixpoint splitSpaces (s : string) : list string :=
  match s with
  | EmptyString => [EmptyString]
  | String c r =>
      if isSpace c then
        match r with
        | EmptyString => [EmptyString; EmptyString]
        | String c' _ =>
            if isSpace c' then splitSpaces r else EmptyString :: splitSpaces r
        end
      else match splitSpaces r with
           | [] => [String c EmptyString]
           | h :: t => String c h :: t
           end
  end.

Fixpoint allChars (p : ascii -> bool) (s : string) : bool :=
  match s with
  | EmptyString => true
  | String c r => p c && allChars p r
  end.

Definition digitValue (c : ascii) : N := (code c - 48)%N.

(** [Number(s)] on a string of decimal digits. *)
Definition numberOfDigits (s : string) : N :=
  fold_left (fun acc c => (10 * acc + digitValue c)%N)
            (list_ascii_of_string s) 0%N.

(** The leading run of characters satisfying [p], and what follows. *)
Fixpoint span (p : ascii -> bool) (s : string) : string * string :=
  match s with
  | EmptyString => (EmptyString, EmptyString)
  | String c r =>
      if p c then let (a, b) := span p r in (String c a, b)
      else (EmptyString, s)
  end.

(** [parseInt(s, 10)]: leading white space, an optional sign, then the
    longest run of digits; [None] is [NaN]. *)
Definition parseInt (s : string) : option Z :=
  let s1 := trimStart s in
  let (neg, s2) :=
    match s1 with
    | String "-"%char r => (true, r)
    | String "+"%char r => (false, r)
    | _ => (false, s1)
    end in
  let (ds, _) := span isDigit s2 in
  if ds =? "" then None
  else let v := Z.of_N (numberOfDigits ds) in
       Some (if neg then (- v)%Z else v).

End Js.

(* ================================================================== *)
(** ** types.ts *)

Inductive ErrorCode : Type :=
| INVALID_URL | TIMEOUT | NOT_FOUND | PAYWALL | NETWORK_ERROR | PARSE_ERROR.

Record ScraperError : Type := ScraperException {
  code : ErrorCode;
  message : string
}.

Record ArticleImage : Type := {
  originalUrl : string;
  base64 : option string;
  alt : option string
}.

Record Article : Type := {
  url : string;
  title : string;
  subtitle : option string;
  author : string;
  publishedDate : string;
  readingTime : option string;
  content : string;
  images : list ArticleImage;
  tags : option (list string)
}.

(** The outcome of a synchronous step that may throw. *)
Definition result (A : Type) : Type := (ScraperError + A)%type.

(* ================================================================== *)
(** ** constants.ts: policy constants *)

Definition TIMEOUT_MS : Z := 30000.

Definition MEDIUM_DOMAINS : list string :=
  [ "medium.com";
    "towardsdatascience.com";
    "betterprogramming.pub";
    "levelup.gitconnected.com";
    "javascript.plainenglish.io";
    "blog.devgenius.io";
    "uxdesign.cc";
    "betterhumans.pub";
    "entrepreneurshandbook.co";
    "writingcooperative.com";
    "psiloveyou.xyz";
    "codeburst.io";
    "hackernoon.com";
    "itnext.io";
    "blog.bitsrc.io";
    "bootcamp.uxdesign.cc" ].

Definition ERROR_MESSAGES (c : ErrorCode) : string :=
  match c with
  | INVALID_URL => "The provided URL is not a valid Medium article URL"
  | TIMEOUT => "Request timed out after 30 seconds"
  | NOT_FOUND => "Article not found"
  | PAYWALL => "This article is behind Medium's paywall"
  | NETWORK_ERROR => "Failed to fetch the article due to a network error"
  | PARSE_ERROR => "Failed to parse the article content"
  end.

(* ================================================================== *)
(** ** medium-scraper.ts: URL validation *)

(** The two fields of a parsed [URL] that the validator reads. *)
Record URL : Type := {
  protocol : string;
  hostname : string
}.

(** [/^(\d{1,3})\.(\d{1,3})\.(\d{1,3})\.(\d{1,3})$/]: the four captured
    groups, when the whole string matches. *)
Definition isOctetText (s : string) : bool :=
  Js.allChars Js.isDigit s
  && (1 <=? String.length s)%nat && (String.length s <=? 3)%nat.

Definition ipv4Match (s : string) : option (string * string * string * string) :=
  match Js.split "."%char s with
  | [a; b; c; d] =>
      if isOctetText a && isOctetText b && isOctetText c && isOctetText d
      then Some (a, b, c, d) else None
  | _ => None
  end.

Definition isPrivateHost (hostname : string) : bool :=
  let lower := Js.toLowerCase hostname in
  if (lower =? "localhost") || (lower =? "localhost.localdomain") then true
  else
    let ipv4 :=
      match ipv4Match lower with
      | Some (a', b', _, _) =>
          let a := Js.numberOfDigits a' in
          let b := Js.numberOfDigits b' in
          if (a =? 127)%N then true
          else if (a =? 10)%N then true
          else if ((a =? 172) && (16 <=? b) && (b <=? 31))%N then true
          else if ((a =? 192) && (b =? 168))%N then true
          else if ((a =? 169) && (b =? 254))%N then true
          else if (a =? 0)%N then true
          else false
      | None => false
      end in
    if ipv4 then true
    else if (lower =? "::1") || (lower =? "[::1]") then true
    else false.

Definition isValidDomain (hostname : string) : bool :=
  existsb (fun domain =>
             (hostname =? domain) || Js.endsWith hostname ("." ++ domain))
          MEDIUM_DOMAINS.

Section UrlValidation.

(** [new URL(url)]: [None] when the constructor throws. *)
Variable parseURL : string -> option URL.

Definition validateMediumUrl (url : string) : result unit :=
  match parseURL url with
  | None => inl (ScraperException INVALID_URL (ERROR_MESSAGES INVALID_URL))
  | Some parsed =>
      let hostname := Js.toLowerCase (hostname parsed) in
      if isPrivateHost hostname then
        inl (ScraperException INVALID_URL
               "Private or internal URLs are not allowed")
      else if negb (protocol parsed =? "https:") then
        inl (ScraperException INVALID_URL "Only HTTPS URLs are allowed")
      else if negb (isValidDomain hostname) then
        inl (ScraperException INVALID_URL (ERROR_MESSAGES INVALID_URL))
      else inr tt
  end.

End UrlValidation.

(* ================================================================== *)
(** ** The parsed document

    What [cheerio.load] returns, as far as the scraper uses it: a forest of
    text, comment and element nodes.  Element and attribute names are the
    parser's (lower case in HTML); [attribs] keeps the attributes in the
    order of the underlying object's keys. *)

Module Dom.

Local Unset Elimination Schemes.

Inductive node : Type :=
| Text (data : string)
| Comment (data : string)
| Element (name : string) (attribs : list (string * string))
          (children : list node).

Local Set Elimination Schemes.

(** Induction on a node, with the hypothesis for every child. *)
Fixpoint node_ind (P : node -> Prop)
    (HText : forall d, P (Text d))
    (HComment : forall d, P (Comment d))
    (HElement : forall name attrs cs,
        Forall P cs -> P (Element name attrs cs))
    (n : node) : P n :=
  match n with
  | Text d => HText d
  | Comment d => HComment d
  | Element name attrs cs =>
      HElement name attrs cs
        ((fix all (l : list node) : Forall P l :=
            match l with
            | [] => Forall_nil P
            | c :: r =>
                Forall_cons c (node_ind HText HComment HElement c) (all r)
            end) cs)
  end.

Definition document : Type := list node.

(** [el.type] of an element: domhandler gives [script] and [style]
    elements a type of their own, every other element is a ['tag']. *)
Inductive elementType : Type := TagType | ScriptType | StyleType.

Definition typeOf (name : string) : elementType :=
  if name =? "script" then ScriptType
  else if name =? "style" then StyleType
  else TagType.

Definition isTag (name : string) : bool :=
  match typeOf name with TagType => true | _ => false end.

Definition isElement (n : node) : bool :=
  match n with Element _ _ _ => true | _ => false end.

Definition childrenOf (n : node) : list node :=
  match n with Element _ _ cs => cs | _ => [] end.

(** *** Attributes *)

Fixpoint getAttr (k : string) (attrs : list (string * string))
  : option string :=
  match attrs with
  | [] => None
  | (k', v) :: r => if k' =? k then Some v else getAttr k r
  end.

(** [$el.attr(k)] *)
Definition attr (n : node) (k : string) : option string :=
  match n with Element _ a _ => getAttr k a | _ => None end.

(** [delete el.attribs[k]] *)
Definition deleteAttr (k : string) (attrs : list (string * string))
  : list (string * string) :=
  filter (fun kv => negb (fst kv =? k)) attrs.

(** cheerio's [splitNames(names)]:
    [names ? names.trim().split(/\s+/) : []] *)
Definition splitNames (names : string) : list string :=
  if Js.truthy names then Js.splitSpaces (Js.trim names) else [].

(** [$el.removeAttr(name)].  cheerio reads [name] as a list of attribute
    names separated by white space, as in [removeAttr('id class')], and
    deletes each of them:
    [for (const attrName of splitNames(name)) delete el.attribs[attrName]].
    A name without white space is deleted itself; a name with white space
    in it (U+000B and U+00A0 are white space for [\s] and may stand in a
    parsed attribute name) has its parts deleted instead. *)
Definition removeAttr (name : string) (attrs : list (string * string))
  : list (string * string) :=
  fold_left (fun cur attrName => deleteAttr attrName cur)
            (splitNames name) attrs.

(** [$el.attr(k, v)]: [el.attribs[k] = v] *)
Fixpoint setAttr (k v : string) (attrs : list (string * string))
  : list (string * string) :=
  match attrs with
  | [] => [(k, v)]
  | (k', v') :: r =>
      if k' =? k then (k, v) :: r else (k', v') :: setAttr k v r
  end.

(** *** Text content: [$el.text()]

    The data of the text nodes at and below a node, in document order;
    comments contribute nothing. *)

Fixpoint text (n : node) : string :=
  match n with
  | Text d => d
  | Comment _ => ""
  | Element _ _ cs => fold_right (fun c acc => (text c ++ acc)%string) "" cs
  end.

Definition textOf (ns : list node) : string :=
  fold_right (fun c acc => (text c ++ acc)%string) "" ns.

(** *** Elements in document order

    An element is identified by its position: the child indices from the
    root down to it.  [ancestors] lists the enclosing elements, nearest
    first. *)

Record located : Type := {
  path : list nat;
  ancestors : list node;
  elem : node
}.

(** The element [n] itself, then its descendants, in document order. *)
Fixpoint walk (p : list nat) (anc : list node) (n : node) : list located :=
  match n with
  | Element _ _ cs =>
      {| path := p; ancestors := anc; elem := n |} ::
      (fix go (i : nat) (l : list node) : list located :=
         match l with
         | [] => []
         | c :: r => walk (p ++ [i]) (n :: anc) c ++ go (S i) r
         end) 0%nat cs
  | _ => []
  end.

Fixpoint walkForest (p : list nat) (anc : list node) (i : nat)
                    (l : list node) : list located :=
  match l with
  | [] => []
  | c :: r => walk (p ++ [i]) anc c ++ walkForest p anc (S i) r
  end.

Definition allElements (doc : document) : list located :=
  walkForest [] [] 0 doc.

(** The proper descendants of [root], with ancestors inside [root]. *)
Definition descendants (root : node) : list located :=
  walkForest [] [root] 0 (childrenOf root).

(** *** Selectors

    The selectors of [constants.ts] are compound selectors (an optional
    type selector with attribute and class tests) joined by the descendant
    combinator.  [source] is the text of a selector as [constants.ts]
    writes it, which the scraper inspects with [startsWith] and
    [includes]. *)

Inductive attrTest : Type :=
| AttrExists (k : string)          (* [k] *)
| AttrEquals (k v : string)        (* [k="v"] *)
| AttrEqualsNoCase (k v : string)  (* [k="v"], on an attribute whose value
                                      HTML compares without regard to case *)
| AttrContains (k v : string)      (* [k*="v"] *)
| ClassIs (c : string).            (* .c *)

Record compound : Type := {
  tagName : option string;         (* [None]: no type selector *)
  tests : list attrTest
}.

(** Compounds joined by the descendant combinator, outermost first. *)
Definition selector : Type := list compound.

Definition quote : string := String "034"%char EmptyString.

Definition showTest (t : attrTest) : string :=
  match t with
  | AttrExists k => "[" ++ k ++ "]"
  | AttrEquals k v | AttrEqualsNoCase k v =>
      "[" ++ k ++ "=" ++ quote ++ v ++ quote ++ "]"
  | AttrContains k v => "[" ++ k ++ "*=" ++ quote ++ v ++ quote ++ "]"
  | ClassIs c => "." ++ c
  end%string.

Definition showCompound (c : compound) : string :=
  ((match tagName c with Some t => t | None => "" end)
   ++ String.concat "" (map showTest (tests c)))%string.

Definition source (sel : selector) : string :=
  String.concat " " (map showCompound sel).

(** The white-space separated tokens of a [class] attribute. *)
Fixpoint words (s : string) : list string :=
  match s with
  | EmptyString => []
  | String c r =>
      if Js.isSpace c then words r
      else match r with
           | EmptyString => [String c EmptyString]
           | String c' _ =>
               if Js.isSpace c' then String c EmptyString :: words r
               else match words r with
                    | h :: t => String c h :: t
                    | [] => [String c EmptyString]
                    end
           end
  end.

Definition testAttr (t : attrTest) (attrs : list (string * string)) : bool :=
  match t with
  | AttrExists k =>
      match getAttr k attrs with Some _ => true | None => false end
  | AttrEquals k v =>
      match getAttr k attrs with Some x => x =? v | None => false end
  | AttrEqualsNoCase k v =>
      match getAttr k attrs with
      | Some x => Js.toLowerCase x =? Js.toLowerCase v
      | None => false
      end
  | AttrContains k v =>
      match getAttr k attrs with
      | Some x => Js.truthy v && Js.includes x v
      | None => false
      end
  | ClassIs c =>
      match getAttr "class" attrs with
      | Some x => existsb (String.eqb c) (words x)
      | None => false
      end
  end.

Definition matchesCompound (c : compound) (n : node) : bool :=
  match n with
  | Element name attrs _ =>
      match tagName c with
      | Some t => name =? t
      | None => true
      end
      && forallb (fun t => testAttr t attrs) (tests c)
  | _ => false
  end.

(** The remaining compounds (innermost first) are matched by a chain of
    ancestors. *)
Fixpoint matchesUp (cs : list compound) (anc : list node) : bool :=
  match cs with
  | [] => true
  | c :: cs' =>
      (fix up (l : list node) : bool :=
         match l with
         | [] => false
         | a :: l' => (matchesCompound c a && matchesUp cs' l') || up l'
         end) anc
  end.

Definition matches (sel : selector) (anc : list node) (n : node) : bool :=
  match rev sel with
  | [] => false
  | c :: cs => matchesCompound c n && matchesUp cs anc
  end.

(** [$(selector)]: the matching elements of the document, in document
    order. *)
Definition select (doc : document) (sel : selector) : list located :=
  filter (fun e => matches sel (ancestors e) (elem e)) (allElements doc).

Fixpoint isProperPrefix (p q : list nat) : bool :=
  match p, q with
  | [], _ :: _ => true
  | a :: p', b :: q' => (a =? b)%nat && isProperPrefix p' q'
  | _, _ => false
  end.

(** [roots.find(selector)] on elements of the document: the matching
    descendants of any of the roots, each once, in document order. *)
Definition find (doc : document) (roots : list located) (sel : selector)
  : list located :=
  filter (fun e =>
            matches sel (ancestors e) (elem e)
            && existsb (fun r => isProperPrefix (path r) (path e)) roots)
         (allElements doc).

(** [$el.find(selector)] on one detached (cloned) element. *)
Definition findIn (root : node) (sel : selector) : list located :=
  filter (fun e => matches sel (ancestors e) (elem e)) (descendants root).

(** *** Selector syntax *)

Definition tag (t : string) : selector :=
  [{| tagName := Some t; tests := [] |}].
Definition any (ts : list attrTest) : selector :=
  [{| tagName := None; tests := ts |}].
Definition tagWith (t : string) (ts : list attrTest) : selector :=
  [{| tagName := Some t; tests := ts |}].
(** [outer inner]: the descendant combinator. *)
Definition inside (outer inner : selector) : selector := outer ++ inner.

(** [*] *)
Definition universal : selector := any [].

End Dom.

Import Dom.

(* ================================================================== *)
(** ** constants.ts: selectors *)

Module CSS_SELECTORS.

Definition article : selector := tag "article".

Definition title : list selector :=
  [ tag "h1"; any [AttrEquals "data-testid" "storyTitle"] ].

Definition subtitle : list selector :=
  [ tag "h2";
    any [AttrEquals "data-testid" "storySubtitle"];
    tagWith "meta" [AttrEquals "name" "description"] ].

Definition author : list selector :=
  [ any [AttrEquals "data-testid" "authorName"];
    tagWith "meta" [AttrEquals "name" "author"];
    any [AttrEqualsNoCase "rel" "author"] ].

Definition publishedDate : list selector :=
  [ tagWith "time" [AttrExists "datetime"];
    tagWith "meta" [AttrEquals "property" "article:published_time"] ].

Definition readingTime : list selector :=
  [ any [AttrEquals "data-testid" "storyReadTime"] ].

Definition tags : list selector :=
  [ any [AttrEquals "data-testid" "tag"];
    tagWith "a" [AttrContains "href" "/tag/"] ].

Definition content : list selector :=
  [ inside (tag "article") (tag "section");
    any [AttrEquals "data-field" "body"];
    tag "article" ].

Definition paywall : list selector :=
  [ any [AttrEquals "data-testid" "paywall"];
    any [ClassIs "meteredContent"];
    any [AttrContains "id" "paywall"] ].

End CSS_SELECTORS.

Definition ELEMENTS_TO_REMOVE : list selector :=
  [ tag "nav"; tag "header"; tag "footer"; tag "aside"; tag "script";
    tag "style"; tag "noscript"; tag "iframe"; tag "svg"; tag "button";
    tag "form"; tag "input";
    any [AttrEquals "data-testid" "headerNav"];
    any [AttrEquals "data-testid" "footerNav"];
    any [AttrEquals "role" "banner"];
    any [AttrEquals "role" "navigation"];
    any [AttrEquals "role" "complementary"];
    any [AttrContains "class" "share"];
    any [AttrContains "class" "social"];
    any [AttrContains "class" "comment"];
    any [AttrContains "class" "related"];
    any [AttrContains "class" "recommend"];
    any [AttrContains "class" "follow"];
    any [AttrContains "class" "subscribe"];
    any [AttrContains "class" "newsletter"];
    any [AttrContains "class" "ad-"];
    any [AttrContains "class" "ads-"];
    any [AttrContains "class" "promo"] ].

(* ================================================================== *)
(** ** The network

    [fetch] is the runtime's.  A request either rejects with an error of
    some name (a timer that aborts the request rejects it with an
    [AbortError]) or resolves with a response; reading the body of a
    response can fail in turn.  The body is kept as its sequence of bytes.
    Every request is recorded in a log, and the outcome of a request may
    depend on how many requests came before it. *)

Record Response : Type := {
  status : Z;
  headers : list (string * string);     (* names in lower case *)
  body : string + string                (* error name, or the bytes *)
}.

Inductive FetchOutcome : Type :=
| Rejected (name : string)
| Resolved (response : Response).

(** [response.ok] *)
Definition ok (r : Response) : bool :=
  ((200 <=? status r) && (status r <=? 299))%Z.

(** [response.headers.get(name)] *)
Definition headersGet (r : Response) (name : string) : option string :=
  getAttr name (headers r).

(** An asynchronous computation: from the log of the requests made so far
    to a value and the extended log. *)
Definition IO (A : Type) : Type := list string -> A * list string.

Definition ret {A : Type} (a : A) : IO A := fun l => (a, l).

Definition bind {A B : Type} (m : IO A) (k : A -> IO B) : IO B :=
  fun l => let (a, l') := m l in k a l'.

(** Sequencing of steps that may throw: the first error ends the call. *)
Definition bindE {A B : Type} (m : IO (result A)) (k : A -> IO (result B))
  : IO (result B) :=
  bind m (fun r => match r with inl e => ret (inl e) | inr a => k a end).

Definition throw {A : Type} (c : ErrorCode) (msg : string) : result A :=
  inl (ScraperException c msg).

Declare Scope io_scope.
Delimit Scope io_scope with io.
Notation "x <- m ;; k" := (bind m (fun x => k))
  (at level 61, m at next level, right associativity) : io_scope.
Notation "x <-? m ;; k" := (bindE m (fun x => k))
  (at level 61, m at next level, right associativity) : io_scope.

(** What a [try] block can throw: a [ScraperException], or another error. *)
Inductive thrown : Type :=
| ThrownScraper (e : ScraperError)
| ThrownError (name : string).

Section Fetch.

(** The outcome of the [n]-th request of the run, made to [url]. *)
Variable net : nat -> string -> FetchOutcome.

Definition fetch (url : string) : IO FetchOutcome :=
  fun l => (net (List.length l) url, l ++ [url]).

(* ---------------------------------------------------------------- *)
(** ** medium-scraper.ts: fetchHtml *)

(** The [try] block of [fetchHtml]. *)
Definition fetchHtmlTry (url : string) : IO (thrown + string) :=
  (response <- fetch url ;;
   ret match response with
       | Rejected name => inl (ThrownError name)
       | Resolved response =>
           if (status response =? 404)%Z then
             inl (ThrownScraper
                    (ScraperException NOT_FOUND (ERROR_MESSAGES NOT_FOUND)))
           else if negb (ok response) then
             inl (ThrownScraper
                    (ScraperException NETWORK_ERROR
                                      (ERROR_MESSAGES NETWORK_ERROR)))
           else match body response with
                | inr text => inr text
                | inl name => inl (ThrownError name)
                end
       end)%io.

Definition fetchHtml (url : string) : IO (result string) :=
  (r <- fetchHtmlTry url ;;
   ret match r with
       | inr html => inr html
       | inl (ThrownScraper error) => inl error
       | inl (ThrownError name) =>
           if name =? "AbortError" then
             throw TIMEOUT (ERROR_MESSAGES TIMEOUT)
           else throw NETWORK_ERROR (ERROR_MESSAGES NETWORK_ERROR)
       end)%io.

End Fetch.

(* ================================================================== *)
(** ** medium-scraper.ts: paywall and metadata *)

Definition checkPaywall (doc : document) : result unit :=
  if existsb (fun selector => (0 <? List.length (select doc selector))%nat)
             CSS_SELECTORS.paywall
  then throw PAYWALL (ERROR_MESSAGES PAYWALL)
  else
    let bodyText :=
      Js.toLowerCase (textOf (map elem (select doc (tag "body")))) in
    if Js.includes bodyText "member-only story"
       || Js.includes bodyText "become a member"
    then
      let articleContent :=
        Js.trim (textOf (map elem (select doc (tag "article")))) in
      if (String.length articleContent <? 500)%nat
      then throw PAYWALL (ERROR_MESSAGES PAYWALL)
      else inr tt
    else inr tt.

Fixpoint extractWithSelectors (doc : document) (selectors : list selector)
  : option string :=
  match selectors with
  | [] => None
  | selector :: rest =>
      match select doc selector with
      | element :: _ =>
          if Js.startsWith (source selector) "meta" then
            match attr (elem element) "content" with
            | Some content =>
                if Js.truthy content then Some (Js.trim content)
                else extractWithSelectors doc rest
            | None => extractWithSelectors doc rest
            end
          else
            let text := Js.trim (text (elem element)) in
            if Js.truthy text then Some text
            else extractWithSelectors doc rest
      | [] => extractWithSelectors doc rest
      end
  end.

(** [x || ''] *)
Definition orEmpty (o : option string) : string :=
  match Js.orElse o (Some EmptyString) with
  | Some s => s
  | None => EmptyString
  end.

(** The loop over [CSS_SELECTORS.publishedDate]; [publishedDate] is the
    variable of that name, carried from one iteration to the next. *)
Fixpoint publishedDateLoop (doc : document) (selectors : list selector)
                           (publishedDate : string) : string :=
  match selectors with
  | [] => publishedDate
  | selector :: rest =>
      match select doc selector with
      | element :: _ =>
          let publishedDate :=
            if Js.includes (source selector) "time" then
              orEmpty (attr (elem element) "datetime")
            else if Js.startsWith (source selector) "meta" then
              orEmpty (attr (elem element) "content")
            else publishedDate in
          if Js.truthy publishedDate then publishedDate
          else publishedDateLoop doc rest publishedDate
      | [] => publishedDateLoop doc rest publishedDate
      end
  end.

(** [/\d+\s*min/], anchored at the start of [s]. *)
Definition matchMinutesAt (s : string) : option string :=
  let (ds, r1) := Js.span Js.isDigit s in
  if ds =? "" then None
  else
    let (ws, r2) := Js.span Js.isSpace r1 in
    if Js.startsWith r2 "min" then Some (ds ++ ws ++ "min")%string else None.

(** [s.match(/\d+\s*min/)?.[0]]: the leftmost match. *)
Fixpoint matchMinutes (s : string) : option string :=
  match matchMinutesAt s with
  | Some m => Some m
  | None =>
      match s with
      | EmptyString => None
      | String _ r => matchMinutes r
      end
  end.

(** The body of the [each] callback of the tag loop, on the state
    [(tags, seenTags)]. *)
Definition tagStep (st : list string * list string) (el : node)
  : list string * list string :=
  let (tags, seenTags) := st in
  let tag := Js.toLowerCase (Js.trim (text el)) in
  if Js.truthy tag
     && negb (existsb (String.eqb tag) seenTags)
     && (String.length tag <? 50)%nat
  then (tags ++ [tag], tag :: seenTags)
  else st.

Definition collectTags (doc : document) : list string :=
  fst (fold_left
         (fun st selector =>
            fold_left tagStep (map elem (select doc selector)) st)
         CSS_SELECTORS.tags ([], [])).

(** [Omit<Article, 'content' | 'images'>] *)
Module Metadata.
Record t : Type := {
  url : string;
  title : string;
  subtitle : option string;
  author : string;
  publishedDate : string;
  readingTime : option string;
  tags : option (list string)
}.
End Metadata.

Section Metadata.

(** [new Date().toISOString()] at the time of the call. *)
Variable now : string.

Definition extractPublishedDate (doc : document) : string :=
  let publishedDate :=
    publishedDateLoop doc CSS_SELECTORS.publishedDate EmptyString in
  if negb (Js.truthy publishedDate) then now else publishedDate.

Definition extractMetadata (doc : document) (url : string)
  : result Metadata.t :=
  let title := extractWithSelectors doc CSS_SELECTORS.title in
  match title with
  | None => throw PARSE_ERROR "Could not extract article title"
  | Some title =>
      if negb (Js.truthy title) then
        throw PARSE_ERROR "Could not extract article title"
      else
        let subtitle := extractWithSelectors doc CSS_SELECTORS.subtitle in
        let author :=
          match Js.orElse (extractWithSelectors doc CSS_SELECTORS.author)
                          (Some "Unknown Author") with
          | Some a => a
          | None => "Unknown Author"
          end in
        let publishedDate := extractPublishedDate doc in
        let readingTimeText :=
          extractWithSelectors doc CSS_SELECTORS.readingTime in
        let readingTime :=
          match readingTimeText with
          | Some t => matchMinutes t
          | None => None
          end in
        let tags := collectTags doc in
        inr {| Metadata.url := url;
               Metadata.title := title;
               Metadata.subtitle := subtitle;
               Metadata.author := author;
               Metadata.publishedDate := publishedDate;
               Metadata.readingTime := readingTime;
               Metadata.tags :=
                 if (0 <? List.length tags)%nat then Some tags else None |}
  end.

End Metadata.

(* ================================================================== *)
(** ** html-cleaner.ts *)

(** [container.find(selector).remove()] inside one element.  The elements
    to remove are found before any of them is detached, so an element is
    tested against the subtree as it was. *)
Fixpoint removeMatching (sel : selector) (anc : list node) (n : node)
  : node :=
  match n with
  | Element name attrs cs =>
      Element name attrs
        (flat_map (fun c =>
                     if matches sel (n :: anc) c then []
                     else [removeMatching sel (n :: anc) c])
                  cs)
  | _ => n
  end.

(** The test of the second loop of [removeUnwantedElements] on one element
    of [container.find('*')]. *)
Definition isEmptyElement (el : node) : bool :=
  match el with
  | Element name _ _ =>
      let tagName := if isTag name then Js.toLowerCase name else "" in
      if existsb (String.eqb tagName)
                 ["img"; "br"; "hr"; "input"; "meta"; "link"]
      then false
      else (Js.trim (text el) =? "")
           && (List.length (findIn el (tag "img")) =? 0)%nat
  | _ => false
  end.

(** The second loop.  The elements are visited in document order, a parent
    before its children, and removing an element changes the subtree of no
    element visited after it that stays attached: each element is tested
    on its subtree as it was when the loop started. *)
Fixpoint removeEmpty (n : node) : node :=
  match n with
  | Element name attrs cs =>
      Element name attrs
        (flat_map (fun c => if isEmptyElement c then [] else [removeEmpty c])
                  cs)
  | _ => n
  end.

Definition removeUnwantedElements (container : node) : node :=
  removeEmpty
    (fold_left (fun c selector => removeMatching selector [] c)
               ELEMENTS_TO_REMOVE container).

(** One loop [for (const attr of Object.keys(attributes)) body]: the keys
    are read when the loop starts; [attributes] is the element's live
    [attribs] object when the element is a ['tag'], and an empty object
    otherwise. *)
Definition forEachKey (name : string)
    (body : string -> list (string * string) -> list (string * string))
    (attribs : list (string * string)) : list (string * string) :=
  let keys := if isTag name then map fst attribs else [] in
  fold_left (fun cur attr => body attr cur) keys attribs.

Definition removeTracking (attr : string) (attribs : list (string * string))
  : list (string * string) :=
  let attribs :=
    if Js.startsWith attr "data-" && negb (attr =? "data-testid")
    then removeAttr attr attribs else attribs in
  if Js.startsWith attr "aria-" || Js.startsWith attr "on"
  then removeAttr attr attribs else attribs.

Definition keepOnly (allowedAttrs : list string) (attr : string)
                    (attribs : list (string * string))
  : list (string * string) :=
  if negb (existsb (String.eqb attr) allowedAttrs)
  then removeAttr attr attribs else attribs.

(** [if (v) $el.attr(k, v)] *)
Definition setIfTruthy (k : string) (v : option string)
                       (attribs : list (string * string))
  : list (string * string) :=
  match v with
  | Some x => if Js.truthy x then setAttr k x attribs else attribs
  | None => attribs
  end.

(** The body of the [each] callback of [cleanAttributes] on one element. *)
Definition cleanElementAttributes (name : string)
                                  (attribs : list (string * string))
  : list (string * string) :=
  let attribs := forEachKey name removeTracking attribs in
  let attribs :=
    if isTag name && (name =? "a") then
      let href := getAttr "href" attribs in
      let attribs := forEachKey name (keepOnly ["href"; "title"]) attribs in
      setIfTruthy "href" href attribs
    else attribs in
  if isTag name && (name =? "img") then
    let src := Js.orElse (getAttr "src" attribs) (getAttr "data-src" attribs) in
    let alt := getAttr "alt" attribs in
    let attribs := forEachKey name (keepOnly ["src"; "alt"]) attribs in
    let attribs := setIfTruthy "src" src attribs in
    setIfTruthy "alt" alt attribs
  else attribs.

Fixpoint cleanAttributesNode (n : node) : node :=
  match n with
  | Element name attrs cs =>
      Element name (cleanElementAttributes name attrs)
              (map cleanAttributesNode cs)
  | _ => n
  end.

(** [container.find('*').each(...)]: every descendant of the container,
    not the container itself. *)
Definition cleanAttributes (container : node) : node :=
  match container with
  | Element name attrs cs => Element name attrs (map cleanAttributesNode cs)
  | _ => container
  end.

(** [.replace(/\s+/g, ' ')] *)
Fixpoint collapseWhitespace (s : string) : string :=
  match s with
  | EmptyString => EmptyString
  | String c r =>
      if Js.isSpace c then
        match r with
        | String c' _ =>
            if Js.isSpace c' then collapseWhitespace r
            else String " "%char (collapseWhitespace r)
        | EmptyString => String " "%char EmptyString
        end
      else String c (collapseWhitespace r)
  end.

(** [.replace(/>\s+</g, '><')].  [pending] holds the white space read
    since a [>] that may start a match. *)
Fixpoint joinTags (pending : option string) (s : string) : string :=
  match s with
  | EmptyString =>
      match pending with
      | Some ws => (">" ++ ws)%string
      | None => EmptyString
      end
  | String c r =>
      match pending with
      | None =>
          if (c =? ">")%char then joinTags (Some EmptyString) r
          else String c (joinTags None r)
      | Some ws =>
          if Js.isSpace c then
            joinTags (Some (ws ++ String c EmptyString)%string) r
          else if (c =? "<")%char then ("><" ++ joinTags None r)%string
          else if (c =? ">")%char then
            (">" ++ ws ++ joinTags (Some EmptyString) r)%string
          else (">" ++ ws ++ String c (joinTags None r))%string
      end
  end.

(** The tree that [cleanHtml] serializes: the first clone, cleaned. *)
Definition cleanContainer (doc : document) (contentSelector : selector)
  : list node :=
  let container := map elem (select doc contentSelector) in
  let container := map removeUnwantedElements container in
  map cleanAttributes container.

Section Cleaner.

(** cheerio's serializer, as called by [container.html()] on the children
    of the first element of the container. *)
Variable render : list node -> string.

Definition cleanHtml (doc : document) (contentSelector : selector)
  : string :=
  match cleanContainer doc contentSelector with
  | [] => EmptyString
  | first :: _ =>
      let html := render (childrenOf first) in
      Js.trim (Js.trim (joinTags None (collapseWhitespace html)))
  end.

End Cleaner.

Module ImageData.
Record t : Type := { url : string; alt : option string }.
End ImageData.

(** The body of the [each] callback of [extractImages], on the state
    [(images, seen)]. *)
Definition imageStep (st : list ImageData.t * list string) (el : node)
  : list ImageData.t * list string :=
  let (images, seen) := st in
  let src := Js.orElse (attr el "src") (attr el "data-src") in
  let alt := attr el "alt" in
  match src with
  | Some src =>
      if Js.truthy src && negb (existsb (String.eqb src) seen) then
        let seen := src :: seen in
        if Js.startsWith src "http" || Js.startsWith src "//" then
          let url :=
            if Js.startsWith src "//" then ("https:" ++ src)%string
            else src in
          (images ++ [{| ImageData.url := url;
                         ImageData.alt := Js.orElse alt None |}], seen)
        else (images, seen)
      else st
  | None => st
  end.

Definition extractImages (doc : document) (contentSelector : selector)
  : list ImageData.t :=
  fst (fold_left imageStep
         (map elem (find doc (select doc contentSelector) (tag "img")))
         ([], [])).

(* ================================================================== *)
(** ** image-downloader.ts *)

Definition MAX_IMAGE_SIZE_BYTES : Z := 5 * 1024 * 1024.
Definition MAX_IMAGES_PER_ARTICLE : nat := 50.

(** [Buffer.from(bytes).toString('base64')] *)
Definition base64Alphabet : string :=
  "ABCDEFGHIJKLMNOPQRSTUVWXYZabcdefghijklmnopqrstuvwxyz0123456789+/".

Definition base64Char (n : N) : ascii :=
  match String.get (N.to_nat n) base64Alphabet with
  | Some c => c
  | None => "="%char
  end.

Fixpoint toBase64 (bytes : string) : string :=
  match bytes with
  | EmptyString => EmptyString
  | String a EmptyString =>
      let n := (Js.code a * 65536)%N in
      String (base64Char (n / 262144))
        (String (base64Char ((n / 4096) mod 64)) "==")
  | String a (String b EmptyString) =>
      let n := (Js.code a * 65536 + Js.code b * 256)%N in
      String (base64Char (n / 262144))
        (String (base64Char ((n / 4096) mod 64))
           (String (base64Char ((n / 64) mod 64)) "="))
  | String a (String b (String c r)) =>
      let n := (Js.code a * 65536 + Js.code b * 256 + Js.code c)%N in
      String (base64Char (n / 262144))
        (String (base64Char ((n / 4096) mod 64))
           (String (base64Char ((n / 64) mod 64))
              (String (base64Char (n mod 64)) (toBase64 r))))
  end.

Definition dataUri (contentType bytes : string) : string :=
  ("data:" ++ contentType ++ ";base64," ++ toBase64 bytes)%string.

(** [contentLength && parseInt(contentLength, 10) > MAX_IMAGE_SIZE_BYTES] *)
Definition declaredTooLarge (contentLength : option string) : bool :=
  match contentLength with
  | Some cl =>
      Js.truthy cl &&
      match Js.parseInt cl with
      | Some n => (n >? MAX_IMAGE_SIZE_BYTES)%Z
      | None => false
      end
  | None => false
  end.

(** What [downloadImage] makes of the outcome of its request; every
    exception of the [try] block is caught and gives [undefined]. *)
Definition imageOfOutcome (outcome : FetchOutcome) : option string :=
  match outcome with
  | Rejected _ => None
  | Resolved response =>
      if negb (ok response) then None
      else
        let contentType :=
          match Js.orElse (headersGet response "content-type")
                          (Some "image/jpeg") with
          | Some c => c
          | None => "image/jpeg"
          end in
        if negb (Js.startsWith contentType "image/") then None
        else
          let contentLength := headersGet response "content-length" in
          if declaredTooLarge contentLength then None
          else
            match body response with
            | inl _ => None
            | inr arrayBuffer =>
                if (Z.of_nat (String.length arrayBuffer)
                    >? MAX_IMAGE_SIZE_BYTES)%Z
                then None
                else Some (dataUri contentType arrayBuffer)
            end
  end.

Fixpoint mapIO {A B : Type} (f : A -> IO B) (l : list A) : IO (list B) :=
  match l with
  | [] => ret []
  | a :: r => (b <- f a ;; bs <- mapIO f r ;; ret (b :: bs))%io
  end.

Section Download.

Variable net : nat -> string -> FetchOutcome.

Definition downloadImage (url : string) : IO (option string) :=
  (response <- fetch net url ;; ret (imageOfOutcome response))%io.

(** [Promise.all] over [limitedImageData.map(async ...)]: the requests
    are issued in the order of the list, and the results are in the order
    of the list. *)
Definition downloadAllImages (imageData : list ImageData.t)
  : IO (list ArticleImage) :=
  let limitedImageData := firstn MAX_IMAGES_PER_ARTICLE imageData in
  mapIO (fun d =>
           (base64 <- downloadImage (ImageData.url d) ;;
            ret {| originalUrl := ImageData.url d;
                   base64 := base64;
                   alt := ImageData.alt d |})%io)
        limitedImageData.

End Download.

(* ================================================================== *)
(** ** medium-scraper.ts: scrapeArticle *)

Definition contentSelectorOf (doc : document) : selector :=
  match List.find (fun selector =>
                     (0 <? List.length (select doc selector))%nat)
                  CSS_SELECTORS.content with
  | Some selector => selector
  | None => tag "article"
  end.

Section Scraper.

Variable parseURL : string -> option URL.
Variable net : nat -> string -> FetchOutcome.
(** [cheerio.load] *)
Variable load : string -> document.
Variable render : list node -> string.
Variable now : string.

Definition scrapeArticle (url : string) : IO (result Article) :=
  (_ <-? ret (validateMediumUrl parseURL url) ;;
   html <-? fetchHtml net url ;;
   let doc := load html in
   _ <-? ret (checkPaywall doc) ;;
   metadata <-? ret (extractMetadata now doc url) ;;
   let contentSelector := contentSelectorOf doc in
   let imageData := extractImages doc contentSelector in
   images <- downloadAllImages net imageData ;;
   let content := cleanHtml render doc contentSelector in
   if negb (Js.truthy content) then
     ret (throw PARSE_ERROR (ERROR_MESSAGES PARSE_ERROR))
   else
     ret (inr {| url := Metadata.url metadata;
                 title := Metadata.title metadata;
                 subtitle := Metadata.subtitle metadata;
                 author := Metadata.author metadata;
                 publishedDate := Metadata.publishedDate metadata;
                 readingTime := Metadata.readingTime metadata;
                 content := content;
                 images := images;
                 tags := Metadata.tags metadata |}))%io.

End Scraper.

(* ================================================================== *)
(** ** A reference runtime for the examples

    Small stand-ins for the runtime, used where an example needs a concrete
    one: a parser for URLs of the form [scheme://host...], and a serializer
    that writes elements, attributes and text the way cheerio's does on
    input without characters that need escaping. *)

Module Example.

Fixpoint splitOnce (sep s : string) : option (string * string) :=
  if String.prefix sep s then
    Some (EmptyString,
          String.substring (String.length sep)
                           (String.length s - String.length sep) s)
  else
    match s with
    | EmptyString => None
    | String c r =>
        match splitOnce sep r with
        | Some (a, b) => Some (String c a, b)
        | None => None
        end
    end.

Definition endsHost (c : ascii) : bool :=
  existsb (Ascii.eqb c) ["/"; "?"; "#"; ":"]%char.

Definition parseURL (url : string) : option URL :=
  match splitOnce "://" url with
  | Some (scheme, rest) =>
      let host :=
        if Js.startsWith rest "[" then
          (fst (Js.span (fun c => negb (c =? "]")%char) rest) ++ "]")%string
        else fst (Js.span (fun c => negb (endsHost c)) rest) in
      if (scheme =? "") || (host =? "") then None
      else Some {| protocol := (Js.toLowerCase scheme ++ ":")%string;
                   hostname := Js.toLowerCase host |}
  | None => None
  end.

Definition voidElements : list string :=
  ["area"; "base"; "br"; "col"; "embed"; "hr"; "img"; "input"; "link";
   "meta"; "param"; "source"; "track"; "wbr"].

Definition renderAttr (kv : string * string) : string :=
  (" " ++ fst kv ++ "=" ++ quote ++ snd kv ++ quote)%string.

Fixpoint renderNode (n : node) : string :=
  match n with
  | Text d => d
  | Comment d => ("<!--" ++ d ++ "-->")%string
  | Element name attrs cs =>
      ("<" ++ name ++ String.concat "" (map renderAttr attrs) ++ ">"
       ++ (if existsb (String.eqb name) voidElements then ""
           else fold_right (fun c acc => renderNode c ++ acc) "" cs
                ++ "</" ++ name ++ ">"))%string
  end.

Definition render (ns : list node) : string :=
  fold_right (fun c acc => (renderNode c ++ acc)%string) "" ns.

(** [<article><h1>Title</h1><p>Content</p></article>] inside [body]. *)
Definition page (head articleChildren : list node) : document :=
  [ Element "html" []
      [ Element "head" [] head;
        Element "body" [] [ Element "article" [] articleChildren ] ] ].

Definition h1 (t : string) : node := Element "h1" [] [Text t].
Definition p (cs : list node) : node := Element "p" [] cs.
Definition img (attrs : list (string * string)) : node :=
  Element "img" attrs [].

(** A network that serves one page and answers every other request with
    [imageOutcome]. *)
Definition serve (pageUrl html : string) (imageOutcome : FetchOutcome)
  : nat -> string -> FetchOutcome :=
  fun _ url =>
    if url =? pageUrl then
      Resolved {| status := 200; headers := []; body := inr html |}
    else imageOutcome.

Definition pngBytes : string :=
  String "137" (String "080" (String "078" (String "071" EmptyString))).

Definition pngResponse : FetchOutcome :=
  Resolved {| status := 200;
              headers := [("content-type", "image/png")];
              body := inr pngBytes |}.

End Example.

(* ================================================================== *)
(** ** The specification's vocabulary

    Definitions that follow the words of the specification, to be compared
    with the code above. *)

Module Spec.

(** An IPv4 literal: four decimal numbers from 0 to 255, of one to three
    digits each, separated by dots. *)
Definition octet (s : string) : option N :=
  if isOctetText s && (Js.numberOfDigits s <=? 255)%N
  then Some (Js.numberOfDigits s) else None.

Definition ipv4Literal (h : string) : option (N * N * N * N) :=
  match Js.split "."%char h with
  | [a; b; c; d] =>
      match octet a, octet b, octet c, octet d with
      | Some a, Some b, Some c, Some d => Some (a, b, c, d)
      | _, _, _, _ => None
      end
  | _ => None
  end.

(** The 32-bit value of an address. *)
Definition ipv4Value (addr : N * N * N * N) : N :=
  let '(a, b, c, d) := addr in
  (N.shiftl a 24 + N.shiftl b 16 + N.shiftl c 8 + d)%N.

(** [addr] lies in the block [base/len]: both have the same leading [len]
    bits. *)
Definition inBlock (addr : N) (block : (N * N * N * N) * N) : bool :=
  let (base, len) := block in
  (N.shiftr addr (32 - len) =? N.shiftr (ipv4Value base) (32 - len))%N.

(** 127.0.0.0/8, 10.0.0.0/8, 172.16.0.0/12, 192.168.0.0/16,
    169.254.0.0/16 and 0.0.0.0/8 *)
Definition privateBlocks : list ((N * N * N * N) * N) :=
  [ ((127, 0, 0, 0), 8); ((10, 0, 0, 0), 8); ((172, 16, 0, 0), 12);
    ((192, 168, 0, 0), 16); ((169, 254, 0, 0), 16); ((0, 0, 0, 0), 8) ]%N.

(** The hostnames section 4.1 rejects, compared without regard to case. *)
Definition privateHost (hostname : string) : Prop :=
  let lower := Js.toLowerCase hostname in
  lower = "localhost" \/ lower = "localhost.localdomain"
  \/ (exists addr block,
        ipv4Literal lower = Some addr
        /\ In block privateBlocks
        /\ inBlock (ipv4Value addr) block = true)
  \/ lower = "::1" \/ lower = "[::1]".

(** The hostname equals, or is a subdomain of, an allow-list entry. *)
Definition allowListed (hostname : string) : Prop :=
  exists domain,
    In domain MEDIUM_DOMAINS
    /\ (hostname = domain
        \/ exists sub, hostname = (sub ++ "." ++ domain)%string).

(** [sub] occurs in [s]. *)
Definition occursIn (sub s : string) : Prop :=
  exists before after, s = (before ++ sub ++ after)%string.

(** The ways a download fails (section 4.6): a network error or a
    timeout, a bad status, a content type that is not an image, a
    declared or an actual size over the limit, a body that cannot be
    read. *)
Inductive downloadFails : FetchOutcome -> Prop :=
| fails_rejected (name : string) :
    downloadFails (Rejected name)
| fails_status (r : Response) :
    ok r = false -> downloadFails (Resolved r)
| fails_content_type (r : Response) (contentType : string) :
    headersGet r "content-type" = Some contentType ->
    contentType <> EmptyString ->
    Js.startsWith contentType "image/" = false ->
    downloadFails (Resolved r)
| fails_content_length (r : Response) (contentLength : string) (n : Z) :
    headersGet r "content-length" = Some contentLength ->
    Js.parseInt contentLength = Some n ->
    (n > MAX_IMAGE_SIZE_BYTES)%Z ->
    downloadFails (Resolved r)
| fails_body_size (r : Response) (bytes : string) :
    body r = inr bytes ->
    (Z.of_nat (String.length bytes) > MAX_IMAGE_SIZE_BYTES)%Z ->
    downloadFails (Resolved r)
| fails_body_read (r : Response) (name : string) :
    body r = inl name ->
    downloadFails (Resolved r).


(** The visible text of a page (section 4.3): its text outside [script]
    and [style] elements, which are not displayed. *)
Fixpoint visibleText (n : node) : string :=
  match n with
  | Text d => d
  | Comment _ => EmptyString
  | Element name _ cs =>
      if (name =? "script") || (name =? "style") then EmptyString
      else fold_right (fun c acc => (visibleText c ++ acc)%string) "" cs
  end.

Definition visibleTextOf (doc : document) : string :=
  fold_right (fun c acc => (visibleText c ++ acc)%string) "" doc.

(** The text inside the main article container: the first [article]
    element of the page. *)
Definition mainArticleText (doc : document) : string :=
  match select doc (tag "article") with
  | e :: _ => Js.trim (text (elem e))
  | [] => EmptyString
  end.

(** The paywall condition as section 4.3 words it. *)
Definition paywalled (doc : document) : bool :=
  existsb (fun selector => (0 <? List.length (select doc selector))%nat)
          CSS_SELECTORS.paywall
  || ((Js.includes (Js.toLowerCase (visibleTextOf doc)) "member-only story"
       || Js.includes (Js.toLowerCase (visibleTextOf doc)) "become a member")
      && (String.length (mainArticleText doc) <? 500)%nat).

(** What the attribute pass leaves of an element (section 4.5), and the
    four element names that section 8 says never appear. *)
Definition cleanedElement (name : string) (attrs : list (string * string))
  : Prop :=
  ~ In name ["script"; "style"; "nav"; "footer"]
  /\ (forall k, In k (map fst attrs) ->
        (Js.startsWith k "data-" = true -> k = "data-testid")
        /\ Js.startsWith k "aria-" = false
        /\ Js.startsWith k "on" = false)
  /\ (name = "a" ->
      forall k, In k (map fst attrs) -> k = "href" \/ k = "title")
  /\ (name = "img" ->
      forall k, In k (map fst attrs) -> k = "src" \/ k = "alt").


(** Keeping the first occurrence of each key: an element stays when no
    element before it in the list has its key. *)
Fixpoint firstOccurrencesAfter {A : Type} (key : A -> string)
                               (earlier l : list A) : list A :=
  match l with
  | [] => []
  | x :: r =>
      let rest := firstOccurrencesAfter key (earlier ++ [x]) r in
      if existsb (fun y => key y =? key x) earlier then rest else x :: rest
  end.

Definition firstOccurrences {A : Type} (key : A -> string) (l : list A)
  : list A :=
  firstOccurrencesAfter key [] l.

(** The source of an image element (section 4.6): [src], falling back to
    [data-src]; the empty string when there is none. *)
Definition sourceOf (img : node) : string :=
  orEmpty (Js.orElse (attr img "src") (attr img "data-src")).

(** Absolute or protocol-relative. *)
Definition resolvable (src : string) : bool :=
  Js.startsWith src "http" || Js.startsWith src "//".

(** A protocol-relative source [//host/path] becomes [https://host/path]. *)
Definition rewritten (src : string) : string :=
  if Js.startsWith src "//" then ("https:" ++ src)%string else src.

Definition candidateOf (img : node) : ImageData.t :=
  {| ImageData.url := rewritten (sourceOf img);
     ImageData.alt := Js.orElse (attr img "alt") None |}.


(** A tag as the metadata extractor reads it: the trimmed text of the
    element, in lower case. *)
Definition tagText (el : node) : string :=
  Js.toLowerCase (Js.trim (text el)).

(** Not empty and shorter than 50 characters. *)
Definition validTag (el : node) : bool :=
  Js.truthy (tagText el) && (String.length (tagText el) <? 50)%nat.

(** All the matches of the tag selectors, selector by selector, each in
    document order. *)
Definition tagCandidates (doc : document) : list node :=
  flat_map (fun selector => map elem (select doc selector))
           CSS_SELECTORS.tags.

(** [src="url"], as it stands in serialized markup. *)
Definition srcAttribute (url : string) : string :=
  ("src=" ++ quote ++ url ++ quote)%string.


(** Base64 decoding: the bytes that a base64 text stands for. *)
Fixpoint indexIn (c : ascii) (s : string) : N :=
  match s with
  | EmptyString => 0%N
  | String d r => if (c =? d)%char then 0%N else (1 + indexIn c r)%N
  end.

Definition base64Value (c : ascii) : N :=
  let i := indexIn c base64Alphabet in
  if (i <? 64)%N then i else 0%N.

Fixpoint fromBase64 (s : string) : string :=
  match s with
  | String c1 (String c2 (String c3 (String c4 r))) =>
      let n := (base64Value c1 * 262144 + base64Value c2 * 4096
                + base64Value c3 * 64 + base64Value c4)%N in
      let b1 := ascii_of_N (n / 65536) in
      let b2 := ascii_of_N ((n / 256) mod 256) in
      let b3 := ascii_of_N (n mod 256) in
      if (c3 =? "=")%char then String b1 EmptyString
      else if (c4 =? "=")%char then String b1 (String b2 EmptyString)
      else String b1 (String b2 (String b3 (fromBase64 r)))
  | _ => EmptyString
  end.


End Spec.

(* ================================================================== *)
(** ** Auxiliary notions used by the proofs *)

Fixpoint lastChar (s : string) : option ascii :=
  match s with
  | EmptyString => None
  | String c r =>
      match r with
      | EmptyString => Some c
      | String _ _ => lastChar r
      end
  end.

(** Every allow-listed domain ends in one of these letters; no private
    hostname does. *)
Definition endsLikeDomain (s : string) : bool :=
  match lastChar s with
  | Some c => existsb (Ascii.eqb c) ["m"; "b"; "o"; "c"; "z"]%char
  | None => false
  end.

(** The chain of tests of [isPrivateHost] on the first two octets. *)
Definition privateOctets (a b : N) : bool :=
  ((a =? 127) || (a =? 10) || ((a =? 172) && (16 <=? b) && (b <=? 31))
   || ((a =? 192) && (b =? 168)) || ((a =? 169) && (b =? 254))
   || (a =? 0))%N.

(** The entries [downloadAllImages] returns for the candidates [l] when
    the first of their requests is the [k]-th of the run. *)
Fixpoint imagesFrom (net : nat -> string -> FetchOutcome) (k : nat)
                    (l : list ImageData.t) : list ArticleImage :=
  match l with
  | [] => []
  | d :: r =>
      {| originalUrl := ImageData.url d;
         base64 := imageOfOutcome (net k (ImageData.url d));
         alt := ImageData.alt d |} :: imagesFrom net (S k) r
  end.

(** Sixty candidates, as in the repository's test. *)
Definition sixtyCandidates : list ImageData.t :=
  map (fun i => {| ImageData.url := "https://example.com/image.jpg";
                   ImageData.alt := None |})
      (seq 0 60).


(** The attribute names that the first loop of [cleanAttributes] removes. *)
Definition isTracking (attr : string) : bool :=
  (Js.startsWith attr "data-" && negb (attr =? "data-testid"))
  || (Js.startsWith attr "aria-" || Js.startsWith attr "on").

Definition isAllowed (allowedAttrs : list string) (attr : string) : bool :=
  existsb (String.eqb attr) allowedAttrs.

(** The attributes whose name is none of [names]. *)
Definition without (names : list string) (attrs : list (string * string))
  : list (string * string) :=
  filter (fun kv => negb (existsb (String.eqb (fst kv)) names)) attrs.

(** The names that a loop [if (drop(attr)) $el.removeAttr(attr)] over
    [keys] deletes: the white-space separated parts of every key that is
    to go. *)
Definition removedNames (drop : string -> bool) (keys : list string)
  : list string :=
  flat_map splitNames (filter drop keys).

(** A name that is not empty and has no white space in it: the one name
    that [removeAttr] takes it for. *)
Definition plainName (k : string) : bool :=
  Js.truthy k && Js.allChars (fun c => negb (Js.isSpace c)) k.

Definition plainKeys (attrs : list (string * string)) : bool :=
  forallb plainName (map fst attrs).

(** The attributes of an element that have a plain name. *)
Definition plainAttributes (attrs : list (string * string))
  : list (string * string) :=
  filter (fun kv => plainName (fst kv)) attrs.

(** [P] holds of the name and attributes of [n], when [n] is an element,
    and of every element below it. *)
Fixpoint deep (P : string -> list (string * string) -> Prop) (n : node)
  : Prop :=
  match n with
  | Element name attrs cs =>
      P name attrs
      /\ (fix all (l : list node) : Prop :=
            match l with
            | [] => True
            | c :: r => deep P c /\ all r
            end) cs
  | _ => True
  end.

(** [e] lies strictly below [root]. *)
Inductive Within (root : node) : node -> Prop :=
| within_child (c : node) :
    In c (childrenOf root) -> Within root c
| within_step (c d : node) :
    Within root c -> In d (childrenOf c) -> Within root d.

(** The page of the repository's test with a [meta] published time and no
    [time] element. *)
Definition metaDatePage : document :=
  Example.page
    [ Element "meta" [("property", "article:published_time");
                      ("content", "2026-01-01")] [] ]
    [ Example.h1 "Title"; Example.p [Text "Content"] ].

(** An article with a lazy-loaded image: [data-src] and no [src]. *)
Definition lazyImagePage : document :=
  Example.page []
    [ Example.h1 "Title";
      Example.p [ Text "Lazy";
                  Example.img [("data-src", "https://example.com/lazy.jpg");
                               ("alt", "Lazy image")] ] ].


(** The article of the repository's cleaner tests, with a script, a
    navigation block, tracking attributes and a link. *)
Definition trackedPage : document :=
  Example.page []
    [ Element "nav" [] [Text "Navigation"];
      Element "script" [("data-x", "1")] [Text "alert('xss')"];
      Element "div" [("data-tracking", "abc"); ("data-testid", "content")]
              [Text "Text"];
      Example.p [ Element "a" [("href", "/tag/coq"); ("onclick", "x()");
                               ("data-testid", "link"); ("class", "z")]
                          [Text "Coq"];
                  Example.img [("src", "https://example.com/a.png");
                               ("aria-hidden", "true"); ("width", "10")] ];
      Element "footer" [] [Text "Footer"] ].


(** A free story on a page whose script mentions the membership offer:
    the phrase is in the text of [body], and not in what a reader sees. *)
Definition scriptPhrasePage : document :=
  [ Element "html" []
      [ Element "head" [] [];
        Element "body" []
          [ Element "script" [] [Text "window.cta = 'Become a member';"];
            Element "article" []
              [ Example.h1 "Title";
                Example.p [Text "A short free story."] ] ] ] ].

Definition filler (n : nat) : string :=
  string_of_list_ascii (repeat "x"%char n).

(** A page that shows the phrase and has two [article] elements with 250
    characters of text each. *)
Definition twoArticlesPage : document :=
  [ Element "html" []
      [ Element "head" [] [];
        Element "body" []
          [ Element "p" [] [Text "Member-only story"];
            Element "article" [] [Example.p [Text (filler 250)]];
            Element "article" [] [Example.p [Text (filler 250)]] ] ] ].

(** An article without what its image requests gave: every [base64] is
    forgotten. *)
Definition withoutDownloads (a : Article) : Article :=
  {| url := url a;
     title := title a;
     subtitle := subtitle a;
     author := author a;
     publishedDate := publishedDate a;
     readingTime := readingTime a;
     content := content a;
     images := map (fun img => {| originalUrl := originalUrl img;
                                  base64 := None;
                                  alt := alt img |})
                   (images a);
     tags := tags a |}.

(** U+000B and U+00A0: white space for [\s] and [trim], and no white
    space for the HTML parser, which reads them as part of a name. *)
Definition lineTabulation : string := String "011"%char EmptyString.
Definition noBreakSpace : string := String "160"%char EmptyString.

(** An article with an element named [script] followed by U+00A0, and a
    paragraph with an attribute named [x], U+000B, [onclick]. *)
Definition oddNamesPage : document :=
  Example.page []
    [ Example.h1 "Title";
      Element ("script" ++ noBreakSpace)%string [] [Text "alert(1)"];
      Element "p" [(("x" ++ lineTabulation ++ "onclick")%string, "alert(2)")]
              [Text "Body"] ].

(** The loop shared by [extractImages] and the tag loop of
    [extractMetadata]: skip an element whose key was seen, record the key,
    and push what is made of the element when it is to be kept. *)
Definition seenStep {A B : Type} (key : A -> string) (keep : A -> bool)
                    (make : A -> B) (st : list B * list string) (x : A)
  : list B * list string :=
  let (out, seen) := st in
  if negb (existsb (String.eqb (key x)) seen) then
    (if keep x then out ++ [make x] else out, key x :: seen)
  else st.

(** Two images whose sources differ only in being protocol-relative. *)
Definition mixedSchemePage : document :=
  Example.page []
    [ Example.h1 "Title";
      Example.p [ Text "Two";
                  Example.img [("src", "//cdn.example.com/a.png");
                               ("alt", "First")];
                  Example.img [("src", "https://cdn.example.com/a.png");
                               ("alt", "Second")] ] ].

(** Two images with the same source, as in the repository's test. *)
Definition sameSourcePage : document :=
  Example.page []
    [ Example.img [("src", "https://example.com/same.jpg"); ("alt", "First")];
      Example.img [("src", "https://example.com/same.jpg");
                   ("alt", "Duplicate")] ].


(** An article with one image, and the run that scrapes it from a network
    on which the image downloads. *)
Definition onePicturePage : document :=
  Example.page []
    [ Example.h1 "Title";
      Example.p [ Text "Look";
                  Example.img [("src", "https://cdn.example.com/a.png");
                               ("alt", "A")] ] ].

Definition onePictureRun : result Article * list string :=
  scrapeArticle Example.parseURL
    (Example.serve "https://medium.com/@user/story" "<html>"
                   Example.pngResponse)
    (fun _ => onePicturePage) Example.render "2026-02-07T12:00:00.000Z"
    "https://medium.com/@user/story" [].

Definition onePictureArticle : Article :=
  Eval vm_compute in
    match fst onePictureRun with
    | inr a => a
    | inl _ =>
        {| url := EmptyString; title := EmptyString; subtitle := None;
           author := EmptyString; publishedDate := EmptyString;
           readingTime := None; content := EmptyString; images := [];
           tags := None |}
    end.

Definition onePictureLog : list string :=
  Eval vm_compute in snd onePictureRun.



(** An article with a reading time next to its title. *)
Definition readTimePage : document :=
  Example.page []
    [ Example.h1 "Title";
      Element "span" [("data-testid", "storyReadTime")] [Text "5 min read"];
      Example.p [Text "Body"] ].

(** The same, with a reading time that says no more than [5 min]. *)
Definition wholeReadTimePage : document :=
  Example.page []
    [ Example.h1 "Title";
      Element "span" [("data-testid", "storyReadTime")] [Text "5 min"];
      Example.p [Text "Body"] ].

Definition readTimeArticle : Article :=
  Eval vm_compute in
    match fst (scrapeArticle Example.parseURL
                 (Example.serve "https://medium.com/@user/story" "<html>"
                                Example.pngResponse)
                 (fun _ => readTimePage) Example.render
                 "2026-02-07T12:00:00.000Z"
                 "https://medium.com/@user/story" []) with
    | inr a => a
    | inl _ =>
        {| url := EmptyString; title := EmptyString; subtitle := None;
           author := EmptyString; publishedDate := EmptyString;
           readingTime := None; content := EmptyString; images := [];
           tags := None |}
    end.



(** White space in a serialized tree.  [tidy s]: every white-space
    character of [s] is a plain space, and none is followed by another.
    [sealed s]: no [>] of [s] is followed by one white-space character and
    then [<]. *)
Definition headIsSpace (s : string) : bool :=
  match s with
  | String c _ => Js.isSpace c
  | EmptyString => false
  end.

Fixpoint tidy (s : string) : Prop :=
  match s with
  | EmptyString => True
  | String c r =>
      (Js.isSpace c = true -> c = " "%char /\ headIsSpace r = false)
      /\ tidy r
  end.

Definition gapAt (s : string) : bool :=
  match s with
  | String d (String e _) => Js.isSpace d && (e =? "<")%char
  | _ => false
  end.

Fixpoint sealed (s : string) : Prop :=
  match s with
  | EmptyString => True
  | String c r => (c = ">"%char -> gapAt r = false) /\ sealed r
  end.



(** An [img] element, and a node with an [img] element below it. *)
Definition isImg (n : node) : bool :=
  match n with
  | Element name _ _ => name =? "img"
  | _ => false
  end.

Fixpoint hasImg (n : node) : bool :=
  match n with
  | Element _ _ cs =>
      (fix some (l : list node) : bool :=
         match l with
         | [] => false
         | c :: r => (isImg c || hasImg c) || some r
         end) cs
  | _ => false
  end.

(** An article with a side bar, a share bar, empty wrappers and a
    figure. *)
Definition clutteredPage : document :=
  Example.page []
    [ Example.h1 "Title";
      Element "aside" [] [Text "Related"];
      Element "div" [("class", "post-share-bar")] [Text "Share"];
      Element "div" [] [Example.p [Text "  "]];
      Example.p [Text "Body"; Element "span" [] []];
      Element "figure" []
              [Example.img [("src", "https://example.com/a.png")]] ].

Definition clutteredClean : node :=
  Element "article" []
    [ Example.h1 "Title";
      Example.p [Text "Body"];
      Element "figure" []
              [Example.img [("src", "https://example.com/a.png")]] ].



(* ================================================================== *)
(** ** routes: request bodies, replies and the rate-limit map

    A request body is read with [c.req.json()], which rejects when the body
    is not JSON.  A reply is what [c.json(response, status)] sends: the
    status (200 when none is given) and the [ApiResponse].  [Date.now()] is
    the argument [nowMs] of the code that reads it. *)

Module Json.

Local Unset Elimination Schemes.

(** A parsed JSON value; a number is [mantissa * 10 ^ exponent]. *)
Inductive value : Type :=
| JNull
| JBool (b : bool)
| JNumber (mantissa exponent : Z)
| JString (s : string)
| JArray (items : list value)
| JObject (fields : list (string * value)).

Local Set Elimination Schemes.

Fixpoint lookup (k : string) (fields : list (string * value))
  : option value :=
  match fields with
  | [] => None
  | (k', v) :: r => if k' =? k then Some v else lookup k r
  end.

(** [v.k] for a key that is no property of a string, a number, a boolean
    or an array ([url], [urls], [format], [options], [title],
    [includeImages]); [None] is [undefined]. *)
Definition prop (k : string) (v : value) : option value :=
  match v with
  | JObject fields => lookup k fields
  | _ => None
  end.

Definition truthy (v : option value) : bool :=
  match v with
  | None | Some JNull => false
  | Some (JBool b) => b
  | Some (JNumber mantissa _) => negb (mantissa =? 0)%Z
  | Some (JString s) => Js.truthy s
  | Some (JArray _) | Some (JObject _) => true
  end.

End Json.

Inductive ApiResponse (A : Type) : Type :=
| ApiSuccess (data : A)
| ApiFailure (code message : string).

Arguments ApiSuccess {A} data.
Arguments ApiFailure {A} code message.

Record Reply (A : Type) : Type := {
  httpStatus : Z;
  response : ApiResponse A
}.

(** The [code] of a [ScraperException], as the string it is. *)
Definition codeName (c : ErrorCode) : string :=
  match c with
  | INVALID_URL => "INVALID_URL"
  | TIMEOUT => "TIMEOUT"
  | NOT_FOUND => "NOT_FOUND"
  | PAYWALL => "PAYWALL"
  | NETWORK_ERROR => "NETWORK_ERROR"
  | PARSE_ERROR => "PARSE_ERROR"
  end.

(** [a || d] for a possibly undefined string [a] and a string [d]. *)
Definition orDefault (a : option string) (d : string) : string :=
  match Js.orElse a (Some d) with
  | Some s => s
  | None => d
  end.

(** [Map<string, { count: number; resetAt: number }>], in insertion
    order. *)
Module RateMap.

Record entry : Type := { count : Z; resetAt : Z }.

Definition t : Type := list (string * entry).

Fixpoint get (ip : string) (m : t) : option entry :=
  match m with
  | [] => None
  | (k, e) :: r => if k =? ip then Some e else get ip r
  end.

Fixpoint set (ip : string) (e : entry) (m : t) : t :=
  match m with
  | [] => [(ip, e)]
  | (k, e') :: r => if k =? ip then (k, e) :: r else (k, e') :: set ip e r
  end.

Definition delete (ip : string) (m : t) : t :=
  filter (fun kv => negb (fst kv =? ip)) m.

(** [for (const [ip, record] of m.entries()) if (now >= record.resetAt)
    m.delete(ip)] *)
Definition deleteExpired (nowMs : Z) (m : t) : t :=
  fold_left (fun cur kv =>
               if (nowMs >=? resetAt (snd kv))%Z then delete (fst kv) cur
               else cur)
            m m.

End RateMap.

(* ================================================================== *)
(** ** routes/scraper.ts *)

Module ScraperRoute.

Definition RATE_LIMIT_WINDOW_MS : Z := 60 * 1000.
Definition RATE_LIMIT_MAX_REQUESTS : Z := 10.

Definition checkRateLimit (nowMs : Z) (ip : string)
                          (requestCounts : RateMap.t)
  : bool * RateMap.t :=
  let fresh :=
    (true,
     RateMap.set ip {| RateMap.count := 1;
                       RateMap.resetAt := nowMs + RATE_LIMIT_WINDOW_MS |}
                 requestCounts) in
  match RateMap.get ip requestCounts with
  | None => fresh
  | Some record =>
      if (nowMs >=? RateMap.resetAt record)%Z then fresh
      else if (RateMap.count record >=? RATE_LIMIT_MAX_REQUESTS)%Z then
        (false, requestCounts)
      else
        (true,
         RateMap.set ip {| RateMap.count := RateMap.count record + 1;
                           RateMap.resetAt := RateMap.resetAt record |}
                     requestCounts)
  end.

(** The [setInterval] callback. *)
Definition cleanup (nowMs : Z) (requestCounts : RateMap.t) : RateMap.t :=
  RateMap.deleteExpired nowMs requestCounts.

(** The [switch] on [error.code]. *)
Definition statusOf (c : ErrorCode) : Z :=
  match c with
  | INVALID_URL => 400
  | NOT_FOUND => 404
  | PAYWALL => 403
  | TIMEOUT => 504
  | _ => 500
  end.

Section Route.

Variable parseURL : string -> option URL.
Variable net : nat -> string -> FetchOutcome.
Variable load : string -> document.
Variable render : list node -> string.
Variable now : string.

(** The handler of [POST /scrape], on the [x-forwarded-for] header and the
    parsed body of the request. *)
Definition postScrape (nowMs : Z) (forwardedFor : option string)
                      (body : option Json.value)
                      (requestCounts : RateMap.t)
  : IO (Reply Article * RateMap.t) :=
  let clientIp :=
    orDefault
      (option_map Js.trim
         match forwardedFor with
         | Some h => nth_error (Js.split "," h) 0
         | None => None
         end)
      "unknown" in
  let (allowed, requestCounts) :=
    checkRateLimit nowMs clientIp requestCounts in
  if negb allowed then
    ret ({| httpStatus := 429;
            response :=
              ApiFailure "NETWORK_ERROR"
                         "Rate limit exceeded. Please try again later." |},
         requestCounts)
  else
    let body :=
      match body with
      | Some b => b
      | None => Json.JNull
      end in
    match (if Json.truthy (Some body) then Json.prop "url" body else None)
    with
    | Some (Json.JString url) =>
        if negb (Js.truthy (Js.trim url)) then
          ret ({| httpStatus := 400;
                  response := ApiFailure "INVALID_URL" "URL cannot be empty" |},
               requestCounts)
        else
          (r <- scrapeArticle parseURL net load render now url ;;
           ret (match r with
                | inr article =>
                    {| httpStatus := 200; response := ApiSuccess article |}
                | inl error =>
                    {| httpStatus := statusOf (code error);
                       response := ApiFailure (codeName (code error))
                                              (message error) |}
                end,
                requestCounts))%io
    | _ =>
        ret ({| httpStatus := 400;
                response :=
                  ApiFailure "INVALID_URL"
                    ("Request body must contain a valid " ++ quote ++ "url"
                     ++ quote ++ " string") |},
             requestCounts)
    end.

End Route.

End ScraperRoute.

(* ================================================================== *)
(** ** routes/convert.ts *)

Module Preview.
Record t : Type := {
  url : string;
  title : string;
  author : string;
  publishedDate : string;
  readingTime : option string
}.
End Preview.

Module ConvertRoute.

Definition RATE_LIMIT_WINDOW_MS : Z := 60 * 1000.

Record limiter : Type := {
  maxRequests : Z;
  counts : RateMap.t
}.

Definition checkRateLimit (nowMs : Z) (ip : string) (l : limiter)
  : bool * limiter :=
  let fresh :=
    (true,
     {| maxRequests := maxRequests l;
        counts :=
          RateMap.set ip {| RateMap.count := 1;
                            RateMap.resetAt := nowMs + RATE_LIMIT_WINDOW_MS |}
                      (counts l) |}) in
  match RateMap.get ip (counts l) with
  | None => fresh
  | Some record =>
      if (nowMs >=? RateMap.resetAt record)%Z then fresh
      else if (RateMap.count record >=? maxRequests l)%Z then (false, l)
      else
        (true,
         {| maxRequests := maxRequests l;
            counts :=
              RateMap.set ip {| RateMap.count := RateMap.count record + 1;
                                RateMap.resetAt := RateMap.resetAt record |}
                          (counts l) |})
  end.

(** The two limiters of the module. *)
Record limiters : Type := {
  convertRateLimiter : limiter;
  previewRateLimiter : limiter
}.

Definition initialLimiters : limiters :=
  {| convertRateLimiter := {| maxRequests := 5; counts := [] |};
     previewRateLimiter := {| maxRequests := 10; counts := [] |} |}.

(** The [setInterval] callback. *)
Definition cleanup (nowMs : Z) (st : limiters) : limiters :=
  let clean l :=
    {| maxRequests := maxRequests l;
       counts := RateMap.deleteExpired nowMs (counts l) |} in
  {| convertRateLimiter := clean (convertRateLimiter st);
     previewRateLimiter := clean (previewRateLimiter st) |}.

(** [/[^a-zA-Z0-9-_ ]/]: the characters [sanitizeFilename] removes. *)
Definition isFilenameChar (c : ascii) : bool :=
  let n := Js.code c in
  (((97 <=? n) && (n <=? 122)) || ((65 <=? n) && (n <=? 90))
   || ((48 <=? n) && (n <=? 57))
   || (n =? 45) || (n =? 95) || (n =? 32))%N.

Fixpoint keepChars (p : ascii -> bool) (s : string) : string :=
  match s with
  | EmptyString => EmptyString
  | String c r => if p c then String c (keepChars p r) else keepChars p r
  end.

Definition sanitizeFilename (name : string) : string :=
  orDefault
    (Some (String.substring 0 100 (Js.trim (keepChars isFilenameChar name))))
    "ebook".

Definition getClientIp (forwardedFor : option string) : string :=
  orDefault
    (option_map Js.trim
       match forwardedFor with
       | Some h => nth_error (Js.split "," h) 0
       | None => None
       end)
    "unknown".

(** The loop of [validateUrls] over the items. *)
Fixpoint validateEach (urls : list Json.value) : option string :=
  match urls with
  | [] => None
  | url :: rest =>
      match url with
      | Json.JString s =>
          if negb (Js.truthy (Js.trim s)) then
            Some "Each URL must be a non-empty string"
          else validateEach rest
      | _ => Some "Each URL must be a non-empty string"
      end
  end.

(** [validateUrls(urls)]: [None] is [{ valid: true }], [Some error] is
    [{ valid: false, error }]. *)
Definition validateUrls (urls : option Json.value) : option string :=
  match urls with
  | Some (Json.JArray urls) =>
      if (List.length urls =? 0)%nat then Some "urls array cannot be empty"
      else if (10 <? List.length urls)%nat then
        Some "Maximum 10 URLs allowed per request"
      else validateEach urls
  | _ => Some "urls must be an array"
  end.

(** [getHttpStatusForError(error)], on [error.code]. *)
Definition getHttpStatusForError (code : string) : Z :=
  if code =? "INVALID_URL" then 400
  else if code =? "NOT_FOUND" then 404
  else if code =? "PAYWALL" then 403
  else if code =? "INVALID_INPUT" then 400
  else if code =? "EMPTY_ARTICLES" then 400
  else if code =? "TOO_MANY_ARTICLES" then 400
  else if code =? "CONTENT_TOO_LARGE" then 400
  else if code =? "TIMEOUT" then 504
  else 500.

(** [urls as string[]], once [validateUrls] has passed. *)
Definition asString (v : Json.value) : string :=
  match v with
  | Json.JString s => s
  | _ => EmptyString
  end.

Definition previewOf (article : Article) : Preview.t :=
  {| Preview.url := url article;
     Preview.title := title article;
     Preview.author := author article;
     Preview.publishedDate := publishedDate article;
     Preview.readingTime := readingTime article |}.

Section Routes.

Variable parseURL : string -> option URL.
Variable net : nat -> string -> FetchOutcome.
Variable load : string -> document.
Variable render : list node -> string.
Variable now : string.

(** [for (const url of urls) { const article = await scrapeArticle(url);
    articles.push(f(article)) }] *)
Fixpoint scrapeEach {A : Type} (f : Article -> A) (urls : list string)
                    (articles : list A) : IO (result (list A)) :=
  match urls with
  | [] => ret (inr articles)
  | url :: rest =>
      (article <-? scrapeArticle parseURL net load render now url ;;
       scrapeEach f rest (articles ++ [f article]))%io
  end.

(** The handler of [POST /preview]. *)
Definition postPreview (nowMs : Z) (forwardedFor : option string)
                       (body : option Json.value) (st : limiters)
  : IO (Reply (list Preview.t) * limiters) :=
  let clientIp := getClientIp forwardedFor in
  let (allowed, previewLimiter) :=
    checkRateLimit nowMs clientIp (previewRateLimiter st) in
  let st := {| convertRateLimiter := convertRateLimiter st;
               previewRateLimiter := previewLimiter |} in
  if negb allowed then
    ret ({| httpStatus := 429;
            response :=
              ApiFailure "RATE_LIMIT"
                         "Rate limit exceeded. Please try again later." |},
         st)
  else
    match body with
    | None =>
        ret ({| httpStatus := 400;
                response := ApiFailure "INVALID_INPUT" "Invalid JSON body" |},
             st)
    | Some Json.JNull =>
        (* [const { urls } = body] throws a [TypeError] *)
        ret ({| httpStatus := 500;
                response := ApiFailure "NETWORK_ERROR"
                                       "An unexpected error occurred" |},
             st)
    | Some body =>
        let urls := Json.prop "urls" body in
        match validateUrls urls with
        | Some error =>
            ret ({| httpStatus := 400;
                    response := ApiFailure "INVALID_INPUT" error |},
                 st)
        | None =>
            let urls :=
              match urls with
              | Some (Json.JArray items) => map asString items
              | _ => []
              end in
            (r <- scrapeEach previewOf urls [] ;;
             ret (match r with
                  | inr articles =>
                      {| httpStatus := 200;
                         response := ApiSuccess articles |}
                  | inl error =>
                      {| httpStatus :=
                           getHttpStatusForError (codeName (code error));
                         response := ApiFailure (codeName (code error))
                                                (message error) |}
                  end,
                  st))%io
        end
    end.

End Routes.

End ConvertRoute.



(** A sequence of calls of [checkRateLimit], each at its own instant and
    for its own address, and the decisions it gives. *)
Fixpoint runChecks (l : ConvertRoute.limiter) (calls : list (Z * string))
  : list bool * ConvertRoute.limiter :=
  match calls with
  | [] => ([], l)
  | (nowMs, ip) :: rest =>
      let (allowed, l') := ConvertRoute.checkRateLimit nowMs ip l in
      let (decisions, l'') := runChecks l' rest in
      (allowed :: decisions, l'')
  end.

(** The decisions given to the calls made for [ip]. *)
Definition decisionsOf (ip : string) (calls : list (Z * string))
                       (decisions : list bool) : list bool :=
  map snd (filter (fun cd => snd (fst cd) =? ip) (combine calls decisions)).

Definition callsOf (ip : string) (calls : list (Z * string)) : nat :=
  List.length (filter (fun c => snd c =? ip) calls).

(** A record that has not expired at [nowMs]. *)
Definition liveAt (nowMs : Z) (o : option RateMap.entry)
  : option RateMap.entry :=
  match o with
  | Some r => if (nowMs >=? RateMap.resetAt r)%Z then None else Some r
  | None => None
  end.



(* ================================================================== *)
(** ** generators/pdf-generator/html-template.ts: escaping *)

Module HtmlTemplate.

(** [s.replace(/c/g, by)] for a single character [c] and a replacement
    text without [$]. *)
Fixpoint replaceChar (c : ascii) (by_ : string) (s : string) : string :=
  match s with
  | EmptyString => EmptyString
  | String d r =>
      if (d =? c)%char then (by_ ++ replaceChar c by_ r)%string
      else String d (replaceChar c by_ r)
  end.

Definition escapeHtml (text : string) : string :=
  replaceChar "'" "&#039;"
    (replaceChar "034" "&quot;"
       (replaceChar ">" "&gt;"
          (replaceChar "<" "&lt;"
             (replaceChar "&" "&amp;" text)))).



End HtmlTemplate.

(** One character, escaped for HTML. *)
Definition escapeChar (c : ascii) : string :=
  if (c =? "&")%char then "&amp;"
  else if (c =? "<")%char then "&lt;"
  else if (c =? ">")%char then "&gt;"
  else if (c =? "034")%char then "&quot;"
  else if (c =? "'")%char then "&#039;"
  else String c EmptyString.

Fixpoint escapeEach (s : string) : string :=
  match s with
  | EmptyString => EmptyString
  | String c r => (escapeChar c ++ escapeEach r)%string
  end.




(** A body with two URLs, the second of which is not https. *)
Definition twoUrlBody : Json.value :=
  Json.JObject
    [("urls", Json.JArray [Json.JString "https://medium.com/@user/story";
                           Json.JString "http://medium.com/@user/other"])].



(* ================================================================== *)
(** ** generators: input validation, and [POST /convert] *)

Module Generator.

Inductive ErrorCode : Type :=
| INVALID_INPUT | EMPTY_ARTICLES | TOO_MANY_ARTICLES | CONTENT_TOO_LARGE
| RENDER_ERROR | TIMEOUT.

Record GeneratorError : Type := GeneratorException {
  code : ErrorCode;
  message : string
}.

Definition codeName (c : ErrorCode) : string :=
  match c with
  | INVALID_INPUT => "INVALID_INPUT"
  | EMPTY_ARTICLES => "EMPTY_ARTICLES"
  | TOO_MANY_ARTICLES => "TOO_MANY_ARTICLES"
  | CONTENT_TOO_LARGE => "CONTENT_TOO_LARGE"
  | RENDER_ERROR => "RENDER_ERROR"
  | TIMEOUT => "TIMEOUT"
  end.

Inductive Format : Type := Pdf | Epub.

Definition MAX_ARTICLES : nat := 50.

(** [ERROR_MESSAGES] of the two [constants.ts]. *)
Definition ERROR_MESSAGES (format : Format) (c : ErrorCode) : string :=
  match c with
  | INVALID_INPUT => "Invalid input: articles array and title are required"
  | EMPTY_ARTICLES => "At least one article is required"
  | TOO_MANY_ARTICLES => "Maximum 50 articles allowed per request"
  | CONTENT_TOO_LARGE => "Total content exceeds 100MB limit"
  | RENDER_ERROR =>
      match format with
      | Pdf => "Failed to render PDF"
      | Epub => "Failed to render ePub"
      end
  | TIMEOUT =>
      match format with
      | Pdf => "PDF generation timed out after 60 seconds"
      | Epub => "ePub generation timed out after 60 seconds"
      end
  end.

(** The options that [POST /convert] passes. *)
Record Options : Type := {
  title : string;
  includeImages : bool
}.

(** [validateInput(articles, options)] of [pdf-renderer.ts] and of
    [epub-renderer.ts]; [articles] is [None] when it is not an array. *)
Definition validateInput (format : Format)
                         (articles : option (list Article))
                         (options : Options)
  : GeneratorError + unit :=
  match articles with
  | None =>
      inl (GeneratorException INVALID_INPUT
                              (ERROR_MESSAGES format INVALID_INPUT))
  | Some articles =>
      if (List.length articles =? 0)%nat then
        inl (GeneratorException EMPTY_ARTICLES
                                (ERROR_MESSAGES format EMPTY_ARTICLES))
      else if (MAX_ARTICLES <? List.length articles)%nat then
        inl (GeneratorException TOO_MANY_ARTICLES
                                (ERROR_MESSAGES format TOO_MANY_ARTICLES))
      else if negb (Js.truthy (title options)) then
        inl (GeneratorException INVALID_INPUT "Title is required")
      else inr tt
  end.

(** What can go wrong after the validation: the size check, the timer,
    the renderer. *)
Inductive RenderFailure : Type :=
| ContentTooLarge | RenderTimeout | RenderFailed.

Definition failureCode (f : RenderFailure) : ErrorCode :=
  match f with
  | ContentTooLarge => CONTENT_TOO_LARGE
  | RenderTimeout => TIMEOUT
  | RenderFailed => RENDER_ERROR
  end.

Section Generate.

(** The document that the renderer (Puppeteer, epub-gen-memory) makes of
    the articles, or the failure of the size check, of the timer or of the
    renderer. *)
Variable renderDocument :
  Format -> list Article -> Options -> RenderFailure + string.

(** [generatePdf] and [generateEpub]: the validation, then the rest. *)
Definition generate (format : Format) (articles : list Article)
                    (options : Options) : GeneratorError + string :=
  match validateInput format (Some articles) options with
  | inl e => inl e
  | inr _ =>
      match renderDocument format articles options with
      | inl f =>
          inl (GeneratorException (failureCode f)
                                  (ERROR_MESSAGES format (failureCode f)))
      | inr buffer => inr buffer
      end
  end.

End Generate.

End Generator.

(** The binary response of [POST /convert]. *)
Record Download : Type := {
  contentType : string;
  contentDisposition : string;
  contentLength : nat;
  bytes : string
}.

Module ConvertHandler.

Definition EPUB_MIME_TYPE : string := "application/epub+zip".

(** [options?.title] *)
Definition titleOf (options : option Json.value) : option Json.value :=
  match options with
  | None | Some Json.JNull => None
  | Some o => Json.prop "title" o
  end.

(** [options.includeImages !== false] *)
Definition includeImagesOf (options : option Json.value) : bool :=
  match options with
  | Some o =>
      match Json.prop "includeImages" o with
      | Some (Json.JBool false) => false
      | _ => true
      end
  | None => true
  end.

Section Route.

Variable parseURL : string -> option URL.
Variable net : nat -> string -> FetchOutcome.
Variable load : string -> document.
Variable render : list node -> string.
Variable now : string.
Variable renderDocument :
  Generator.Format -> list Article -> Generator.Options
  -> Generator.RenderFailure + string.

Definition failure {A : Type} (status : Z) (code message : string)
  : Reply A :=
  {| httpStatus := status; response := ApiFailure code message |}.

(** The handler of [POST /convert]. *)
Definition postConvert (nowMs : Z) (forwardedFor : option string)
                       (body : option Json.value)
                       (st : ConvertRoute.limiters)
  : IO (Reply Download * ConvertRoute.limiters) :=
  let clientIp := ConvertRoute.getClientIp forwardedFor in
  let (allowed, convertLimiter) :=
    ConvertRoute.checkRateLimit nowMs clientIp
                                (ConvertRoute.convertRateLimiter st) in
  let st :=
    {| ConvertRoute.convertRateLimiter := convertLimiter;
       ConvertRoute.previewRateLimiter :=
         ConvertRoute.previewRateLimiter st |} in
  if negb allowed then
    ret (failure 429 "RATE_LIMIT"
                 "Rate limit exceeded. Please try again later.", st)
  else
    match body with
    | None => ret (failure 400 "INVALID_INPUT" "Invalid JSON body", st)
    | Some Json.JNull =>
        (* [const { urls, format, options } = body] throws a [TypeError] *)
        ret (failure 500 "NETWORK_ERROR" "An unexpected error occurred", st)
    | Some body =>
        let urls := Json.prop "urls" body in
        let format := Json.prop "format" body in
        let options := Json.prop "options" body in
        match ConvertRoute.validateUrls urls with
        | Some error => ret (failure 400 "INVALID_INPUT" error, st)
        | None =>
            let formatOf :=
              match format with
              | Some (Json.JString f) =>
                  if f =? "pdf" then Some Generator.Pdf
                  else if f =? "epub" then Some Generator.Epub
                  else None
              | _ => None
              end in
            match formatOf with
            | None =>
                ret (failure 400 "INVALID_INPUT"
                             ("format must be " ++ quote ++ "pdf" ++ quote
                              ++ " or " ++ quote ++ "epub" ++ quote), st)
            | Some fmt =>
                match titleOf options with
                | Some (Json.JString title) =>
                    if negb (Js.truthy title)
                       || negb (Js.truthy (Js.trim title)) then
                      ret (failure 400 "INVALID_INPUT"
                                   "options.title is required", st)
                    else
                      let urls :=
                        match urls with
                        | Some (Json.JArray items) =>
                            map ConvertRoute.asString items
                        | _ => []
                        end in
                      (r <- ConvertRoute.scrapeEach parseURL net load render
                              now (fun article => article) urls [] ;;
                       ret (match r with
                            | inl error =>
                                failure
                                  (ConvertRoute.getHttpStatusForError
                                     (codeName (code error)))
                                  (codeName (code error)) (message error)
                            | inr articles =>
                                let generatorOptions :=
                                  {| Generator.title := title;
                                     Generator.includeImages :=
                                       includeImagesOf options |} in
                                match Generator.generate renderDocument fmt
                                        articles generatorOptions with
                                | inl error =>
                                    failure
                                      (ConvertRoute.getHttpStatusForError
                                         (Generator.codeName
                                            (Generator.code error)))
                                      (Generator.codeName
                                         (Generator.code error))
                                      (Generator.message error)
                                | inr buffer =>
                                    let fileExtension :=
                                      match fmt with
                                      | Generator.Pdf => "pdf"
                                      | Generator.Epub => "epub"
                                      end in
                                    let filename :=
                                      ConvertRoute.sanitizeFilename title in
                                    {| httpStatus := 200;
                                       response :=
                                         ApiSuccess
                                           {| contentType :=
                                                match fmt with
                                                | Generator.Pdf =>
                                                    "application/pdf"
                                                | Generator.Epub =>
                                                    EPUB_MIME_TYPE
                                                end;
                                              contentDisposition :=
                                                ("attachment; filename="
                                                 ++ quote ++ filename ++ "."
                                                 ++ fileExtension
                                                 ++ quote)%string;
                                              contentLength :=
                                                String.length buffer;
                                              bytes := buffer |} |}
                                end
                            end, st))%io
                | _ =>
                    ret (failure 400 "INVALID_INPUT"
                                 "options.title is required", st)
                end
            end
        end
    end.

End Route.

End ConvertHandler.



(** The number of calls for [ip] that were allowed at an instant of the
    minute that starts at [s]. *)
Definition allowedIn (ip : string) (s : Z) (calls : list (Z * string))
                     (decisions : list bool) : nat :=
  List.length
    (filter (fun cd =>
               (snd (fst cd) =? ip)%string && snd cd
               && (s <=? fst (fst cd))%Z
               && (fst (fst cd)
                   <? s + ConvertRoute.RATE_LIMIT_WINDOW_MS)%Z)
            (combine calls decisions)).

(** A clock that does not go back. *)
Fixpoint nondecreasing (times : list Z) : Prop :=
  match times with
  | [] => True
  | t :: later => Forall (Z.le t) later /\ nondecreasing later
  end.

(** What a record still allows in the minute that starts at [s]. *)
Definition allowance (maxRequests s : Z) (o : option RateMap.entry) : nat :=
  match o with
  | None => 2 * Z.to_nat maxRequests
  | Some r =>
      if (RateMap.resetAt r <=? s)%Z then 2 * Z.to_nat maxRequests
      else if (RateMap.resetAt r
               <? s + ConvertRoute.RATE_LIMIT_WINDOW_MS)%Z then
        Z.to_nat (maxRequests - RateMap.count r) + Z.to_nat maxRequests
      else Z.to_nat (maxRequests - RateMap.count r)
  end.



(** An article with a date and a byline. *)
Definition datedPage : document :=
  Example.page []
    [ Example.h1 "  Title  ";
      Element "time" [("datetime", "2026-01-15T10:00:00.000Z")]
              [Text "Jan 15"];
      Example.p [Text "Body"] ].

Definition datedArticle : Article :=
  Eval vm_compute in
    match fst (scrapeArticle Example.parseURL
                 (Example.serve "https://medium.com/@user/story" "<html>"
                                Example.pngResponse)
                 (fun _ => datedPage) Example.render
                 "2026-02-07T12:00:00.000Z"
                 "https://medium.com/@user/story" []) with
    | inr a => a
    | inl _ =>
        {| url := EmptyString; title := EmptyString; subtitle := None;
           author := EmptyString; publishedDate := EmptyString;
           readingTime := None; content := EmptyString; images := [];
           tags := None |}
    end.


(* ================================================================== *)
(** * Properties *)

Ltac Zify.zify_post_hook ::= Z.to_euclidean_division_equations.

(** ** Strings *)

Lemma lowerChar_idem (c : ascii) : Js.lowerChar (Js.lowerChar c) = Js.lowerChar c.
Proof.
  destruct c as [[] [] [] [] [] [] [] []]; reflexivity.
Qed.

Lemma toLowerCase_idem (s : string) :
  Js.toLowerCase (Js.toLowerCase s) = Js.toLowerCase s.
Proof.
  induction s as [| c r IH]; simpl; [reflexivity |].
  now rewrite lowerChar_idem, IH.
Qed.

Lemma toLowerCase_app (s t : string) :
  Js.toLowerCase (s ++ t) = (Js.toLowerCase s ++ Js.toLowerCase t)%string.
Proof.
  induction s as [| c r IH]; simpl; [reflexivity | now rewrite IH].
Qed.




Lemma prefix_iff (p s : string) :
  String.prefix p s = true <-> exists r, s = (p ++ r)%string.
Proof.
  revert s; induction p as [| c p IH]; intros s.
  - destruct s; simpl; split; eauto.
  - destruct s as [| d s]; simpl.
    + split; [discriminate | intros [r Hr]; discriminate].
    + destruct (Ascii.ascii_dec c d) as [-> | Hne].
      * rewrite IH. split; intros [r Hr]; exists r; congruence.
      * split; [discriminate | intros [r Hr]; congruence].
Qed.

Lemma endsWith_iff (s p : string) :
  Js.endsWith s p = true <-> exists before, s = (before ++ p)%string.
Proof.
  induction s as [| c s IH].
  - change (Js.endsWith "" p) with (("" =? p) || false).
    rewrite orb_false_r, String.eqb_eq. split.
    + intros <-. now exists EmptyString.
    + intros [[| x b] Hb]; simpl in Hb; [auto | discriminate].
  - change (Js.endsWith (String c s) p)
      with ((String c s =? p) || Js.endsWith s p).
    rewrite orb_true_iff, String.eqb_eq, IH. split.
    + intros [<- | [b ->]]; [now exists EmptyString | now exists (String c b)].
    + intros [[| x b] Hb]; simpl in Hb; [now left |].
      right. exists b. congruence.
Qed.

Lemma includes_iff (s sub : string) :
  Js.includes s sub = true <-> Spec.occursIn sub s.
Proof.
  unfold Spec.occursIn.
  induction s as [| c s IH].
  - change (Js.includes "" sub) with (String.prefix sub "" || false).
    rewrite orb_false_r, prefix_iff. split.
    + intros [r Hr]. now exists EmptyString, r.
    + intros [[| x b] [a Ha]]; simpl in Ha; [eauto | discriminate].
  - change (Js.includes (String c s) sub)
      with (String.prefix sub (String c s) || Js.includes s sub).
    rewrite orb_true_iff, prefix_iff, IH. split.
    + intros [[r Hr] | [b [a Ha]]].
      * now exists EmptyString, r.
      * exists (String c b), a. simpl. congruence.
    + intros [[| x b] [a Ha]]; simpl in Ha.
      * left. eauto.
      * right. exists b, a. congruence.
Qed.

Lemma lastChar_app (s t : string) :
  t <> EmptyString -> lastChar (s ++ t) = lastChar t.
Proof.
  intros Ht. induction s as [| c s IH]; [reflexivity |].
  change (String c s ++ t)%string with (String c (s ++ t)%string).
  destruct (s ++ t)%string eqn:E.
  - destruct s; simpl in E; [congruence | discriminate].
  - exact IH.
Qed.

Lemma lastChar_toLowerCase (s : string) :
  lastChar (Js.toLowerCase s) = option_map Js.lowerChar (lastChar s).
Proof.
  induction s as [| c s IH]; [reflexivity |].
  destruct s as [| d s]; [reflexivity |].
  exact IH.
Qed.

(** ** URL validation *)

Lemma split_not_nil (sep : ascii) (s : string) : Js.split sep s <> [].
Proof.
  destruct s as [| c r]; simpl; [discriminate |].
  destruct (c =? sep)%char; [discriminate |].
  destruct (Js.split sep r); discriminate.
Qed.

Lemma split_join (sep : ascii) (s : string) :
  String.concat (String sep EmptyString) (Js.split sep s) = s.
Proof.
  induction s as [| c r IH]; [reflexivity |].
  simpl Js.split.
  pose proof (split_not_nil sep r) as Hne.
  destruct (Ascii.eqb_spec c sep) as [-> | Hc].
  - destruct (Js.split sep r) as [| h t]; [congruence |].
    change (String.concat (String sep "") ("" :: h :: t))
      with (String sep (String.concat (String sep "") (h :: t))).
    now rewrite IH.
  - destruct (Js.split sep r) as [| h t]; [congruence |].
    destruct t as [| h' t].
    + simpl in *. now rewrite IH.
    + change (String.concat (String sep "") (String c h :: h' :: t))
        with (String c (h ++ String sep ""
                        ++ String.concat (String sep "") (h' :: t))%string).
      now rewrite <- IH.
Qed.

Lemma allChars_lastChar (p : ascii -> bool) (s : string) :
  s <> EmptyString -> Js.allChars p s = true ->
  exists c, lastChar s = Some c /\ p c = true.
Proof.
  induction s as [| c r IH]; [congruence |].
  intros _ Hall. simpl in Hall. apply andb_true_iff in Hall as [Hc Hr].
  destruct r as [| d r]; [exists c; auto |].
  apply IH; [discriminate | exact Hr].
Qed.

Lemma isOctetText_lastChar (s : string) :
  isOctetText s = true ->
  exists c, lastChar s = Some c /\ Js.isDigit c = true.
Proof.
  unfold isOctetText. rewrite !andb_true_iff. intros [[Hall Hlen] _].
  apply allChars_lastChar; [| exact Hall].
  intros ->. discriminate.
Qed.

Lemma ipv4Match_inv (s a b c d : string) :
  ipv4Match s = Some (a, b, c, d) ->
  s = (a ++ "." ++ b ++ "." ++ c ++ "." ++ d)%string
  /\ isOctetText a = true /\ isOctetText b = true
  /\ isOctetText c = true /\ isOctetText d = true.
Proof.
  unfold ipv4Match. intros H.
  pose proof (split_join "." s) as Hj.
  destruct (Js.split "." s) as [| a' [| b' [| c' [| d' [| ? ?]]]]];
    try discriminate.
  destruct (isOctetText a') eqn:Ea; [| discriminate].
  destruct (isOctetText b') eqn:Eb; [| discriminate].
  destruct (isOctetText c') eqn:Ec; [| discriminate].
  destruct (isOctetText d') eqn:Ed; [| discriminate].
  simpl in H. injection H as <- <- <- <-.
  repeat split; auto.
Qed.

Lemma digit_not_domain_end (c : ascii) :
  Js.isDigit c = true ->
  existsb (Ascii.eqb c) ["m"; "b"; "o"; "c"; "z"]%char = false.
Proof.
  destruct c as [[] [] [] [] [] [] [] []]; vm_compute; congruence.
Qed.


Lemma lastChar_app_some (s t : string) (x : ascii) :
  lastChar t = Some x -> lastChar (s ++ t) = Some x.
Proof.
  intros H. rewrite lastChar_app; [exact H |].
  intros ->. discriminate.
Qed.

Lemma isPrivateHost_end (h : string) :
  isPrivateHost h = true -> endsLikeDomain (Js.toLowerCase h) = false.
Proof.
  unfold isPrivateHost.
  remember (Js.toLowerCase h) as lower eqn:Hl. clear Hl.
  destruct (String.eqb_spec lower "localhost") as [-> | _]; [reflexivity |].
  destruct (String.eqb_spec lower "localhost.localdomain") as [-> | _];
    [reflexivity |].
  cbn [orb].
  destruct (ipv4Match lower) as [[[[a b] c] d] |] eqn:E.
  - intros _. apply ipv4Match_inv in E as (-> & _ & _ & _ & Hd).
    apply isOctetText_lastChar in Hd as (x & Hx & Hdig).
    unfold endsLikeDomain.
    assert (lastChar (a ++ "." ++ b ++ "." ++ c ++ "." ++ d) = Some x) as ->
      by (repeat apply lastChar_app_some; exact Hx).
    now apply digit_not_domain_end.
  - destruct (String.eqb_spec lower "::1") as [-> | _]; [reflexivity |].
    destruct (String.eqb_spec lower "[::1]") as [-> | _]; [reflexivity |].
    discriminate.
Qed.

Lemma isValidDomain_iff (h : string) :
  isValidDomain h = true <-> Spec.allowListed h.
Proof.
  unfold isValidDomain, Spec.allowListed.
  rewrite existsb_exists.
  split; intros (d & Hin & H); exists d; split; auto.
  - apply orb_true_iff in H as [H | H].
    + left. now apply String.eqb_eq.
    + right. apply endsWith_iff in H as [sub ->]. now exists sub.
  - apply orb_true_iff. destruct H as [-> | [sub ->]].
    + left. apply String.eqb_refl.
    + right. apply endsWith_iff. now exists sub.
Qed.

Lemma isValidDomain_end (h : string) :
  isValidDomain h = true -> endsLikeDomain (Js.toLowerCase h) = true.
Proof.
  rewrite isValidDomain_iff. intros (d & Hin & H).
  assert (Hd : exists x, lastChar (Js.toLowerCase ("." ++ d)) = Some x
               /\ existsb (Ascii.eqb x) ["m"; "b"; "o"; "c"; "z"]%char = true
               /\ lastChar (Js.toLowerCase d) = Some x).
  { simpl in Hin.
    repeat (destruct Hin as [<- | Hin]; [eexists; repeat split; reflexivity |]).
    contradiction. }
  destruct Hd as (x & Hx & Hm & Hx').
  unfold endsLikeDomain.
  destruct H as [-> | [sub ->]].
  - now rewrite Hx'.
  - rewrite toLowerCase_app, (lastChar_app_some _ _ Hx). exact Hm.
Qed.

Lemma isValidDomain_not_private (h : string) :
  isValidDomain h = true -> isPrivateHost h = false.
Proof.
  intros Hv. apply isValidDomain_end in Hv.
  destruct (isPrivateHost h) eqn:E; [| reflexivity].
  apply isPrivateHost_end in E. congruence.
Qed.

Lemma octet_inv (s : string) (n : N) :
  Spec.octet s = Some n ->
  isOctetText s = true /\ Js.numberOfDigits s = n /\ (n <= 255)%N.
Proof.
  unfold Spec.octet.
  destruct (isOctetText s); [| discriminate].
  destruct (N.leb_spec (Js.numberOfDigits s) 255); [| discriminate].
  simpl. intros [= <-]. auto.
Qed.

Lemma inBlock_privateOctets (a b c d : N) (block : (N * N * N * N) * N) :
  (a <= 255)%N -> (b <= 255)%N -> (c <= 255)%N -> (d <= 255)%N ->
  In block Spec.privateBlocks ->
  Spec.inBlock (Spec.ipv4Value (a, b, c, d)) block = true ->
  privateOctets a b = true.
Proof.
  intros Ha Hb Hc Hd Hin H.
  unfold privateOctets.
  simpl in Hin.
  repeat (destruct Hin as [<- | Hin]);
    try contradiction;
    unfold Spec.inBlock, Spec.ipv4Value in H;
    apply N.eqb_eq in H;
    rewrite !N.shiftr_div_pow2, !N.shiftl_mul_pow2 in H;
    cbn in H;
    repeat rewrite orb_true_iff; repeat rewrite andb_true_iff;
    repeat rewrite N.eqb_eq; repeat rewrite N.leb_le; lia.
Qed.

Lemma isPrivateHost_octets (lower : string) :
  isPrivateHost lower =
  (Js.toLowerCase lower =? "localhost")
  || (Js.toLowerCase lower =? "localhost.localdomain")
  || match ipv4Match (Js.toLowerCase lower) with
     | Some (a, b, _, _) =>
         privateOctets (Js.numberOfDigits a) (Js.numberOfDigits b)
     | None => false
     end
  || (Js.toLowerCase lower =? "::1") || (Js.toLowerCase lower =? "[::1]").
Proof.
  unfold isPrivateHost, privateOctets.
  destruct (Js.toLowerCase lower =? "localhost"); [reflexivity |].
  destruct (Js.toLowerCase lower =? "localhost.localdomain"); [reflexivity |].
  cbn [orb].
  destruct (ipv4Match (Js.toLowerCase lower)) as [[[[a b] c] d] |].
  - destruct (Js.numberOfDigits a =? 127)%N; [reflexivity |].
    destruct (Js.numberOfDigits a =? 10)%N; [reflexivity |].
    cbn [orb].
    destruct ((Js.numberOfDigits a =? 172)
              && (16 <=? Js.numberOfDigits b)
              && (Js.numberOfDigits b <=? 31))%N; [reflexivity |].
    destruct ((Js.numberOfDigits a =? 192)
              && (Js.numberOfDigits b =? 168))%N; [reflexivity |].
    destruct ((Js.numberOfDigits a =? 169)
              && (Js.numberOfDigits b =? 254))%N; [reflexivity |].
    cbn [orb].
    destruct (Js.numberOfDigits a =? 0)%N; [reflexivity |].
    cbn [orb].
    destruct (Js.toLowerCase lower =? "::1"); [reflexivity |].
    destruct (Js.toLowerCase lower =? "[::1]"); reflexivity.
  - cbn [orb].
    destruct (Js.toLowerCase lower =? "::1"); [reflexivity |].
    destruct (Js.toLowerCase lower =? "[::1]"); reflexivity.
Qed.

Lemma privateHost_isPrivateHost (h : string) :
  Spec.privateHost h -> isPrivateHost (Js.toLowerCase h) = true.
Proof.
  unfold Spec.privateHost.
  rewrite isPrivateHost_octets, toLowerCase_idem.
  intros [-> | [-> | [(addr & block & Hlit & Hin & Hblk) | [-> | ->]]]];
    try reflexivity.
  destruct addr as [[[a b] c] d].
  unfold Spec.ipv4Literal in Hlit. unfold ipv4Match.
  destruct (Js.split "." (Js.toLowerCase h))
    as [| a' [| b' [| c' [| d' [| ? ?]]]]]; try discriminate.
  destruct (Spec.octet a') as [a0 |] eqn:Ea; [| discriminate].
  destruct (Spec.octet b') as [b0 |] eqn:Eb; [| discriminate].
  destruct (Spec.octet c') as [c0 |] eqn:Ec; [| discriminate].
  destruct (Spec.octet d') as [d0 |] eqn:Ed; [| discriminate].
  injection Hlit as -> -> -> ->.
  apply octet_inv in Ea as (-> & <- & Ha), Eb as (-> & <- & Hb),
                     Ec as (-> & Hc' & Hc), Ed as (-> & Hd' & Hd).
  cbn [andb].
  rewrite (inBlock_privateOctets Ha Hb Hc Hd Hin Hblk).
  now rewrite !orb_true_r.
Qed.

(** The hostnames that section 8 of the specification lists are private. *)
Lemma listed_hosts_private :
  Forall Spec.privateHost
         [ "localhost"; "127.0.0.1"; "10.0.0.1"; "172.16.0.1";
           "192.168.1.1"; "169.254.1.1"; "::1" ].
Proof.
  assert (Hblock : forall h addr block,
             Spec.ipv4Literal (Js.toLowerCase h) = Some addr ->
             In block Spec.privateBlocks ->
             Spec.inBlock (Spec.ipv4Value addr) block = true ->
             Spec.privateHost h).
  { intros h addr block H1 H2 H3. right; right; left. eauto. }
  repeat match goal with
         | |- Forall _ (_ :: _) => apply Forall_cons
         | |- Forall _ [] => apply Forall_nil
         end.
  - now left.
  - apply Hblock with (addr := (127, 0, 0, 1)%N)
                      (block := ((127, 0, 0, 0), 8)%N);
      [reflexivity | simpl; tauto | reflexivity].
  - apply Hblock with (addr := (10, 0, 0, 1)%N)
                      (block := ((10, 0, 0, 0), 8)%N);
      [reflexivity | simpl; tauto | reflexivity].
  - apply Hblock with (addr := (172, 16, 0, 1)%N)
                      (block := ((172, 16, 0, 0), 12)%N);
      [reflexivity | simpl; tauto | reflexivity].
  - apply Hblock with (addr := (192, 168, 1, 1)%N)
                      (block := ((192, 168, 0, 0), 16)%N);
      [reflexivity | simpl; tauto | reflexivity].
  - apply Hblock with (addr := (169, 254, 1, 1)%N)
                      (block := ((169, 254, 0, 0), 16)%N);
      [reflexivity | simpl; tauto | reflexivity].
  - right; right; right. now left.
Qed.

Section UrlValidationFacts.

Variable parseURL : string -> option URL.

Lemma validateMediumUrl_code (url : string) (e : ScraperError) :
  validateMediumUrl parseURL url = inl e -> code e = INVALID_URL.
Proof.
  unfold validateMediumUrl.
  destruct (parseURL url) as [parsed |]; [| now intros [= <-]].
  destruct (isPrivateHost _); [now intros [= <-] |].
  destruct (negb _); [now intros [= <-] |].
  destruct (negb _); [now intros [= <-] | discriminate].
Qed.

Lemma validateMediumUrl_passes_iff (url : string) :
  validateMediumUrl parseURL url = inr tt <->
  exists parsed,
    parseURL url = Some parsed
    /\ protocol parsed = "https:"
    /\ isValidDomain (Js.toLowerCase (hostname parsed)) = true.
Proof.
  unfold validateMediumUrl.
  destruct (parseURL url) as [parsed |].
  - destruct (isPrivateHost _) eqn:Ep.
    + split; [discriminate |].
      intros (q & [= <-] & _ & Hv).
      apply isValidDomain_not_private in Hv. congruence.
    + destruct (String.eqb_spec (protocol parsed) "https:") as [Hs | Hs];
        cbn [negb].
      * destruct (isValidDomain _) eqn:Ev; cbn [negb].
        -- split; [eauto | reflexivity].
        -- split; [discriminate |].
           intros (q & [= <-] & _ & Hv). congruence.
      * split; [discriminate |].
        intros (q & [= <-] & Hq & _). congruence.
  - split; [discriminate | intros (q & Hq & _); discriminate].
Qed.

(** C3.  Validation fails, always with [INVALID_URL], exactly when the
    URL is malformed, or its hostname (compared without regard to case)
    is [localhost], [localhost.localdomain], an IPv4 literal in one of
    the private blocks or the IPv6 loopback, or the scheme is not
    [https], or the hostname neither equals nor is a subdomain of an
    allow-list entry.  Private hosts are rejected whatever the scheme,
    and an [https] URL on an allow-listed host passes. *)
Theorem validateMediumUrl_rejects_iff (url : string) :
  (forall e, validateMediumUrl parseURL url = inl e -> code e = INVALID_URL)
  /\ ((exists e, validateMediumUrl parseURL url = inl e) <->
      (parseURL url = None
       \/ exists parsed,
            parseURL url = Some parsed
            /\ (Spec.privateHost (hostname parsed)
                \/ protocol parsed <> "https:"
                \/ ~ Spec.allowListed (Js.toLowerCase (hostname parsed)))))
  /\ (forall parsed,
        parseURL url = Some parsed ->
        Spec.privateHost (hostname parsed) ->
        exists e, validateMediumUrl parseURL url = inl e)
  /\ (forall parsed,
        parseURL url = Some parsed ->
        protocol parsed = "https:" ->
        Spec.allowListed (Js.toLowerCase (hostname parsed)) ->
        validateMediumUrl parseURL url = inr tt).
Proof.
  assert (Hfail : forall parsed,
             parseURL url = Some parsed ->
             Spec.privateHost (hostname parsed) ->
             exists e, validateMediumUrl parseURL url = inl e).
  { intros parsed Hp Hpriv. unfold validateMediumUrl. rewrite Hp.
    rewrite (privateHost_isPrivateHost Hpriv). eauto. }
  assert (Hpass : forall parsed,
             parseURL url = Some parsed ->
             protocol parsed = "https:" ->
             Spec.allowListed (Js.toLowerCase (hostname parsed)) ->
             validateMediumUrl parseURL url = inr tt).
  { intros parsed Hp Hs Ha. apply validateMediumUrl_passes_iff.
    exists parsed. repeat split; auto. now apply isValidDomain_iff. }
  split; [exact (validateMediumUrl_code url) |].
  split; [| split; assumption].
  split.
  - intros [e He].
    destruct (parseURL url) as [parsed |] eqn:Hp; [right | now left].
    exists parsed. split; [reflexivity |].
    destruct (String.eqb_spec (protocol parsed) "https:") as [Hs | Hs];
      [| now right; left].
    right; right. intros Ha.
    rewrite (Hpass parsed eq_refl Hs Ha) in He. discriminate.
  - intros [Hnone | (parsed & Hp & [Hpriv | [Hs | Ha]])].
    + unfold validateMediumUrl. rewrite Hnone. eauto.
    + eauto.
    + destruct (validateMediumUrl parseURL url) as [e | []] eqn:E;
        [eauto |].
      apply validateMediumUrl_passes_iff in E as (q & Hq & Hs' & _).
      congruence.
    + destruct (validateMediumUrl parseURL url) as [e | []] eqn:E;
        [eauto |].
      apply validateMediumUrl_passes_iff in E as (q & Hq & _ & Hv).
      apply isValidDomain_iff in Hv. congruence.
Qed.

End UrlValidationFacts.

(** An [https] URL on [medium.com] passes; the loopback address is rejected
    under [http] and under [https]. *)
Lemma validateMediumUrl_rejects_iff_witness :
  validateMediumUrl Example.parseURL "https://medium.com/@user/article-123"
  = inr tt
  /\ (exists e, validateMediumUrl Example.parseURL "http://127.0.0.1/a"
                = inl e)
  /\ (exists e, validateMediumUrl Example.parseURL "https://127.0.0.1/a"
                = inl e).
Proof.
  split; [| split].
  - apply (proj2 (proj2 (proj2
             (validateMediumUrl_rejects_iff Example.parseURL
                "https://medium.com/@user/article-123"))))
      with (parsed := {| protocol := "https:"; hostname := "medium.com" |}).
    + reflexivity.
    + reflexivity.
    + exists "medium.com". split; [left; reflexivity | left; reflexivity].
  - apply (proj1 (proj2 (proj2
             (validateMediumUrl_rejects_iff Example.parseURL
                "http://127.0.0.1/a"))))
      with (parsed := {| protocol := "http:"; hostname := "127.0.0.1" |}).
    + reflexivity.
    + right; right; left.
      exists (127, 0, 0, 1)%N, ((127, 0, 0, 0), 8)%N.
      repeat split; [left; reflexivity].
  - apply (proj1 (proj2 (proj2
             (validateMediumUrl_rejects_iff Example.parseURL
                "https://127.0.0.1/a"))))
      with (parsed := {| protocol := "https:"; hostname := "127.0.0.1" |}).
    + reflexivity.
    + right; right; left.
      exists (127, 0, 0, 1)%N, ((127, 0, 0, 0), 8)%N.
      repeat split; [left; reflexivity].
Defined.

(** ** The page fetch *)

Section FetchFacts.

Variable net : nat -> string -> FetchOutcome.

Lemma fetchHtml_log (url : string) (log : list string) :
  snd (fetchHtml net url log) = log ++ [url].
Proof. reflexivity. Qed.

Lemma fetchHtml_unfold (url : string) (log : list string) :
  fst (fetchHtml net url log) =
  match net (List.length log) url with
  | Rejected name =>
      if name =? "AbortError" then throw TIMEOUT (ERROR_MESSAGES TIMEOUT)
      else throw NETWORK_ERROR (ERROR_MESSAGES NETWORK_ERROR)
  | Resolved response =>
      if (status response =? 404)%Z then
        throw NOT_FOUND (ERROR_MESSAGES NOT_FOUND)
      else if negb (ok response) then
        throw NETWORK_ERROR (ERROR_MESSAGES NETWORK_ERROR)
      else match body response with
           | inr text => inr text
           | inl name =>
               if name =? "AbortError" then
                 throw TIMEOUT (ERROR_MESSAGES TIMEOUT)
               else throw NETWORK_ERROR (ERROR_MESSAGES NETWORK_ERROR)
           end
  end.
Proof.
  unfold fetchHtml, fetchHtmlTry, fetch, bind, ret. cbn [fst].
  destruct (net (List.length log) url) as [name | response];
    [reflexivity |].
  destruct (status response =? 404)%Z; [reflexivity |].
  destruct (negb (ok response)); [reflexivity |].
  destruct (body response); reflexivity.
Qed.

(** C7.  One request is made, and its outcome decides the result: status
    404 gives [NOT_FOUND]; any other status outside 200..299 gives
    [NETWORK_ERROR]; a request aborted by the timer gives [TIMEOUT]; any
    other failure of the request or of reading the body gives
    [NETWORK_ERROR]; a success status gives the body text.  No other
    error code arises. *)
Theorem fetchHtml_outcome_mapping (url : string) (log : list string) :
  let outcome := net (List.length log) url in
  let r := fst (fetchHtml net url log) in
  snd (fetchHtml net url log) = log ++ [url]
  /\ (forall response,
        outcome = Resolved response -> status response = 404%Z ->
        r = throw NOT_FOUND (ERROR_MESSAGES NOT_FOUND))
  /\ (forall response,
        outcome = Resolved response -> status response <> 404%Z ->
        ok response = false ->
        r = throw NETWORK_ERROR (ERROR_MESSAGES NETWORK_ERROR))
  /\ (outcome = Rejected "AbortError" ->
      r = throw TIMEOUT (ERROR_MESSAGES TIMEOUT))
  /\ (forall name,
        outcome = Rejected name -> name <> "AbortError" ->
        r = throw NETWORK_ERROR (ERROR_MESSAGES NETWORK_ERROR))
  /\ (forall response name,
        outcome = Resolved response -> ok response = true ->
        body response = inl name -> name <> "AbortError" ->
        r = throw NETWORK_ERROR (ERROR_MESSAGES NETWORK_ERROR))
  /\ (forall response text,
        outcome = Resolved response -> ok response = true ->
        body response = inr text ->
        r = inr text)
  /\ (forall e, r = inl e ->
        code e = NOT_FOUND \/ code e = NETWORK_ERROR \/ code e = TIMEOUT).
Proof.
  intros outcome r. subst r. rewrite fetchHtml_unfold. fold outcome.
  split; [reflexivity |].
  assert (Hok404 : forall response,
             ok response = true -> (status response =? 404)%Z = false).
  { intros response Hok. unfold ok in Hok. lia. }
  repeat split.
  - intros response -> H. apply Z.eqb_eq in H. now rewrite H.
  - intros response -> H Hok. apply Z.eqb_neq in H. now rewrite H, Hok.
  - now intros ->.
  - intros name -> H. apply String.eqb_neq in H. now rewrite H.
  - intros response name -> Hok Hb H. apply String.eqb_neq in H.
    now rewrite (Hok404 _ Hok), Hok, Hb, H.
  - intros response text -> Hok Hb.
    now rewrite (Hok404 _ Hok), Hok, Hb.
  - intros e.
    destruct outcome as [name | response].
    + destruct (name =? "AbortError"); intros [= <-]; auto.
    + destruct (status response =? 404)%Z; [intros [= <-]; auto |].
      destruct (negb (ok response)); [intros [= <-]; auto |].
      destruct (body response) as [name | text]; [| discriminate].
      destruct (name =? "AbortError"); intros [= <-]; auto.
Qed.

End FetchFacts.

(** A page that answers 404, and a request that the timer aborts. *)
Lemma fetchHtml_outcome_mapping_witness :
  fst (fetchHtml
         (fun _ _ => Resolved {| status := 404; headers := [];
                                 body := inr EmptyString |})
         "https://medium.com/a" [])
  = throw NOT_FOUND (ERROR_MESSAGES NOT_FOUND)
  /\ fst (fetchHtml (fun _ _ => Rejected "AbortError")
                    "https://medium.com/a" [])
     = throw TIMEOUT (ERROR_MESSAGES TIMEOUT).
Proof.
  split.
  - apply (proj1 (proj2
             (fetchHtml_outcome_mapping
                (fun _ _ => Resolved {| status := 404; headers := [];
                                        body := inr EmptyString |})
                "https://medium.com/a" [])))
      with (response := {| status := 404; headers := [];
                           body := inr EmptyString |});
      reflexivity.
  - apply (proj1 (proj2 (proj2 (proj2
             (fetchHtml_outcome_mapping (fun _ _ => Rejected "AbortError")
                "https://medium.com/a" []))))).
    reflexivity.
Defined.

(** ** The paywall check *)

Lemma select_nonempty_iff (doc : document) (sel : selector) :
  (0 <? List.length (select doc sel))%nat = true <->
  exists e, In e (select doc sel).
Proof.
  destruct (select doc sel) as [| e l]; simpl.
  - split; [discriminate | intros [e []]].
  - split; [eauto | reflexivity].
Qed.

(** C6, as the code has it.  The check fails, always with [PAYWALL],
    exactly when (a) some paywall-marker selector has a match, or (b) the
    lower-cased text of [body] - the data of every text node below it,
    those of scripts and styles too - contains one of the two phrases and
    the text of all the [article] elements of the page, taken together
    and trimmed, is shorter than 500 characters; otherwise it passes. *)
Theorem checkPaywall_iff (doc : document) :
  let bodyText :=
    Js.toLowerCase (textOf (map elem (select doc (tag "body")))) in
  let articleContent :=
    Js.trim (textOf (map elem (select doc (tag "article")))) in
  let marker :=
    exists selector e,
      In selector CSS_SELECTORS.paywall /\ In e (select doc selector) in
  let teaser :=
    (Spec.occursIn "member-only story" bodyText
     \/ Spec.occursIn "become a member" bodyText)
    /\ String.length articleContent < 500 in
  (forall e, checkPaywall doc = inl e -> code e = PAYWALL)
  /\ ((exists e, checkPaywall doc = inl e) <-> marker \/ teaser)
  /\ (checkPaywall doc = inr tt <-> ~ (marker \/ teaser)).
Proof.
  intros bodyText articleContent marker teaser.
  assert (Hmarker :
            existsb (fun selector =>
                       (0 <? List.length (select doc selector))%nat)
                    CSS_SELECTORS.paywall = true <-> marker).
  { unfold marker. rewrite existsb_exists. split.
    - intros (s & Hin & H). apply select_nonempty_iff in H as [e He]. eauto.
    - intros (s & e & Hin & He). exists s. split; [auto |].
      apply select_nonempty_iff. eauto. }
  assert (Hteaser :
            (Js.includes bodyText "member-only story"
             || Js.includes bodyText "become a member")
            && (String.length articleContent <? 500)%nat = true <-> teaser).
  { unfold teaser.
    rewrite andb_true_iff, orb_true_iff, !includes_iff, Nat.ltb_lt.
    reflexivity. }
  unfold checkPaywall. fold bodyText. fold articleContent.
  destruct (existsb _ CSS_SELECTORS.paywall) eqn:Em.
  - split; [now intros e [= <-] |].
    split.
    + split; [intros _; left; now apply Hmarker |].
      intros _. eexists. reflexivity.
    + split; [discriminate |]. intros H. exfalso. apply H. left.
      now apply Hmarker.
  - assert (Hnm : ~ marker) by (rewrite <- Hmarker; discriminate).
    destruct (Js.includes bodyText "member-only story"
              || Js.includes bodyText "become a member") eqn:Ep;
      [destruct (String.length articleContent <? 500)%nat eqn:El |];
      cbn [andb] in Hteaser.
    + split; [now intros e [= <-] |].
      split.
      * split; [intros _; right; now apply Hteaser |].
        intros _. eexists. reflexivity.
      * split; [discriminate |]. intros H. exfalso. apply H. right.
        now apply Hteaser.
    + assert (Hnt : ~ teaser) by (rewrite <- Hteaser; discriminate).
      split; [discriminate |].
      split; [split; [intros [e He]; discriminate | tauto] |].
      split; [tauto | reflexivity].
    + assert (Hnt : ~ teaser) by (rewrite <- Hteaser; discriminate).
      split; [discriminate |].
      split; [split; [intros [e He]; discriminate | tauto] |].
      split; [tauto | reflexivity].
Qed.

(** A marker selector that matches, as in the repository's paywall test. *)
Lemma checkPaywall_iff_witness :
  exists e,
    checkPaywall
      [ Element "html" []
          [ Element "body" []
              [ Element "div" [("data-testid", "paywall")]
                        [Text "Please subscribe"];
                Element "article" [] [Example.h1 "Title"] ] ] ]
    = inl e.
Proof.
  apply (proj2 (proj1 (proj2 (checkPaywall_iff _)))).
  left. eexists. eexists. split; [left; reflexivity |].
  left. reflexivity.
Defined.

(** C6 as stated fails, both ways.  On a page that has the phrase in a
    script only, and a short article, nothing that a reader sees contains
    a phrase, and the check fails with [PAYWALL]: the text of [body]
    includes the text of scripts.  On a page that shows the phrase and has
    two [article] elements of 250 characters each, the article container
    is shorter than 500 characters whichever of the two it is, and the
    check passes: the text of all [article] elements is taken together. *)
Lemma checkPaywall_not_visible_text :
  (Spec.paywalled scriptPhrasePage = false
   /\ Js.includes (Js.toLowerCase (Spec.visibleTextOf scriptPhrasePage))
                   "become a member" = false
   /\ checkPaywall scriptPhrasePage = throw PAYWALL (ERROR_MESSAGES PAYWALL))
  /\ (Spec.paywalled twoArticlesPage = true
      /\ Js.includes (Js.toLowerCase (Spec.visibleTextOf twoArticlesPage))
                      "member-only story" = true
      /\ map (fun e => String.length (Js.trim (text (elem e))))
             (select twoArticlesPage (tag "article")) = [250; 250]
      /\ checkPaywall twoArticlesPage = inr tt).
Proof. repeat split; vm_compute; reflexivity. Qed.

(** ** Image download *)


Lemma declaredTooLarge_iff (contentLength : option string) :
  declaredTooLarge contentLength = true <->
  exists cl n,
    contentLength = Some cl /\ Js.parseInt cl = Some n
    /\ (n > MAX_IMAGE_SIZE_BYTES)%Z.
Proof.
  unfold declaredTooLarge.
  destruct contentLength as [cl |].
  - destruct (Js.parseInt cl) as [n |] eqn:Ep.
    + rewrite andb_true_iff. split.
      * intros [_ H]. exists cl, n. repeat split; auto. lia.
      * intros (cl' & n' & [= <-] & Hp & Hn).
        rewrite Ep in Hp. injection Hp as <-.
        split; [| lia].
        destruct cl; [discriminate | reflexivity].
    + rewrite andb_false_r. split; [discriminate |].
      intros (cl' & n' & [= <-] & Hp & _). congruence.
  - split; [discriminate | intros (cl & n & H & _); discriminate].
Qed.

(** The last two steps of a download, shared by the branches on the
    content type: the declared size, then the body. *)
Ltac download_tail r :=
  let Ed := fresh "Ed" in
  let Eb := fresh "Eb" in
  destruct (declaredTooLarge (headersGet r "content-length")) eqn:Ed;
  [ intros _;
    apply declaredTooLarge_iff in Ed as (?cl & ?n & ? & ? & ?);
    eapply Spec.fails_content_length; eauto
  | destruct (body r) as [?name | ?bytes] eqn:Eb;
    [ intros _; eapply Spec.fails_body_read; eauto
    | match goal with
      | |- context [(?x >? ?y)%Z] =>
          destruct (Z.gtb_spec x y); [| discriminate]
      end;
      intros _; eapply Spec.fails_body_size; eauto; lia ] ].

(** A download gives no data URI exactly when it fails in one of the ways
    the specification lists. *)
Lemma imageOfOutcome_None_iff (outcome : FetchOutcome) :
  imageOfOutcome outcome = None <-> Spec.downloadFails outcome.
Proof.
  split.
  - destruct outcome as [name | r]; [intros _; constructor |].
    unfold imageOfOutcome.
    destruct (ok r) eqn:Eok; cbn [negb]; [| intros _; now constructor].
    destruct (headersGet r "content-type") as [ct |] eqn:Ect.
    + unfold Js.orElse, Js.truthyOpt, Js.truthy.
      destruct (String.eqb_spec ct "") as [-> | Hne]; cbn [negb].
      * change (negb (Js.startsWith "image/jpeg" "image/")) with false.
        cbv iota. download_tail r.
      * destruct (Js.startsWith ct "image/") eqn:Es; cbn [negb];
          [download_tail r |].
        intros _. eapply Spec.fails_content_type; eauto.
    + unfold Js.orElse, Js.truthyOpt.
      change (negb (Js.startsWith "image/jpeg" "image/")) with false.
      cbv iota. download_tail r.
  - intros H. destruct H as [name | r Hok | r ct Hct Hne Hs
                             | r cl n Hcl Hp Hn | r bytes Hb Hn | r name Hb];
      unfold imageOfOutcome; try reflexivity.
    + now rewrite Hok.
    + destruct (negb (ok r)); [reflexivity |].
      rewrite Hct. unfold Js.orElse, Js.truthyOpt, Js.truthy.
      apply String.eqb_neq in Hne. rewrite Hne. cbn [negb].
      now rewrite Hs.
    + destruct (negb (ok r)); [reflexivity |].
      destruct (negb (Js.startsWith _ "image/")); [reflexivity |].
      assert (declaredTooLarge (headersGet r "content-length") = true) as ->
        by (apply declaredTooLarge_iff; eauto).
      reflexivity.
    + destruct (negb (ok r)); [reflexivity |].
      destruct (negb (Js.startsWith _ "image/")); [reflexivity |].
      destruct (declaredTooLarge _); [reflexivity |].
      rewrite Hb.
      destruct (Z.gtb_spec (Z.of_nat (String.length bytes))
                           MAX_IMAGE_SIZE_BYTES); [reflexivity | lia].
    + destruct (negb (ok r)); [reflexivity |].
      destruct (negb (Js.startsWith _ "image/")); [reflexivity |].
      destruct (declaredTooLarge _); [reflexivity |].
      now rewrite Hb.
Qed.

Section DownloadFacts.

Variable net : nat -> string -> FetchOutcome.

Lemma mapIO_download (l : list ImageData.t) (log : list string) :
  mapIO (fun d =>
           (base64 <- downloadImage net (ImageData.url d) ;;
            ret {| originalUrl := ImageData.url d;
                   base64 := base64;
                   alt := ImageData.alt d |})%io)
        l log
  = (imagesFrom net (List.length log) l, log ++ map ImageData.url l).
Proof.
  revert log. induction l as [| d r IH]; intros log.
  - simpl. unfold ret. now rewrite app_nil_r.
  - cbn [mapIO imagesFrom map].
    unfold bind at 1. unfold bind at 1.
    unfold downloadImage at 1. unfold bind at 1. unfold fetch at 1.
    unfold ret at 1. unfold ret at 1. unfold bind at 1.
    rewrite IH. unfold ret.
    rewrite length_app, Nat.add_1_r, <- app_assoc. reflexivity.
Qed.

Lemma downloadAllImages_unfold (imageData : list ImageData.t)
                               (log : list string) :
  downloadAllImages net imageData log
  = (imagesFrom net (List.length log)
                (firstn MAX_IMAGES_PER_ARTICLE imageData),
     log ++ map ImageData.url (firstn MAX_IMAGES_PER_ARTICLE imageData)).
Proof. unfold downloadAllImages. apply mapIO_download. Qed.

Lemma imagesFrom_length (k : nat) (l : list ImageData.t) :
  List.length (imagesFrom net k l) = List.length l.
Proof.
  revert k. induction l as [| d r IH]; intros k; simpl; auto.
Qed.

Lemma imagesFrom_nth (k i : nat) (l : list ImageData.t) (d : ImageData.t) :
  nth_error l i = Some d ->
  nth_error (imagesFrom net k l) i
  = Some {| originalUrl := ImageData.url d;
            base64 := imageOfOutcome (net (k + i) (ImageData.url d));
            alt := ImageData.alt d |}.
Proof.
  revert k i. induction l as [| x r IH]; intros k i H.
  - destruct i; discriminate.
  - destruct i as [| i]; simpl in *.
    + injection H as ->. now rewrite Nat.add_0_r.
    + rewrite (IH (S k) i H). now rewrite Nat.add_succ_r.
Qed.

Lemma nth_error_firstn_lt {A : Type} (n i : nat) (l : list A) :
  i < n -> nth_error (firstn n l) i = nth_error l i.
Proof.
  revert i l. induction n as [| n IH]; intros i l Hi; [lia |].
  destruct l as [| x l]; [now destruct i |].
  destruct i as [| i]; [reflexivity |].
  simpl. apply IH. lia.
Qed.

(** C5.  For [n] candidates the result has [min 50 n] entries, in the
    order of the input; entry [i] carries the [i]-th candidate's url and
    alt text, and the data URI that its own request yields; when that
    request fails in any of the listed ways the entry is still there,
    with no data URI.  Sixty candidates give fifty entries. *)
Theorem downloadAllImages_entries (imageData : list ImageData.t)
                                  (log : list string) :
  let results := fst (downloadAllImages net imageData log) in
  List.length results = Nat.min 50 (List.length imageData)
  /\ (forall i d,
        i < 50 -> nth_error imageData i = Some d ->
        let outcome := net (List.length log + i) (ImageData.url d) in
        nth_error results i
        = Some {| originalUrl := ImageData.url d;
                  base64 := imageOfOutcome outcome;
                  alt := ImageData.alt d |}
        /\ (Spec.downloadFails outcome ->
            nth_error results i
            = Some {| originalUrl := ImageData.url d;
                      base64 := None;
                      alt := ImageData.alt d |}))
  /\ (List.length imageData = 60 -> List.length results = 50).
Proof.
  intros results. subst results.
  rewrite downloadAllImages_unfold. cbn [fst].
  rewrite imagesFrom_length, length_firstn.
  unfold MAX_IMAGES_PER_ARTICLE.
  split; [reflexivity |].
  split; [| intros ->; reflexivity].
  intros i d Hi Hd. cbv zeta.
  set (outcome := net (List.length log + i) (ImageData.url d)).
  assert (Hnth : nth_error
                   (imagesFrom net (List.length log) (firstn 50 imageData)) i
                 = Some {| originalUrl := ImageData.url d;
                           base64 := imageOfOutcome outcome;
                           alt := ImageData.alt d |}).
  { apply imagesFrom_nth. now rewrite nth_error_firstn_lt. }
  split; [exact Hnth |].
  intros Hf. apply imageOfOutcome_None_iff in Hf.
  now rewrite Hnth, Hf.
Qed.

End DownloadFacts.

(** Sixty candidates give fifty entries. *)
Lemma downloadAllImages_entries_witness :
  List.length sixtyCandidates = 60
  /\ List.length
       (fst (downloadAllImages (fun _ _ => Example.pngResponse)
                               sixtyCandidates []))
     = 50.
Proof.
  split; [reflexivity |].
  apply (proj2 (proj2
           (downloadAllImages_entries (fun _ _ => Example.pngResponse)
                                      sixtyCandidates []))).
  reflexivity.
Defined.

(** ** Attributes *)

Lemma filter_filter {A : Type} (f g : A -> bool) (l : list A) :
  filter f (filter g l) = filter (fun x => g x && f x) l.
Proof.
  induction l as [| x l IH]; simpl; [reflexivity |].
  destruct (g x); simpl; [destruct (f x) |]; now rewrite IH.
Qed.

Lemma filter_all {A : Type} (f : A -> bool) (l : list A) :
  (forall x, In x l -> f x = true) -> filter f l = l.
Proof.
  induction l as [| x l IH]; simpl; intros H; [reflexivity |].
  rewrite (H x (or_introl eq_refl)), IH; auto.
Qed.

(** *** Names that stand for themselves *)

Lemma trimStart_plain (k : string) :
  Js.allChars (fun c => negb (Js.isSpace c)) k = true -> Js.trimStart k = k.
Proof.
  destruct k as [| c r]; [reflexivity |]. cbn [Js.allChars Js.trimStart].
  intros H. apply andb_prop in H as [Hc _].
  apply negb_true_iff in Hc. now rewrite Hc.
Qed.

Lemma trimEnd_plain (k : string) :
  Js.allChars (fun c => negb (Js.isSpace c)) k = true -> Js.trimEnd k = k.
Proof.
  induction k as [| c r IH]; [reflexivity |].
  cbn [Js.allChars Js.trimEnd]. intros H. apply andb_prop in H as [Hc Hr].
  apply negb_true_iff in Hc. cbv zeta. rewrite Hc. cbn [andb].
  now rewrite (IH Hr).
Qed.

Lemma splitSpaces_plain (k : string) :
  Js.allChars (fun c => negb (Js.isSpace c)) k = true ->
  Js.splitSpaces k = [k].
Proof.
  induction k as [| c r IH]; [reflexivity |].
  cbn [Js.allChars Js.splitSpaces]. intros H. apply andb_prop in H as [Hc Hr].
  apply negb_true_iff in Hc. rewrite Hc. now rewrite (IH Hr).
Qed.

(** [removeAttr] takes a plain name for that one name. *)
Lemma splitNames_plain (k : string) :
  plainName k = true -> splitNames k = [k].
Proof.
  unfold plainName, splitNames. intros H. apply andb_prop in H as [Ht Hp].
  rewrite Ht. unfold Js.trim.
  rewrite (trimStart_plain _ Hp), (trimEnd_plain _ Hp).
  now apply splitSpaces_plain.
Qed.

(** *** Removing attributes *)

Lemma without_nil (attrs : list (string * string)) : without [] attrs = attrs.
Proof. apply filter_all. reflexivity. Qed.

Lemma without_app (a b : list string) (attrs : list (string * string)) :
  without (a ++ b) attrs = without b (without a attrs).
Proof.
  unfold without. rewrite filter_filter. apply filter_ext.
  intros kv. now rewrite existsb_app, negb_orb.
Qed.

Lemma without_idem (names : list string) (attrs : list (string * string)) :
  without names (without names attrs) = without names attrs.
Proof.
  unfold without. rewrite filter_filter. apply filter_ext.
  intros kv. now destruct (negb _).
Qed.

Lemma fold_deleteAttr (names : list string) (attrs : list (string * string)) :
  fold_left (fun cur attrName => deleteAttr attrName cur) names attrs
  = without names attrs.
Proof.
  revert attrs. induction names as [| k ks IH]; intros attrs.
  - symmetry. apply without_nil.
  - cbn [fold_left]. rewrite IH. unfold without, deleteAttr.
    rewrite filter_filter. apply filter_ext.
    intros [k' v]. cbn [fst existsb]. now rewrite negb_orb.
Qed.

(** [removeAttr] deletes the attributes named by the parts of its
    argument. *)
Lemma removeAttr_without (name : string) (attrs : list (string * string)) :
  removeAttr name attrs = without (splitNames name) attrs.
Proof. apply fold_deleteAttr. Qed.

Lemma removeAttr_idem (k : string) (attrs : list (string * string)) :
  removeAttr k (removeAttr k attrs) = removeAttr k attrs.
Proof. rewrite !removeAttr_without. apply without_idem. Qed.

Lemma fold_remove (drop : string -> bool) (keys : list string)
                  (attrs : list (string * string)) :
  fold_left (fun cur k => if drop k then removeAttr k cur else cur) keys attrs
  = without (removedNames drop keys) attrs.
Proof.
  revert attrs. induction keys as [| k ks IH]; intros attrs.
  - symmetry. apply without_nil.
  - cbn [fold_left]. rewrite IH. unfold removedNames. cbn [filter].
    destruct (drop k); [| reflexivity].
    cbn [flat_map]. now rewrite without_app, removeAttr_without.
Qed.

Lemma removeTracking_eq (attr : string) (attrs : list (string * string)) :
  removeTracking attr attrs
  = if isTracking attr then removeAttr attr attrs else attrs.
Proof.
  unfold removeTracking, isTracking.
  destruct (Js.startsWith attr "data-" && negb (attr =? "data-testid"));
    destruct (Js.startsWith attr "aria-" || Js.startsWith attr "on");
    cbn [orb]; auto using removeAttr_idem.
Qed.

Lemma existsb_key (kv : string * string) (attrs : list (string * string)) :
  In kv attrs -> existsb (String.eqb (fst kv)) (map fst attrs) = true.
Proof.
  intros H. apply existsb_exists. exists (fst kv). split.
  - now apply in_map.
  - apply String.eqb_refl.
Qed.

Lemma forEachKey_remove (name : string) (drop : string -> bool)
                        (attrs : list (string * string)) :
  forEachKey name
    (fun attr cur => if drop attr then removeAttr attr cur else cur) attrs
  = if isTag name then without (removedNames drop (map fst attrs)) attrs
    else attrs.
Proof.
  unfold forEachKey. rewrite fold_remove.
  destruct (isTag name); [reflexivity | apply without_nil].
Qed.

Lemma fold_left_ext {A B : Type} (f g : A -> B -> A) (l : list B) (a : A) :
  (forall a x, f a x = g a x) -> fold_left f l a = fold_left g l a.
Proof.
  intros H. revert a. induction l as [| x l IH]; intros a; simpl;
    [reflexivity |].
  now rewrite H, IH.
Qed.

(** The first loop deletes the parts of every tracking name. *)
Lemma forEachKey_removeTracking (name : string)
                                (attrs : list (string * string)) :
  forEachKey name removeTracking attrs
  = if isTag name
    then without (removedNames isTracking (map fst attrs)) attrs
    else attrs.
Proof.
  rewrite <- forEachKey_remove. unfold forEachKey.
  apply fold_left_ext. intros a x. apply removeTracking_eq.
Qed.

(** The loop of a link or an image deletes the parts of every name that is
    not allowed. *)
Lemma forEachKey_keepOnly (name : string) (allowedAttrs : list string)
                          (attrs : list (string * string)) :
  forEachKey name (keepOnly allowedAttrs) attrs
  = if isTag name
    then without (removedNames (fun k => negb (isAllowed allowedAttrs k))
                               (map fst attrs)) attrs
    else attrs.
Proof.
  exact (forEachKey_remove name
           (fun k => negb (isAllowed allowedAttrs k)) attrs).
Qed.

Lemma getAttr_filter_keep (p : string -> bool) (k : string)
                          (attrs : list (string * string)) :
  p k = true ->
  getAttr k (filter (fun kv => p (fst kv)) attrs) = getAttr k attrs.
Proof.
  intros Hp. induction attrs as [| [k' v] l IH]; simpl; [reflexivity |].
  destruct (String.eqb_spec k' k) as [-> | Hne].
  - rewrite Hp. simpl. now rewrite String.eqb_refl.
  - destruct (p k'); simpl; [| exact IH].
    apply String.eqb_neq in Hne. now rewrite Hne.
Qed.

Lemma getAttr_filter_drop (p : string -> bool) (k : string)
                          (attrs : list (string * string)) :
  p k = false ->
  getAttr k (filter (fun kv => p (fst kv)) attrs) = None.
Proof.
  intros Hp. induction attrs as [| [k' v] l IH]; simpl; [reflexivity |].
  destruct (p k') eqn:E; [| exact IH].
  simpl. destruct (String.eqb_spec k' k) as [-> | Hne]; [congruence | exact IH].
Qed.

Lemma getAttr_filter_Some (p : string -> bool) (k v : string)
                          (attrs : list (string * string)) :
  getAttr k (filter (fun kv => p (fst kv)) attrs) = Some v ->
  getAttr k attrs = Some v.
Proof.
  destruct (p k) eqn:E.
  - now rewrite getAttr_filter_keep by exact E.
  - now rewrite getAttr_filter_drop by exact E.
Qed.

Lemma getAttr_without (k : string) (names : list string)
                      (attrs : list (string * string)) :
  getAttr k (without names attrs)
  = if existsb (String.eqb k) names then None else getAttr k attrs.
Proof.
  destruct (existsb (String.eqb k) names) eqn:E.
  - apply (getAttr_filter_drop
             (fun k0 => negb (existsb (String.eqb k0) names))).
    now rewrite E.
  - apply (getAttr_filter_keep
             (fun k0 => negb (existsb (String.eqb k0) names))).
    now rewrite E.
Qed.

Lemma getAttr_without_Some (k v : string) (names : list string)
                           (attrs : list (string * string)) :
  getAttr k (without names attrs) = Some v -> getAttr k attrs = Some v.
Proof.
  rewrite getAttr_without. now destruct (existsb _ names).
Qed.

Lemma getAttr_In (k v : string) (attrs : list (string * string)) :
  getAttr k attrs = Some v -> In k (map fst attrs).
Proof.
  induction attrs as [| [k' v'] l IH]; simpl; [discriminate |].
  destruct (String.eqb_spec k' k) as [-> | Hne]; auto.
Qed.

Lemma getAttr_setAttr (k k' v : string) (attrs : list (string * string)) :
  getAttr k (setAttr k' v attrs)
  = if k' =? k then Some v else getAttr k attrs.
Proof.
  induction attrs as [| [k0 v0] l IH]; simpl.
  - destruct (k' =? k); reflexivity.
  - destruct (String.eqb_spec k0 k') as [-> | Hne]; simpl.
    + destruct (k' =? k); reflexivity.
    + rewrite IH. destruct (String.eqb_spec k' k) as [<- | Hne'].
      * apply String.eqb_neq in Hne. now rewrite Hne.
      * reflexivity.
Qed.

Lemma getAttr_setIfTruthy_other (k k' : string) (v : option string)
                                (attrs : list (string * string)) :
  k' <> k -> getAttr k (setIfTruthy k' v attrs) = getAttr k attrs.
Proof.
  intros Hne. unfold setIfTruthy.
  destruct v as [x |]; [| reflexivity].
  destruct (Js.truthy x); [| reflexivity].
  rewrite getAttr_setAttr. apply String.eqb_neq in Hne. now rewrite Hne.
Qed.

Lemma getAttr_setIfTruthy (k k' x : string) (v : option string)
                          (attrs : list (string * string)) :
  getAttr k (setIfTruthy k' v attrs) = Some x ->
  (k' = k /\ v = Some x) \/ getAttr k attrs = Some x.
Proof.
  unfold setIfTruthy. destruct v as [y |]; [| auto].
  destruct (Js.truthy y); [| auto].
  rewrite getAttr_setAttr. destruct (String.eqb_spec k' k); [| auto].
  intros [= ->]. auto.
Qed.

Lemma keys_setAttr (k k' v : string) (attrs : list (string * string)) :
  In k (map fst (setAttr k' v attrs)) -> k = k' \/ In k (map fst attrs).
Proof.
  induction attrs as [| [k0 v0] l IH]; simpl.
  - intros [<- | []]. now left.
  - destruct (k0 =? k'); simpl.
    + intros [<- | H]; auto.
    + intros [<- | H]; auto. destruct (IH H); auto.
Qed.

Lemma keys_setIfTruthy (k k' : string) (v : option string)
                       (attrs : list (string * string)) :
  In k (map fst (setIfTruthy k' v attrs)) -> k = k' \/ In k (map fst attrs).
Proof.
  unfold setIfTruthy. destruct v as [x |]; [| auto].
  destruct (Js.truthy x); [apply keys_setAttr | auto].
Qed.

Lemma keys_filter (p : string -> bool) (k : string)
                  (attrs : list (string * string)) :
  In k (map fst (filter (fun kv => p (fst kv)) attrs)) ->
  p k = true /\ In k (map fst attrs).
Proof.
  rewrite !in_map_iff. intros ([k' v] & <- & H).
  apply filter_In in H as [Hin Hp]. split; [exact Hp |].
  exists (k', v). auto.
Qed.

Lemma keys_without (k : string) (names : list string)
                   (attrs : list (string * string)) :
  In k (map fst (without names attrs)) ->
  existsb (String.eqb k) names = false /\ In k (map fst attrs).
Proof.
  intros H.
  apply (keys_filter (fun k0 => negb (existsb (String.eqb k0) names)))
    in H as [Hp Hin].
  split; [now apply negb_true_iff | exact Hin].
Qed.

(** A plain name that is to go is among the names deleted. *)
Lemma removedNames_In (drop : string -> bool) (keys : list string)
                      (k : string) :
  In k keys -> drop k = true -> plainName k = true ->
  existsb (String.eqb k) (removedNames drop keys) = true.
Proof.
  intros Hin Hd Hp. apply existsb_exists. exists k.
  split; [| apply String.eqb_refl].
  unfold removedNames. apply in_flat_map. exists k.
  split; [apply filter_In; auto |].
  rewrite (splitNames_plain _ Hp). now left.
Qed.

(** When every name is plain, the names deleted are the names that are to
    go. *)
Lemma removedNames_plain (drop : string -> bool) (keys : list string) :
  forallb plainName keys = true -> removedNames drop keys = filter drop keys.
Proof.
  unfold removedNames. induction keys as [| k ks IH]; [reflexivity |].
  cbn [forallb filter]. intros H. apply andb_prop in H as [Hk Hks].
  destruct (drop k); [| now apply IH].
  cbn [flat_map]. rewrite (splitNames_plain _ Hk), (IH Hks). reflexivity.
Qed.

Lemma existsb_filter (drop : string -> bool) (k : string)
                     (keys : list string) :
  In k keys -> existsb (String.eqb k) (filter drop keys) = drop k.
Proof.
  intros Hin. destruct (drop k) eqn:E.
  - apply existsb_exists. exists k.
    split; [apply filter_In; auto | apply String.eqb_refl].
  - destruct (existsb (String.eqb k) (filter drop keys)) eqn:Ex;
      [| reflexivity].
    apply existsb_exists in Ex as (k' & Hk' & He).
    apply String.eqb_eq in He. subst k'.
    apply filter_In in Hk' as [_ Hk']. congruence.
Qed.

Lemma without_plain (drop : string -> bool)
                    (attrs : list (string * string)) :
  plainKeys attrs = true ->
  without (removedNames drop (map fst attrs)) attrs
  = filter (fun kv => negb (drop (fst kv))) attrs.
Proof.
  unfold plainKeys. intros Hp. rewrite (removedNames_plain _ _ Hp).
  unfold without. apply filter_ext_in. intros kv Hin.
  rewrite existsb_filter; [reflexivity |]. now apply in_map.
Qed.

Lemma plainKeys_filter (f : string * string -> bool)
                       (attrs : list (string * string)) :
  plainKeys attrs = true -> plainKeys (filter f attrs) = true.
Proof.
  unfold plainKeys. rewrite !forallb_forall. intros H k Hk.
  apply in_map_iff in Hk as (kv & <- & Hkv).
  apply filter_In in Hkv as [Hkv _]. apply H. now apply in_map.
Qed.

(** The three shapes of [cleanElementAttributes]. *)
Lemma cleanElementAttributes_a (attrs : list (string * string)) :
  let kept := without (removedNames isTracking (map fst attrs)) attrs in
  cleanElementAttributes "a" attrs
  = setIfTruthy "href" (getAttr "href" kept)
      (without (removedNames (fun k => negb (isAllowed ["href"; "title"] k))
                             (map fst kept)) kept).
Proof.
  intros kept. unfold cleanElementAttributes.
  rewrite forEachKey_removeTracking.
  change (isTag "a") with true. cbv iota. fold kept.
  change ("a" =? "a") with true. change ("a" =? "img") with false.
  cbn [andb]. cbv iota.
  now rewrite forEachKey_keepOnly.
Qed.

Lemma cleanElementAttributes_img (attrs : list (string * string)) :
  let kept := without (removedNames isTracking (map fst attrs)) attrs in
  cleanElementAttributes "img" attrs
  = setIfTruthy "alt" (getAttr "alt" kept)
      (setIfTruthy "src"
         (Js.orElse (getAttr "src" kept) (getAttr "data-src" kept))
         (without (removedNames (fun k => negb (isAllowed ["src"; "alt"] k))
                                (map fst kept)) kept)).
Proof.
  intros kept. unfold cleanElementAttributes.
  rewrite forEachKey_removeTracking.
  change (isTag "img") with true. cbv iota. fold kept.
  change ("img" =? "a") with false. change ("img" =? "img") with true.
  cbn [andb]. cbv iota.
  now rewrite forEachKey_keepOnly.
Qed.

Lemma cleanElementAttributes_other (name : string)
                                   (attrs : list (string * string)) :
  name <> "a" -> name <> "img" ->
  cleanElementAttributes name attrs
  = if isTag name
    then without (removedNames isTracking (map fst attrs)) attrs
    else attrs.
Proof.
  intros Ha Hi. unfold cleanElementAttributes.
  apply String.eqb_neq in Ha, Hi. rewrite Ha, Hi, !andb_false_r.
  apply forEachKey_removeTracking.
Qed.

(** The same, for an element whose attribute names are all plain: the
    first loop leaves the attributes that are not tracking ones, the loop
    of a link or an image those that are allowed. *)
Lemma cleanElementAttributes_a_plain (attrs : list (string * string)) :
  plainKeys attrs = true ->
  let kept := filter (fun kv => negb (isTracking (fst kv))) attrs in
  cleanElementAttributes "a" attrs
  = setIfTruthy "href" (getAttr "href" kept)
      (filter (fun kv => isAllowed ["href"; "title"] (fst kv)) kept).
Proof.
  intros Hp kept. rewrite cleanElementAttributes_a. cbv zeta.
  rewrite (without_plain isTracking attrs Hp). fold kept.
  rewrite (without_plain _ kept) by now apply plainKeys_filter.
  f_equal. apply filter_ext. intros kv. apply negb_involutive.
Qed.

Lemma cleanElementAttributes_img_plain (attrs : list (string * string)) :
  plainKeys attrs = true ->
  let kept := filter (fun kv => negb (isTracking (fst kv))) attrs in
  cleanElementAttributes "img" attrs
  = setIfTruthy "alt" (getAttr "alt" kept)
      (setIfTruthy "src"
         (Js.orElse (getAttr "src" kept) (getAttr "data-src" kept))
         (filter (fun kv => isAllowed ["src"; "alt"] (fst kv)) kept)).
Proof.
  intros Hp kept. rewrite cleanElementAttributes_img. cbv zeta.
  rewrite (without_plain isTracking attrs Hp). fold kept.
  rewrite (without_plain _ kept) by now apply plainKeys_filter.
  do 2 f_equal. apply filter_ext. intros kv. apply negb_involutive.
Qed.

Lemma cleanElementAttributes_other_plain (name : string)
                                         (attrs : list (string * string)) :
  plainKeys attrs = true -> name <> "a" -> name <> "img" ->
  cleanElementAttributes name attrs
  = if isTag name then filter (fun kv => negb (isTracking (fst kv))) attrs
    else attrs.
Proof.
  intros Hp Ha Hi. rewrite (cleanElementAttributes_other attrs Ha Hi).
  now rewrite (without_plain isTracking attrs Hp).
Qed.

(** A plain tracking name is not left by the first loop. *)
Lemma getAttr_tracking_gone (k : string) (attrs : list (string * string)) :
  isTracking k = true -> plainName k = true ->
  getAttr k (without (removedNames isTracking (map fst attrs)) attrs) = None.
Proof.
  intros Ht Hp. rewrite getAttr_without.
  destruct (existsb (String.eqb k) (removedNames isTracking (map fst attrs)))
           eqn:E; [reflexivity |].
  destruct (getAttr k attrs) as [v |] eqn:Eg; [| reflexivity].
  apply getAttr_In in Eg.
  rewrite (removedNames_In isTracking _ _ Eg Ht Hp) in E. discriminate.
Qed.

(** Cleaning invents no attribute: what an element has afterwards, it had
    before, with the same value. *)
Lemma cleanElementAttributes_sub (name k v : string)
                                 (attrs : list (string * string)) :
  getAttr k (cleanElementAttributes name attrs) = Some v ->
  getAttr k attrs = Some v.
Proof.
  destruct (String.eqb_spec name "a") as [-> | Ha].
  { rewrite cleanElementAttributes_a. cbv zeta. intros H.
    apply getAttr_setIfTruthy in H as [[<- Hv] | H].
    - now apply getAttr_without_Some in Hv.
    - now do 2 apply getAttr_without_Some in H. }
  destruct (String.eqb_spec name "img") as [-> | Hi].
  { rewrite cleanElementAttributes_img. cbv zeta. intros H.
    apply getAttr_setIfTruthy in H as [[<- Hv] | H].
    { now apply getAttr_without_Some in Hv. }
    apply getAttr_setIfTruthy in H as [[<- Hv] | H].
    - unfold Js.orElse in Hv.
      destruct (Js.truthyOpt _).
      + now apply getAttr_without_Some in Hv.
      + rewrite (@getAttr_tracking_gone "data-src") in Hv by reflexivity.
        discriminate.
    - now do 2 apply getAttr_without_Some in H. }
  rewrite (cleanElementAttributes_other attrs Ha Hi).
  destruct (isTag name); [apply getAttr_without_Some | auto].
Qed.

(** ** The published date *)

(** What the loop over [CSS_SELECTORS.publishedDate] computes: the source
    text of the [meta] selector contains [time] (in [published_time]), so
    the loop reads the [datetime] attribute of the [meta] element too, and
    never its [content] attribute. *)
Lemma extractPublishedDate_unfold (now : string) (doc : document) :
  extractPublishedDate now doc =
  let first (selector : selector) : string :=
    match select doc selector with
    | element :: _ => orEmpty (attr (elem element) "datetime")
    | [] => EmptyString
    end in
  let fromTime := first (tagWith "time" [AttrExists "datetime"]) in
  let fromMeta :=
    first (tagWith "meta" [AttrEquals "property" "article:published_time"]) in
  if Js.truthy fromTime then fromTime
  else if Js.truthy fromMeta then fromMeta
  else now.
Proof.
  unfold extractPublishedDate, CSS_SELECTORS.publishedDate.
  cbn [publishedDateLoop].
  change (Js.includes (source (tagWith "time" [AttrExists "datetime"])) "time")
    with true.
  change (Js.includes
            (source (tagWith "meta"
                       [AttrEquals "property" "article:published_time"]))
            "time")
    with true.
  cbv iota zeta.
  destruct (select doc (tagWith "time" [AttrExists "datetime"]))
    as [| e1 l1];
    destruct (select doc
                (tagWith "meta"
                   [AttrEquals "property" "article:published_time"]))
      as [| e2 l2];
    cbn [Js.truthy String.eqb negb];
    repeat match goal with
           | |- context [Js.truthy ?x] => destruct (Js.truthy x) eqn:?
           end;
    cbn [negb]; try reflexivity; try congruence.
Qed.

(** The part of C2 that holds: a [time] element whose [datetime] is not
    empty decides the date. *)
Lemma extractPublishedDate_time (now : string) (doc : document)
                                (e : located) (rest : list located)
                                (d : string) :
  select doc (tagWith "time" [AttrExists "datetime"]) = e :: rest ->
  attr (elem e) "datetime" = Some d -> d <> EmptyString ->
  extractPublishedDate now doc = d.
Proof.
  intros Hs Ha Hd. rewrite extractPublishedDate_unfold. cbv beta zeta.
  rewrite Hs, Ha.
  assert (Ht : Js.truthy d = true)
    by (unfold Js.truthy; apply String.eqb_neq in Hd; now rewrite Hd).
  unfold orEmpty, Js.orElse, Js.truthyOpt. now rewrite Ht, Ht.
Qed.

(** C2, at the failing input: the page has no [time] element and a
    [meta] element with property [article:published_time] whose content is
    [2026-01-01]; the published date is the current instant, not the
    content of the [meta] element. *)
Theorem extractMetadata_ignores_meta_content (now url : string) :
  select metaDatePage (tagWith "time" [AttrExists "datetime"]) = []
  /\ map (fun e => attr (elem e) "content")
         (select metaDatePage
            (tagWith "meta" [AttrEquals "property" "article:published_time"]))
     = [Some "2026-01-01"]
  /\ exists metadata,
       extractMetadata now metaDatePage url = inr metadata
       /\ Metadata.publishedDate metadata = now.
Proof.
  split; [reflexivity |].
  split; [reflexivity |].
  eexists. split; reflexivity.
Qed.

(** ** Lazy-loaded images *)

(** A [src] that an image has after attribute cleaning is its [src]
    before: [data-src] is removed by the first loop, before the image
    branch reads it, and is never promoted. *)
Lemma cleanElementAttributes_img_src (attrs : list (string * string))
                                     (v : string) :
  getAttr "src" (cleanElementAttributes "img" attrs) = Some v ->
  getAttr "src" attrs = Some v.
Proof. apply cleanElementAttributes_sub. Qed.

(** An image whose attribute names are plain keeps its [src] as it is. *)
Lemma cleanElementAttributes_img_src_kept (attrs : list (string * string)) :
  plainKeys attrs = true ->
  getAttr "src" (cleanElementAttributes "img" attrs) = getAttr "src" attrs.
Proof.
  intros Hp. rewrite (cleanElementAttributes_img_plain attrs Hp). cbv zeta.
  rewrite getAttr_setIfTruthy_other by discriminate.
  rewrite (getAttr_filter_drop (fun k => negb (isTracking k)) "data-src")
    by reflexivity.
  rewrite (getAttr_filter_keep (fun k => negb (isTracking k)) "src")
    by reflexivity.
  unfold Js.orElse.
  destruct (getAttr "src" attrs) as [s |] eqn:Es; cbn [Js.truthyOpt].
  - destruct (Js.truthy s) eqn:Et.
    + unfold setIfTruthy. rewrite Et, getAttr_setAttr. reflexivity.
    + cbn [setIfTruthy].
      rewrite (getAttr_filter_keep (isAllowed ["src"; "alt"]) "src")
        by reflexivity.
      rewrite (getAttr_filter_keep (fun k => negb (isTracking k)) "src")
        by reflexivity.
      exact Es.
  - cbn [setIfTruthy].
    rewrite (getAttr_filter_keep (isAllowed ["src"; "alt"]) "src")
      by reflexivity.
    rewrite (getAttr_filter_keep (fun k => negb (isTracking k)) "src")
      by reflexivity.
    exact Es.
Qed.

(** C10, at the failing input: an image with [data-src] and no [src]
    comes out of [cleanHtml] with no [src] at all. *)
Theorem cleanHtml_drops_lazy_source :
  cleanContainer lazyImagePage (contentSelectorOf lazyImagePage)
  = [ Element "article" []
        [ Example.h1 "Title";
          Example.p [ Text "Lazy";
                      Example.img [("alt", "Lazy image")] ] ] ]
  /\ extractImages lazyImagePage (contentSelectorOf lazyImagePage)
     = [ {| ImageData.url := "https://example.com/lazy.jpg";
            ImageData.alt := Some "Lazy image" |} ].
Proof. split; reflexivity. Qed.

(** ** The cleaned tree *)

Lemma deep_Element (P : string -> list (string * string) -> Prop)
                   (name : string) (attrs : list (string * string))
                   (cs : list node) :
  deep P (Element name attrs cs) <-> P name attrs /\ Forall (deep P) cs.
Proof.
  cbn [deep].
  assert (H : (fix all (l : list node) : Prop :=
                 match l with
                 | [] => True
                 | c :: r => deep P c /\ all r
                 end) cs <-> Forall (deep P) cs).
  { induction cs as [| c r IH].
    - split; auto.
    - rewrite IH. split.
      + intros [H1 H2]. now constructor.
      + intros H. inversion H; subst. auto. }
  now rewrite H.
Qed.


Lemma deep_conj (P Q : string -> list (string * string) -> Prop) (n : node) :
  deep P n -> deep Q n -> deep (fun name attrs => P name attrs /\ Q name attrs) n.
Proof.
  induction n as [d | d | name attrs cs IH] using node_ind; [auto | auto |].
  rewrite !deep_Element. intros [HP HPs] [HQ HQs]. split; [auto |].
  rewrite Forall_forall in *. auto.
Qed.

Lemma Within_deep (P : string -> list (string * string) -> Prop)
                  (root e : node) :
  Forall (deep P) (childrenOf root) -> Within root e -> deep P e.
Proof.
  intros Hroot Hw. induction Hw as [c Hc | c d Hw IH Hd].
  - rewrite Forall_forall in Hroot. auto.
  - destruct c as [x | x | name attrs cs]; simpl in Hd; try contradiction.
    apply deep_Element in IH as [_ Hcs].
    rewrite Forall_forall in Hcs. auto.
Qed.

Lemma removeMatching_deep (P : string -> list (string * string) -> Prop)
                          (sel : selector) (n : node) :
  forall anc, deep P n -> deep P (removeMatching sel anc n).
Proof.
  induction n as [d | d | name attrs cs IH] using node_ind; [auto | auto |].
  intros anc. cbn [removeMatching]. rewrite !deep_Element.
  intros [HP Hcs]. split; [exact HP |].
  apply Forall_flat_map.
  rewrite Forall_forall in *. intros c Hc.
  destruct (matches sel _ c); [constructor |].
  constructor; [| constructor]. apply IH; auto.
Qed.

Lemma removeMatching_children (P : string -> list (string * string) -> Prop)
                              (sel : selector) (anc : list node) (n : node) :
  Forall (deep P) (childrenOf n) ->
  Forall (deep P) (childrenOf (removeMatching sel anc n)).
Proof.
  destruct n as [d | d | name attrs cs]; [auto | auto |].
  intros H. cbn [removeMatching childrenOf] in *.
  apply Forall_flat_map.
  rewrite Forall_forall in *. intros c Hc.
  destruct (matches sel _ c); [constructor |].
  constructor; [| constructor]. apply removeMatching_deep; auto.
Qed.

Lemma matches_tag (t : string) (anc : list node) (name : string)
                  (attrs : list (string * string)) (cs : list node) :
  matches (tag t) anc (Element name attrs cs) = (name =? t).
Proof.
  unfold matches, tag. cbn. now rewrite !andb_true_r.
Qed.

Lemma removeMatching_tag (t : string) (n : node) :
  forall anc,
    Forall (deep (fun name _ => name <> t))
           (childrenOf (removeMatching (tag t) anc n)).
Proof.
  induction n as [d | d | name attrs cs IH] using node_ind;
    [constructor | constructor |].
  intros anc. cbn [removeMatching childrenOf].
  apply Forall_flat_map.
  rewrite Forall_forall in *. intros c Hc.
  destruct (matches (tag t) _ c) eqn:Em; [constructor |].
  constructor; [| constructor].
  specialize (IH c Hc).
  destruct c as [d | d | cname cattrs ccs]; [exact I | exact I |].
  rewrite matches_tag in Em. apply String.eqb_neq in Em.
  cbn [removeMatching]. apply deep_Element. split; [exact Em |].
  apply (IH (Element name attrs cs :: anc)).
Qed.

Lemma removeEmpty_deep (P : string -> list (string * string) -> Prop)
                       (n : node) :
  deep P n -> deep P (removeEmpty n).
Proof.
  induction n as [d | d | name attrs cs IH] using node_ind; [auto | auto |].
  cbn [removeEmpty]. rewrite !deep_Element.
  intros [HP Hcs]. split; [exact HP |].
  apply Forall_flat_map.
  rewrite Forall_forall in *. intros c Hc.
  destruct (isEmptyElement c); [constructor |].
  constructor; [| constructor]. apply IH; auto.
Qed.

Lemma removeEmpty_children (P : string -> list (string * string) -> Prop)
                           (n : node) :
  Forall (deep P) (childrenOf n) ->
  Forall (deep P) (childrenOf (removeEmpty n)).
Proof.
  destruct n as [d | d | name attrs cs]; [auto | auto |].
  cbn [removeEmpty childrenOf]. intros H.
  apply Forall_flat_map.
  rewrite Forall_forall in *. intros c Hc.
  destruct (isEmptyElement c); [constructor |].
  constructor; [| constructor]. apply removeEmpty_deep; auto.
Qed.

Lemma fold_removeMatching_children
    (P : string -> list (string * string) -> Prop)
    (sels : list selector) (n : node) :
  Forall (deep P) (childrenOf n) ->
  Forall (deep P)
         (childrenOf (fold_left (fun c selector => removeMatching selector [] c)
                                sels n)).
Proof.
  revert n. induction sels as [| s sels IH]; intros n H; [exact H |].
  cbn [fold_left]. apply IH. now apply removeMatching_children.
Qed.

Lemma fold_removeMatching_tag (t : string) (sels : list selector) (n : node) :
  In (tag t) sels ->
  Forall (deep (fun name _ => name <> t))
         (childrenOf (fold_left (fun c selector => removeMatching selector [] c)
                                sels n)).
Proof.
  revert n. induction sels as [| s sels IH]; intros n Hin; [destruct Hin |].
  cbn [fold_left]. destruct Hin as [-> | Hin].
  - apply fold_removeMatching_children. apply removeMatching_tag.
  - now apply IH.
Qed.

Lemma removeUnwantedElements_tag (t : string) (container : node) :
  In (tag t) ELEMENTS_TO_REMOVE ->
  Forall (deep (fun name _ => name <> t))
         (childrenOf (removeUnwantedElements container)).
Proof.
  intros Hin. unfold removeUnwantedElements.
  apply removeEmpty_children. now apply fold_removeMatching_tag.
Qed.

Lemma isTracking_false (k : string) :
  isTracking k = false ->
  (Js.startsWith k "data-" = true -> k = "data-testid")
  /\ Js.startsWith k "aria-" = false
  /\ Js.startsWith k "on" = false.
Proof.
  unfold isTracking. rewrite !orb_false_iff, andb_false_iff.
  intros [[Hd | Hd] [Ha Ho]]; repeat split; auto.
  - congruence.
  - intros _. apply negb_false_iff in Hd. now apply String.eqb_eq.
Qed.

Lemma isAllowed_two (a b k : string) :
  isAllowed [a; b] k = true -> k = a \/ k = b.
Proof.
  unfold isAllowed. cbn [existsb]. rewrite !orb_true_iff, !String.eqb_eq.
  intros [H | [H | H]]; [auto | auto | discriminate].
Qed.

(** The plain attribute names left on an element of type ['tag']. *)
Lemma cleanElementAttributes_keys (name : string)
                                  (attrs : list (string * string))
                                  (k : string) :
  isTag name = true ->
  In k (map fst (cleanElementAttributes name attrs)) ->
  plainName k = true ->
  isTracking k = false
  /\ (name = "a" -> k = "href" \/ k = "title")
  /\ (name = "img" -> k = "src" \/ k = "alt").
Proof.
  intros Htag Hin Hp.
  assert (Hleft : forall (drop : string -> bool) l,
             In k (map fst (without (removedNames drop (map fst l)) l)) ->
             drop k = false /\ In k (map fst l)).
  { intros drop l H. apply keys_without in H as [Hex Hl].
    split; [| exact Hl].
    destruct (drop k) eqn:Ed; [| reflexivity].
    now rewrite (removedNames_In drop _ _ Hl Ed Hp) in Hex. }
  destruct (String.eqb_spec name "a") as [-> | Ha];
    [| destruct (String.eqb_spec name "img") as [-> | Hi]].
  - rewrite cleanElementAttributes_a in Hin. cbv zeta in Hin.
    assert (H : k = "href" \/ (k = "href" \/ k = "title")
                              /\ isTracking k = false).
    { apply keys_setIfTruthy in Hin as [-> | Hin]; [now left | right].
      apply Hleft in Hin as [Hal Hin]. apply Hleft in Hin as [Hnt _].
      apply negb_false_iff in Hal.
      split; [now apply isAllowed_two | exact Hnt]. }
    destruct H as [-> | [H1 H2]].
    + repeat split; [auto | discriminate].
    + repeat split; [auto | auto | discriminate].
  - rewrite cleanElementAttributes_img in Hin. cbv zeta in Hin.
    assert (H : (k = "src" \/ k = "alt")
                /\ (isTracking k = false)).
    { apply keys_setIfTruthy in Hin as [-> | Hin]; [split; auto |].
      apply keys_setIfTruthy in Hin as [-> | Hin]; [split; auto |].
      apply Hleft in Hin as [Hal Hin]. apply Hleft in Hin as [Hnt _].
      apply negb_false_iff in Hal.
      split; [now apply isAllowed_two | exact Hnt]. }
    destruct H as [H1 H2].
    repeat split; [auto | discriminate | auto].
  - rewrite cleanElementAttributes_other in Hin by assumption.
    rewrite Htag in Hin. apply Hleft in Hin as [Hnt _].
    repeat split; [exact Hnt | congruence | congruence].
Qed.

Lemma getAttr_kept (k : string) (attrs : list (string * string)) :
  isTracking k = false ->
  getAttr k (filter (fun kv => negb (isTracking (fst kv))) attrs)
  = getAttr k attrs.
Proof.
  intros H. apply (@getAttr_filter_keep (fun k => negb (isTracking k))).
  now rewrite H.
Qed.

(** An element that is neither a link nor an image, and whose attribute
    names are plain, keeps every attribute that is not a tracking one. *)
Lemma cleanElementAttributes_other_keeps (name k : string)
                                         (attrs : list (string * string)) :
  plainKeys attrs = true ->
  name <> "a" -> name <> "img" -> isTracking k = false ->
  getAttr k (cleanElementAttributes name attrs) = getAttr k attrs.
Proof.
  intros Hp Ha Hi Hk.
  rewrite (cleanElementAttributes_other_plain attrs Hp Ha Hi).
  destruct (isTag name); [now apply getAttr_kept | reflexivity].
Qed.

(** In particular it keeps its [data-testid]. *)
Lemma cleanElementAttributes_testid (name : string)
                                    (attrs : list (string * string)) :
  plainKeys attrs = true ->
  name <> "a" -> name <> "img" ->
  getAttr "data-testid" (cleanElementAttributes name attrs)
  = getAttr "data-testid" attrs.
Proof.
  intros Hp Ha Hi. now apply cleanElementAttributes_other_keeps.
Qed.

Lemma cleanAttributesNode_deep
    (P Q : string -> list (string * string) -> Prop) (n : node) :
  (forall name attrs,
      P name attrs -> Q name (cleanElementAttributes name attrs)) ->
  deep P n -> deep Q (cleanAttributesNode n).
Proof.
  intros HPQ. induction n as [d | d | name attrs cs IH] using node_ind;
    [auto | auto |].
  cbn [cleanAttributesNode]. rewrite !deep_Element.
  intros [HP Hcs]. split; [auto |].
  apply Forall_map. rewrite Forall_forall in *. auto.
Qed.

Lemma cleanAttributes_children
    (P Q : string -> list (string * string) -> Prop) (container : node) :
  (forall name attrs,
      P name attrs -> Q name (cleanElementAttributes name attrs)) ->
  Forall (deep P) (childrenOf container) ->
  Forall (deep Q) (childrenOf (cleanAttributes container)).
Proof.
  intros HPQ. destruct container as [d | d | name attrs cs]; [auto | auto |].
  cbn [cleanAttributes childrenOf]. intros H.
  apply Forall_map. rewrite Forall_forall in *.
  intros c Hc. apply cleanAttributesNode_deep with (P := P); auto.
Qed.

Lemma childrenOf_cleanAttributesNode (n : node) :
  childrenOf (cleanAttributesNode n) = map cleanAttributesNode (childrenOf n).
Proof. destruct n; reflexivity. Qed.

Lemma childrenOf_cleanAttributes (n : node) :
  childrenOf (cleanAttributes n) = map cleanAttributesNode (childrenOf n).
Proof. destruct n; reflexivity. Qed.

Lemma Within_cleanAttributes (container e : node) :
  Within container e ->
  Within (cleanAttributes container) (cleanAttributesNode e).
Proof.
  intros H. induction H as [c Hc | c d Hw IH Hd].
  - apply within_child. rewrite childrenOf_cleanAttributes.
    now apply in_map.
  - apply within_step with (c := cleanAttributesNode c); [exact IH |].
    rewrite childrenOf_cleanAttributesNode. now apply in_map.
Qed.

Lemma cons_head {A : Type} (a b : A) (l l' : list A) :
  a :: l = b :: l' -> a = b.
Proof. now intros [= -> _]. Qed.

(** The string that [cleanHtml] returns is the serialization of the
    children of the first cleaned clone, with white space collapsed. *)
Lemma cleanHtml_serializes (render : list node -> string) (doc : document)
                           (contentSelector : selector) :
  cleanHtml render doc contentSelector
  = match cleanContainer doc contentSelector with
    | [] => EmptyString
    | first :: _ =>
        Js.trim (Js.trim (joinTags None
                            (collapseWhitespace (render (childrenOf first)))))
    end.
Proof. reflexivity. Qed.

(** C8, as the code has it.  The string that [cleanHtml] returns is the
    serialization, with its white space normalised, of the children of the
    first element that the content selector matches, cleaned.  In that
    tree, below the cleaned element: no element is named [script],
    [style], [nav] or [footer]; among the attributes with a plain name
    (not empty, no white space in it) there is no [data-*] attribute other
    than [data-testid], no [aria-*] and no [on*] attribute; among them a
    link has only [href] and [title] and an image only [src] and [alt],
    so neither has a [data-testid]; and every element that the removal
    pass leaves, that is neither a link nor an image and whose attribute
    names are all plain, keeps its [data-testid]. *)
Theorem cleanHtml_output_clean (render : list node -> string)
                               (doc : document) (contentSelector : selector)
                               (root : node) (rest : list node) :
  cleanContainer doc contentSelector = root :: rest ->
  cleanHtml render doc contentSelector
  = Js.trim (Js.trim (joinTags None
                        (collapseWhitespace (render (childrenOf root)))))
  /\ (forall name attrs cs,
        Within root (Element name attrs cs) ->
        Spec.cleanedElement name (plainAttributes attrs))
  /\ exists first others,
       select doc contentSelector = first :: others
       /\ root = cleanAttributes (removeUnwantedElements (elem first))
       /\ forall name attrs cs,
            Within (removeUnwantedElements (elem first))
                   (Element name attrs cs) ->
            name <> "a" -> name <> "img" -> plainKeys attrs = true ->
            exists attrs' cs',
              Within root (Element name attrs' cs')
              /\ getAttr "data-testid" attrs' = getAttr "data-testid" attrs.
Proof.
  intros Hroot.
  split; [rewrite cleanHtml_serializes; now rewrite Hroot |].
  unfold cleanContainer in Hroot.
  destruct (select doc contentSelector) as [| first others] eqn:Es;
    [discriminate |].
  cbn [map] in Hroot. apply cons_head in Hroot. subst root.
  set (kept := removeUnwantedElements (elem first)).
  split.
  - assert (Hnames :
              Forall (deep (fun name _ =>
                              ((name <> "script" /\ name <> "style")
                               /\ name <> "nav") /\ name <> "footer"))
                     (childrenOf kept)).
    { pose proof (@removeUnwantedElements_tag "script" (elem first)) as H1.
      pose proof (@removeUnwantedElements_tag "style" (elem first)) as H2.
      pose proof (@removeUnwantedElements_tag "nav" (elem first)) as H3.
      pose proof (@removeUnwantedElements_tag "footer" (elem first)) as H4.
      fold kept in H1, H2, H3, H4.
      assert (Hs : In (tag "script") ELEMENTS_TO_REMOVE)
        by (do 4 right; left; reflexivity).
      assert (Hst : In (tag "style") ELEMENTS_TO_REMOVE)
        by (do 5 right; left; reflexivity).
      assert (Hn : In (tag "nav") ELEMENTS_TO_REMOVE)
        by (left; reflexivity).
      assert (Hf : In (tag "footer") ELEMENTS_TO_REMOVE)
        by (do 2 right; left; reflexivity).
      specialize (H1 Hs). specialize (H2 Hst).
      specialize (H3 Hn). specialize (H4 Hf).
      rewrite Forall_forall in *. intros c Hc.
      apply (@deep_conj
               (fun name _ =>
                  (name <> "script" /\ name <> "style") /\ name <> "nav")
               (fun name _ => name <> "footer")); [| exact (H4 c Hc)].
      apply (@deep_conj
               (fun name _ => name <> "script" /\ name <> "style")
               (fun name _ => name <> "nav")); [| exact (H3 c Hc)].
      apply (@deep_conj (fun name _ => name <> "script")
                        (fun name _ => name <> "style"));
        [exact (H1 c Hc) | exact (H2 c Hc)]. }
    assert (Hclean : Forall (deep (fun name attrs =>
                                     Spec.cleanedElement
                                       name (plainAttributes attrs)))
                            (childrenOf (cleanAttributes kept))).
    { eapply cleanAttributes_children; [| exact Hnames].
      intros name attrs [[[Hs Hst] Hn] Hf]. cbv beta in *.
      assert (Htag : isTag name = true).
      { unfold isTag, typeOf.
        apply String.eqb_neq in Hs, Hst. now rewrite Hs, Hst. }
      assert (Hkeys : forall k,
                 In k (map fst (plainAttributes
                                  (cleanElementAttributes name attrs))) ->
                 isTracking k = false
                 /\ (name = "a" -> k = "href" \/ k = "title")
                 /\ (name = "img" -> k = "src" \/ k = "alt")).
      { intros k Hk. unfold plainAttributes in Hk.
        apply (keys_filter plainName) in Hk as [Hp Hk].
        exact (cleanElementAttributes_keys name attrs k Htag Hk Hp). }
      unfold Spec.cleanedElement. split.
      - simpl. intuition congruence.
      - split; [| split].
        + intros k Hk. apply Hkeys in Hk as [Hk _].
          now apply isTracking_false.
        + intros Hname k Hk. apply Hkeys in Hk as (_ & Hk & _). auto.
        + intros Hname k Hk. apply Hkeys in Hk as (_ & _ & Hk). auto. }
    intros name attrs cs Hw.
    apply (Within_deep _ Hclean) in Hw.
    now apply deep_Element in Hw as [Hw _].
  - exists first, others. split; [reflexivity |]. split; [reflexivity |].
    intros name attrs cs Hw Ha Hi Hp.
    apply Within_cleanAttributes in Hw. cbn [cleanAttributesNode] in Hw.
    eexists. eexists. split; [exact Hw |].
    now apply cleanElementAttributes_testid.
Qed.

(** On the page of the cleaner's tests: the [div] keeps [data-testid] and
    loses [data-tracking]. *)
Lemma cleanHtml_output_clean_witness :
  cleanContainer trackedPage (tag "article")
  = [ Element "article" []
        [ Element "div" [("data-testid", "content")] [Text "Text"];
          Example.p [ Element "a" [("href", "/tag/coq")] [Text "Coq"];
                      Example.img [("src", "https://example.com/a.png")] ] ] ]
  /\ Spec.cleanedElement "div" (plainAttributes [("data-testid", "content")]).
Proof.
  assert (Hc : cleanContainer trackedPage (tag "article")
               = [ Element "article" []
                     [ Element "div" [("data-testid", "content")]
                               [Text "Text"];
                       Example.p
                         [ Element "a" [("href", "/tag/coq")] [Text "Coq"];
                           Example.img
                             [("src", "https://example.com/a.png")] ] ] ])
    by reflexivity.
  split; [exact Hc |].
  apply (proj1 (proj2 (cleanHtml_output_clean Example.render trackedPage
                         (tag "article") Hc)))
    with (cs := [Text "Text"]).
  apply within_child. left. reflexivity.
Defined.

(** C8 as stated fails: [data-testid] is not retained on a link.  The link
    of the page of the cleaner's tests has [data-testid="link"]; the link
    that [cleanHtml] returns has its [href] and nothing else. *)
Lemma cleanHtml_drops_testid_of_link :
  map (fun e => attr (elem e) "data-testid") (select trackedPage (tag "a"))
  = [Some "link"]
  /\ cleanHtml Example.render trackedPage (tag "article")
     = ("<div data-testid=" ++ quote ++ "content" ++ quote ++ ">Text</div>"
        ++ "<p><a href=" ++ quote ++ "/tag/coq" ++ quote ++ ">Coq</a>"
        ++ "<img src=" ++ quote ++ "https://example.com/a.png" ++ quote
        ++ "></p>")%string
  /\ Js.includes (cleanHtml Example.render trackedPage (tag "article"))
                  "link" = false.
Proof. repeat split; vm_compute; reflexivity. Qed.

(** Names with white space in them are outside C8.  U+00A0 and U+000B are
    part of a name for the parser and for the two passes, and white space
    for the last step of [cleanHtml], which writes a space in their place:
    an element named [script] and U+00A0 is not removed and is returned as
    [<script >], and an attribute named [x], U+000B, [onclick] as [x] and
    [onclick]. *)
Lemma cleanHtml_white_space_in_names :
  cleanContainer oddNamesPage (tag "article")
  = [Element "article" [] (childrenOf (Element "article" []
       [ Example.h1 "Title";
         Element ("script" ++ noBreakSpace)%string [] [Text "alert(1)"];
         Element "p"
           [(("x" ++ lineTabulation ++ "onclick")%string, "alert(2)")]
           [Text "Body"] ]))]
  /\ cleanHtml Example.render oddNamesPage (tag "article")
     = ("<h1>Title</h1><script >alert(1)</script >"
        ++ "<p x onclick=" ++ quote ++ "alert(2)" ++ quote
        ++ ">Body</p>")%string.
Proof. split; vm_compute; reflexivity. Qed.

(** [removeAttr] on a name with white space in it: a link with an [href]
    and an attribute named [data-y], U+00A0, [href] loses its [href] and
    keeps the other attribute. *)
Lemma cleanElementAttributes_splits_names :
  splitNames ("data-y" ++ noBreakSpace ++ "href")%string = ["data-y"; "href"]
  /\ cleanElementAttributes "a"
       [("href", "/x"); (("data-y" ++ noBreakSpace ++ "href")%string, "1")]
     = [(("data-y" ++ noBreakSpace ++ "href")%string, "1")].
Proof. split; vm_compute; reflexivity. Qed.

(** ** Keeping first occurrences *)

Section FirstOccurrences.

Context {A B : Type}.
Variable key : A -> string.

Lemma firstOccurrencesAfter_In (earlier l : list A) (x : A) :
  In x (Spec.firstOccurrencesAfter key earlier l) ->
  In x l /\ existsb (fun y => key y =? key x) earlier = false.
Proof.
  revert earlier. induction l as [| a r IH]; intros earlier; [intros [] |].
  cbn [Spec.firstOccurrencesAfter].
  assert (Hrest : In x (Spec.firstOccurrencesAfter key (earlier ++ [a]) r) ->
                  In x (a :: r)
                  /\ existsb (fun y => key y =? key x) earlier = false).
  { intros H. apply IH in H as [Hin Hex]. split; [now right |].
    rewrite existsb_app in Hex. now apply orb_false_iff in Hex as [Hex _]. }
  destruct (existsb (fun y => key y =? key a) earlier) eqn:E; [exact Hrest |].
  intros [<- | H]; [| now apply Hrest].
  split; [now left | exact E].
Qed.

Lemma firstOccurrencesAfter_NoDup (earlier l : list A) :
  NoDup (map key (Spec.firstOccurrencesAfter key earlier l)).
Proof.
  revert earlier. induction l as [| a r IH]; intros earlier; [constructor |].
  cbn [Spec.firstOccurrencesAfter].
  destruct (existsb (fun y => key y =? key a) earlier); [apply IH |].
  cbn [map]. constructor; [| apply IH].
  intros Hin. apply in_map_iff in Hin as (z & Hz & Hin).
  apply firstOccurrencesAfter_In in Hin as [_ Hex].
  rewrite existsb_app in Hex. apply orb_false_iff in Hex as [_ Hex].
  cbn [existsb] in Hex. rewrite Hz, String.eqb_refl in Hex. discriminate.
Qed.

Variable keep : A -> bool.
Variable make : A -> B.

Lemma fold_seenStep (l earlier : list A) (out : list B)
                    (seen : list string) :
  (forall k, existsb (String.eqb k) seen
             = existsb (fun y => key y =? k) earlier) ->
  fst (fold_left (seenStep key keep make) l (out, seen))
  = out ++ map make (filter keep (Spec.firstOccurrencesAfter key earlier l)).
Proof.
  revert earlier out seen.
  induction l as [| x r IH]; intros earlier out seen Hseen.
  - simpl. now rewrite app_nil_r.
  - cbn [fold_left Spec.firstOccurrencesAfter]. unfold seenStep at 2.
    rewrite Hseen.
    assert (Hnext : forall k,
               existsb (String.eqb k) (key x :: seen)
               = existsb (fun y => key y =? k) (earlier ++ [x])).
    { intros k. rewrite existsb_app. cbn [existsb].
      rewrite Hseen, orb_false_r, orb_comm. f_equal. apply String.eqb_sym. }
    assert (Hkeep : forall k,
               existsb (fun y => key y =? key x) earlier = true ->
               existsb (String.eqb k) seen
               = existsb (fun y => key y =? k) (earlier ++ [x])).
    { intros k Hx. rewrite existsb_app. cbn [existsb].
      rewrite Hseen, orb_false_r.
      destruct (String.eqb_spec (key x) k) as [<- | Hne];
        [now rewrite Hx | now rewrite orb_false_r]. }
    destruct (existsb (fun y => key y =? key x) earlier) eqn:E; cbn [negb].
    + apply IH. intros k. now apply Hkeep.
    + rewrite (IH (earlier ++ [x]) _ _ Hnext). cbn [filter].
      destruct (keep x); [| reflexivity].
      cbn [map]. now rewrite <- app_assoc.
Qed.

End FirstOccurrences.

Lemma fold_left_guard {A S : Type} (p : A -> bool) (f : S -> A -> S)
                      (l : list A) (st : S) :
  fold_left (fun st x => if p x then f st x else st) l st
  = fold_left f (filter p l) st.
Proof.
  revert st. induction l as [| x r IH]; intros st; [reflexivity |].
  cbn [fold_left filter]. destruct (p x); [cbn [fold_left] |]; apply IH.
Qed.

(** ** Image extraction *)

Lemma sourceOf_truthy (el : node) (s : string) :
  Js.orElse (attr el "src") (attr el "data-src") = Some s ->
  Spec.sourceOf el = s.
Proof.
  unfold Spec.sourceOf, orEmpty. intros ->.
  unfold Js.orElse, Js.truthyOpt, Js.truthy.
  destruct (String.eqb_spec s "") as [-> | _]; reflexivity.
Qed.

Lemma imageStep_seenStep (st : list ImageData.t * list string) (el : node) :
  imageStep st el
  = if Js.truthy (Spec.sourceOf el)
    then seenStep Spec.sourceOf
                  (fun img => Spec.resolvable (Spec.sourceOf img))
                  Spec.candidateOf st el
    else st.
Proof.
  destruct st as [images seen].
  unfold imageStep, seenStep, Spec.candidateOf, Spec.rewritten,
    Spec.resolvable.
  destruct (Js.orElse (attr el "src") (attr el "data-src")) as [s |] eqn:Es.
  - rewrite (sourceOf_truthy _ Es).
    destruct (Js.truthy s); cbn [andb]; [| reflexivity].
    destruct (negb (existsb (String.eqb s) seen)); [| reflexivity].
    destruct (Js.startsWith s "http" || Js.startsWith s "//"); reflexivity.
  - unfold Spec.sourceOf. rewrite Es. reflexivity.
Qed.

(** C4, as the code has it.  Images are deduplicated by their source as
    written ([src], or [data-src] when [src] is absent or empty), before a
    protocol-relative source is rewritten; the first occurrence stays,
    with its alt text, and later ones are dropped.  The sources that are
    neither absolute nor protocol-relative are then discarded and the
    protocol-relative ones rewritten.  Two images with the same non-empty
    absolute or protocol-relative [src] give one entry, with the alt text
    of the first. *)
Theorem extractImages_first_by_source (doc : document)
                                      (contentSelector : selector) :
  let imgs :=
    map elem (find doc (select doc contentSelector) (tag "img")) in
  let kept :=
    Spec.firstOccurrences Spec.sourceOf
      (filter (fun img => Js.truthy (Spec.sourceOf img)) imgs) in
  extractImages doc contentSelector
  = map Spec.candidateOf
        (filter (fun img => Spec.resolvable (Spec.sourceOf img)) kept)
  /\ NoDup (map Spec.sourceOf kept)
  /\ (forall first second s,
        imgs = [first; second] ->
        attr first "src" = Some s -> attr second "src" = Some s ->
        s <> EmptyString -> Spec.resolvable s = true ->
        extractImages doc contentSelector
        = [ {| ImageData.url := Spec.rewritten s;
               ImageData.alt := Js.orElse (attr first "alt") None |} ]).
Proof.
  intros imgs kept.
  assert (Hmain : extractImages doc contentSelector
                  = map Spec.candidateOf
                      (filter (fun img => Spec.resolvable (Spec.sourceOf img))
                              kept)).
  { unfold extractImages. fold imgs.
    rewrite (fold_left_ext imageStep
               (fun st el =>
                  if Js.truthy (Spec.sourceOf el)
                  then seenStep Spec.sourceOf
                         (fun img => Spec.resolvable (Spec.sourceOf img))
                         Spec.candidateOf st el
                  else st))
      by (intros; apply imageStep_seenStep).
    rewrite (fold_left_guard (fun el => Js.truthy (Spec.sourceOf el))).
    rewrite (fold_seenStep Spec.sourceOf _ _ _ []) by reflexivity.
    reflexivity. }
  split; [exact Hmain |].
  split; [apply firstOccurrencesAfter_NoDup |].
  intros first second s Himgs H1 H2 Hs Hres.
  rewrite Hmain. subst kept. rewrite Himgs.
  assert (Ht : Js.truthy s = true)
    by (unfold Js.truthy; apply String.eqb_neq in Hs; now rewrite Hs).
  assert (Hsrc : forall el, attr el "src" = Some s -> Spec.sourceOf el = s).
  { intros el H. apply sourceOf_truthy.
    unfold Js.orElse, Js.truthyOpt. now rewrite H, Ht. }
  cbn [filter]. rewrite (Hsrc _ H1), (Hsrc _ H2), Ht.
  unfold Spec.firstOccurrences. cbn [Spec.firstOccurrencesAfter existsb app].
  rewrite (Hsrc _ H1), (Hsrc _ H2), String.eqb_refl. cbn [orb filter].
  rewrite (Hsrc _ H1), Hres. cbn [map].
  unfold Spec.candidateOf. now rewrite (Hsrc _ H1).
Qed.

(** Two images with the same source give one entry, with the alt text of
    the first. *)
Lemma extractImages_first_by_source_witness :
  extractImages sameSourcePage (tag "article")
  = [ {| ImageData.url := "https://example.com/same.jpg";
         ImageData.alt := Some "First" |} ].
Proof.
  apply (proj2 (proj2 (extractImages_first_by_source sameSourcePage
                                                      (tag "article"))))
    with (first := Example.img [("src", "https://example.com/same.jpg");
                                ("alt", "First")])
         (second := Example.img [("src", "https://example.com/same.jpg");
                                 ("alt", "Duplicate")])
         (s := "https://example.com/same.jpg");
    [reflexivity | reflexivity | reflexivity | discriminate | reflexivity].
Defined.

(** C4 as stated fails: a protocol-relative source and the absolute form
    of the same URL are two different sources, and give two entries with
    the same rewritten URL. *)
Lemma extractImages_same_url_twice :
  extractImages mixedSchemePage (contentSelectorOf mixedSchemePage)
  = [ {| ImageData.url := "https://cdn.example.com/a.png";
         ImageData.alt := Some "First" |};
      {| ImageData.url := "https://cdn.example.com/a.png";
         ImageData.alt := Some "Second" |} ]
  /\ ~ NoDup (map ImageData.url
                  (extractImages mixedSchemePage
                                 (contentSelectorOf mixedSchemePage))).
Proof.
  split; [reflexivity |].
  intros H. change (NoDup ["https://cdn.example.com/a.png";
                            "https://cdn.example.com/a.png"]) in H.
  inversion H as [| x l Hnotin _]; subst. apply Hnotin. now left.
Qed.

(** ** The orchestrator *)

Section ScraperFacts.

Variable parseURL : string -> option URL.
Variable net : nat -> string -> FetchOutcome.
Variable load : string -> document.
Variable render : list node -> string.
Variable now : string.

(** What a successful call went through. *)
Lemma scrapeArticle_success (url : string) (log log' : list string)
                            (a : Article) :
  scrapeArticle parseURL net load render now url log = (inr a, log') ->
  exists html metadata,
    validateMediumUrl parseURL url = inr tt
    /\ fst (fetchHtml net url log) = inr html
    /\ checkPaywall (load html) = inr tt
    /\ extractMetadata now (load html) url = inr metadata
    /\ images a
       = fst (downloadAllImages net
                (extractImages (load html) (contentSelectorOf (load html)))
                (log ++ [url]))
    /\ content a
       = cleanHtml render (load html) (contentSelectorOf (load html))
    /\ Js.truthy (content a) = true
    /\ tags a = Metadata.tags metadata.
Proof.
  unfold scrapeArticle, bindE, bind, ret.
  destruct (validateMediumUrl parseURL url) as [e | []]; [discriminate |].
  pose proof (fetchHtml_log net url log) as Hlog.
  destruct (fetchHtml net url log) as [[e | html] l1] eqn:Ef;
    [discriminate |].
  cbn [snd] in Hlog. subst l1.
  destruct (checkPaywall (load html)) as [e | []] eqn:Ep; [discriminate |].
  destruct (extractMetadata now (load html) url) as [e | metadata] eqn:Em;
    [discriminate |].
  destruct (downloadAllImages net _ (log ++ [url])) as [imgs l2] eqn:Ed.
  destruct (Js.truthy (cleanHtml render (load html)
                                 (contentSelectorOf (load html)))) eqn:Et;
    cbn [negb]; [| discriminate].
  intros [= <- <-]. exists html, metadata.
  cbn [images content tags fst].
  repeat split; auto. now rewrite Ed.
Qed.

End ScraperFacts.

(** ** Base64 *)

Lemma base64Char_value (k : N) :
  (k < 64)%N ->
  Spec.base64Value (base64Char k) = k
  /\ (base64Char k =? "=")%char = false.
Proof.
  intros Hk.
  assert (H : In k (map N.of_nat (seq 0 64))).
  { apply in_map_iff. exists (N.to_nat k). split; [lia |].
    apply in_seq. lia. }
  cbn in H.
  repeat (destruct H as [<- | H]; [split; reflexivity |]).
  contradiction.
Qed.

Lemma code_bound (c : ascii) : (Js.code c < 256)%N.
Proof. apply N_ascii_bounded. Qed.

Lemma ascii_of_code (c : ascii) : ascii_of_N (Js.code c) = c.
Proof. apply ascii_N_embedding. Qed.

Lemma fromBase64_toBase64 (bytes : string) :
  Spec.fromBase64 (toBase64 bytes) = bytes.
Proof.
  assert (H : forall n bytes, String.length bytes <= n ->
                              Spec.fromBase64 (toBase64 bytes) = bytes).
  { clear bytes. induction n as [| n IH]; intros bytes Hlen.
    - destruct bytes; [reflexivity | simpl in Hlen; lia].
    - destruct bytes as [| a [| b [| c r]]]; [reflexivity | | |].
      + pose proof (code_bound a) as Ha.
        cbn [toBase64]. cbv zeta.
        set (n0 := (Js.code a * 65536)%N).
        destruct (@base64Char_value (n0 / 262144)%N) as [E1 _];
          [subst n0; lia |].
        destruct (@base64Char_value ((n0 / 4096) mod 64)%N) as [E2 _];
          [subst n0; lia |].
        cbn [Spec.fromBase64]. cbv zeta. rewrite E1, E2.
        change (("=" =? "=")%char) with true. cbv iota.
        change (Spec.base64Value "=") with 0%N.
        replace ((n0 / 262144 * 262144 + n0 / 4096 mod 64 * 4096
                  + 0 * 64 + 0) / 65536)%N with (Js.code a)
          by (subst n0; lia).
        now rewrite ascii_of_code.
      + pose proof (code_bound a) as Ha. pose proof (code_bound b) as Hb.
        cbn [toBase64]. cbv zeta.
        set (n0 := (Js.code a * 65536 + Js.code b * 256)%N).
        destruct (@base64Char_value (n0 / 262144)%N) as [E1 _];
          [subst n0; lia |].
        destruct (@base64Char_value ((n0 / 4096) mod 64)%N) as [E2 _];
          [subst n0; lia |].
        destruct (@base64Char_value ((n0 / 64) mod 64)%N) as [E3 F3];
          [subst n0; lia |].
        cbn [Spec.fromBase64]. cbv zeta. rewrite E1, E2, E3, F3.
        change (("=" =? "=")%char) with true. cbv iota.
        change (Spec.base64Value "=") with 0%N.
        set (m := (n0 / 262144 * 262144 + n0 / 4096 mod 64 * 4096
                   + n0 / 64 mod 64 * 64 + 0)%N).
        replace (m / 65536)%N with (Js.code a) by (subst m n0; lia).
        replace ((m / 256) mod 256)%N with (Js.code b) by (subst m n0; lia).
        now rewrite !ascii_of_code.
      + pose proof (code_bound a) as Ha. pose proof (code_bound b) as Hb.
        pose proof (code_bound c) as Hc.
        cbn [toBase64]. cbv zeta.
        set (n0 := (Js.code a * 65536 + Js.code b * 256 + Js.code c)%N).
        destruct (@base64Char_value (n0 / 262144)%N) as [E1 _];
          [subst n0; lia |].
        destruct (@base64Char_value ((n0 / 4096) mod 64)%N) as [E2 _];
          [subst n0; lia |].
        destruct (@base64Char_value ((n0 / 64) mod 64)%N) as [E3 F3];
          [subst n0; lia |].
        destruct (@base64Char_value (n0 mod 64)%N) as [E4 F4];
          [subst n0; lia |].
        cbn [Spec.fromBase64]. cbv zeta. rewrite E1, E2, E3, E4, F3, F4.
        cbv iota.
        set (m := (n0 / 262144 * 262144 + n0 / 4096 mod 64 * 4096
                   + n0 / 64 mod 64 * 64 + n0 mod 64)%N).
        replace (m / 65536)%N with (Js.code a) by (subst m n0; lia).
        replace ((m / 256) mod 256)%N with (Js.code b) by (subst m n0; lia).
        replace (m mod 256)%N with (Js.code c) by (subst m n0; lia).
        rewrite !ascii_of_code, IH; [reflexivity |].
        simpl in Hlen. lia. }
  apply (H (String.length bytes)). lia.
Qed.

(** ** Tags *)

Lemma fold_left_flat_map {A B S : Type} (f : S -> B -> S) (g : A -> list B)
                         (l : list A) (st : S) :
  fold_left (fun st x => fold_left f (g x) st) l st
  = fold_left f (flat_map g l) st.
Proof.
  revert st. induction l as [| x r IH]; intros st; [reflexivity |].
  cbn [fold_left flat_map]. now rewrite fold_left_app, IH.
Qed.

Lemma tagStep_seenStep (st : list string * list string) (el : node) :
  tagStep st el
  = if Spec.validTag el
    then seenStep Spec.tagText (fun _ => true) Spec.tagText st el
    else st.
Proof.
  destruct st as [tags seen].
  unfold tagStep, seenStep, Spec.validTag. fold (Spec.tagText el).
  destruct (Js.truthy (Spec.tagText el));
    destruct (existsb (String.eqb (Spec.tagText el)) seen);
    destruct (String.length (Spec.tagText el) <? 50)%nat; reflexivity.
Qed.

(** The tag loop keeps the first occurrence of every valid tag, in the
    order in which the tags are met. *)
Lemma collectTags_first_occurrences (doc : document) :
  collectTags doc
  = map Spec.tagText
        (Spec.firstOccurrences Spec.tagText
           (filter Spec.validTag (Spec.tagCandidates doc))).
Proof.
  unfold collectTags.
  rewrite (fold_left_flat_map tagStep
             (fun selector => map elem (select doc selector))).
  fold (Spec.tagCandidates doc).
  rewrite (fold_left_ext tagStep
             (fun st el =>
                if Spec.validTag el
                then seenStep Spec.tagText (fun _ => true) Spec.tagText st el
                else st))
    by (intros; apply tagStep_seenStep).
  rewrite (fold_left_guard Spec.validTag).
  rewrite (fold_seenStep Spec.tagText _ _ _ []) by reflexivity.
  cbn [app]. f_equal. apply filter_all. reflexivity.
Qed.

Lemma firstOccurrences_valid (doc : document) (el : node) :
  In el (Spec.firstOccurrences Spec.tagText
           (filter Spec.validTag (Spec.tagCandidates doc))) ->
  Spec.validTag el = true.
Proof.
  intros H. apply firstOccurrencesAfter_In in H as [H _].
  now apply filter_In in H as [_ H].
Qed.

Lemma collectTags_entries (doc : document) :
  Forall (fun t => Js.toLowerCase t = t /\ String.length t < 50)
         (collectTags doc).
Proof.
  rewrite collectTags_first_occurrences. apply Forall_map.
  apply Forall_forall. intros el Hel.
  apply firstOccurrences_valid in Hel. unfold Spec.validTag in Hel.
  apply andb_true_iff in Hel as [_ Hlen]. apply Nat.ltb_lt in Hlen.
  split; [apply toLowerCase_idem | exact Hlen].
Qed.

Lemma collectTags_NoDup (doc : document) : NoDup (collectTags doc).
Proof.
  rewrite collectTags_first_occurrences.
  apply firstOccurrencesAfter_NoDup.
Qed.

Lemma map_id_on {A : Type} (f : A -> A) (l : list A) :
  Forall (fun x => f x = x) l -> map f l = l.
Proof.
  induction 1 as [| x l Hx _ IH]; simpl; [reflexivity |].
  now rewrite Hx, IH.
Qed.

(** ** Downloaded images *)

Lemma imageOfOutcome_Some (outcome : FetchOutcome) (d : string) :
  imageOfOutcome outcome = Some d ->
  exists contentType bytes,
    d = dataUri contentType bytes
    /\ (Z.of_nat (String.length bytes) <= MAX_IMAGE_SIZE_BYTES)%Z.
Proof.
  unfold imageOfOutcome.
  destruct outcome as [name | r]; [discriminate |].
  destruct (negb (ok r)); [discriminate |].
  destruct (negb (Js.startsWith _ "image/")); [discriminate |].
  destruct (declaredTooLarge _); [discriminate |].
  destruct (body r) as [name | bytes]; [discriminate |].
  destruct (Z.gtb_spec (Z.of_nat (String.length bytes)) MAX_IMAGE_SIZE_BYTES);
    [discriminate |].
  intros [= <-]. eexists. exists bytes. split; [reflexivity | lia].
Qed.

Lemma imagesFrom_In (net : nat -> string -> FetchOutcome) (k : nat)
                    (l : list ImageData.t) (img : ArticleImage) :
  In img (imagesFrom net k l) ->
  exists outcome, base64 img = imageOfOutcome outcome.
Proof.
  revert k. induction l as [| d r IH]; intros k; [intros [] |].
  cbn [imagesFrom]. intros [<- | H]; [eexists; reflexivity |].
  now apply IH in H.
Qed.

(** ** The returned article *)

Section ArticleFacts.

Variable parseURL : string -> option URL.
Variable load : string -> document.
Variable render : list node -> string.
Variable now : string.

(** C9.  The article of a successful call has at most 50 images; every
    data URI among them encodes at most 5 MiB of bytes; its content is not
    empty; and its tags, when present, are a non-empty list of lower-case
    strings shorter than 50 characters, without duplicates even when case
    is ignored, in the order in which they are first met. *)
Theorem scrapeArticle_invariants (net : nat -> string -> FetchOutcome)
                                 (url : string) (log log' : list string)
                                 (a : Article) :
  scrapeArticle parseURL net load render now url log = (inr a, log') ->
  List.length (images a) <= 50
  /\ (forall img d,
        In img (images a) -> base64 img = Some d ->
        exists contentType bytes,
          d = ("data:" ++ contentType ++ ";base64," ++ toBase64 bytes)%string
          /\ Spec.fromBase64 (toBase64 bytes) = bytes
          /\ (Z.of_nat (String.length bytes) <= 5 * 1024 * 1024)%Z)
  /\ content a <> EmptyString
  /\ (forall ts,
        tags a = Some ts ->
        ts <> []
        /\ Forall (fun t => Js.toLowerCase t = t /\ String.length t < 50) ts
        /\ NoDup (map Js.toLowerCase ts)
        /\ exists html,
             fst (fetchHtml net url log) = inr html
             /\ ts = map Spec.tagText
                       (Spec.firstOccurrences Spec.tagText
                          (filter Spec.validTag
                                  (Spec.tagCandidates (load html))))).
Proof.
  intros H.
  apply scrapeArticle_success in H
    as (html & metadata & _ & Hf & _ & Hm & Hi & Hc & Ht & Htags).
  rewrite downloadAllImages_unfold in Hi. cbn [fst] in Hi.
  split; [| split; [| split]].
  - rewrite Hi, imagesFrom_length, length_firstn.
    unfold MAX_IMAGES_PER_ARTICLE. lia.
  - intros img d Hin Hd. rewrite Hi in Hin.
    apply imagesFrom_In in Hin as [outcome Ho].
    rewrite Ho in Hd.
    apply imageOfOutcome_Some in Hd as (contentType & bytes & -> & Hlen).
    exists contentType, bytes.
    split; [reflexivity | split; [apply fromBase64_toBase64 | exact Hlen]].
  - intros E. rewrite E in Ht. discriminate.
  - intros ts Hts. rewrite Htags in Hts.
    unfold extractMetadata in Hm.
    destruct (extractWithSelectors (load html) CSS_SELECTORS.title)
      as [t |]; [| discriminate].
    destruct (negb (Js.truthy t)); [discriminate |].
    injection Hm as <-. cbn [Metadata.tags] in Hts.
    destruct (0 <? List.length (collectTags (load html)))%nat eqn:El;
      [| discriminate].
    injection Hts as <-.
    split; [| split; [| split]].
    + intros E. rewrite E in El. discriminate.
    + apply collectTags_entries.
    + rewrite map_id_on; [apply collectTags_NoDup |].
      eapply Forall_impl; [| apply collectTags_entries].
      now intros t' [Hl _].
    + exists html. split; [exact Hf | apply collectTags_first_occurrences].
Qed.

End ArticleFacts.

(** The run on the page with one picture: one image, content not empty. *)
Lemma scrapeArticle_invariants_witness :
  onePictureRun = (inr onePictureArticle, onePictureLog)
  /\ List.length (images onePictureArticle) <= 50
  /\ content onePictureArticle <> EmptyString.
Proof.
  assert (H : scrapeArticle Example.parseURL
                (Example.serve "https://medium.com/@user/story" "<html>"
                               Example.pngResponse)
                (fun _ => onePicturePage) Example.render
                "2026-02-07T12:00:00.000Z"
                "https://medium.com/@user/story" []
              = (inr onePictureArticle, onePictureLog))
    by (vm_compute; reflexivity).
  split; [exact H |].
  destruct (scrapeArticle_invariants Example.parseURL
              (fun _ => onePicturePage) Example.render
              "2026-02-07T12:00:00.000Z"
              (Example.serve "https://medium.com/@user/story" "<html>"
                             Example.pngResponse)
              "https://medium.com/@user/story" [] H)
    as (H1 & _ & H3 & _).
  split; [exact H1 | exact H3].
Defined.

(** C1 as stated fails: the image of the page downloads, its data URI is
    in [images], and the content still has the original URL as the [src]
    of the image and no data URI. *)
Lemma scrapeArticle_content_not_substituted :
  onePictureRun = (inr onePictureArticle, onePictureLog)
  /\ In {| originalUrl := "https://cdn.example.com/a.png";
           base64 := Some "data:image/png;base64,iVBORw==";
           alt := Some "A" |}
        (images onePictureArticle)
  /\ Spec.occursIn (Spec.srcAttribute "https://cdn.example.com/a.png")
                   (content onePictureArticle)
  /\ ~ Spec.occursIn "data:image/png;base64,iVBORw=="
                     (content onePictureArticle).
Proof.
  split; [vm_compute; reflexivity |].
  split; [left; reflexivity |].
  split.
  - apply includes_iff. vm_compute. reflexivity.
  - intros H. apply includes_iff in H. vm_compute in H. discriminate.
Qed.

(* ================================================================== *)
(** * Further properties of the scraper *)

(** ** Trimming *)

Lemma trimStart_head (s : string) (c : ascii) (r : string) :
  Js.trimStart s = String c r -> Js.isSpace c = false.
Proof.
  induction s as [| d s IH]; [discriminate |].
  simpl. destruct (Js.isSpace d) eqn:E; [exact IH |].
  intros [= <- _]. exact E.
Qed.

Lemma trimStart_empty_iff (s : string) :
  Js.trimStart s = EmptyString <-> Js.allChars Js.isSpace s = true.
Proof.
  induction s as [| d s IH]; simpl; [tauto |].
  destruct (Js.isSpace d); [exact IH |].
  split; discriminate.
Qed.

Lemma trimEnd_empty_iff (s : string) :
  Js.trimEnd s = EmptyString <-> Js.allChars Js.isSpace s = true.
Proof.
  induction s as [| d s IH]; simpl; [tauto |].
  destruct (Js.isSpace d); cbn [andb].
  - destruct (String.eqb_spec (Js.trimEnd s) "") as [E | E].
    + split; [intros _; now apply IH | reflexivity].
    + split; [discriminate |]. intros H. apply IH in H. contradiction.
  - split; discriminate.
Qed.

Lemma trimEnd_cons (c : ascii) (r : string) :
  Js.isSpace c = false ->
  Js.trimEnd (String c r) = String c (Js.trimEnd r).
Proof. intros H. simpl. now rewrite H. Qed.

Lemma trimEnd_idem (s : string) : Js.trimEnd (Js.trimEnd s) = Js.trimEnd s.
Proof.
  induction s as [| d s IH]; [reflexivity |].
  cbn [Js.trimEnd]. cbv zeta.
  destruct (Js.isSpace d && (Js.trimEnd s =? "")) eqn:E; [reflexivity |].
  cbn [Js.trimEnd]. cbv zeta. now rewrite IH, E.
Qed.

Lemma trim_empty_iff (s : string) :
  Js.trim s = EmptyString <-> Js.allChars Js.isSpace s = true.
Proof.
  unfold Js.trim. split.
  - intros H. apply trimStart_empty_iff.
    destruct (Js.trimStart s) as [| c r] eqn:E; [reflexivity |].
    apply trimStart_head in E. simpl in H. rewrite E in H. discriminate.
  - intros H. apply trimStart_empty_iff in H. now rewrite H.
Qed.

Lemma trim_idem (s : string) : Js.trim (Js.trim s) = Js.trim s.
Proof.
  unfold Js.trim.
  destruct (Js.trimStart s) as [| c r] eqn:E; [reflexivity |].
  apply trimStart_head in E.
  rewrite (@trimEnd_cons c r E). cbn [Js.trimStart]. rewrite E.
  rewrite <- (@trimEnd_cons c r E). apply trimEnd_idem.
Qed.

Lemma trimEnd_lastChar (s : string) (c : ascii) :
  lastChar (Js.trimEnd s) = Some c -> Js.isSpace c = false.
Proof.
  induction s as [| d s IH]; [discriminate |].
  cbn [Js.trimEnd]. cbv zeta.
  destruct (Js.isSpace d && (Js.trimEnd s =? "")) eqn:E; [discriminate |].
  cbn [lastChar].
  destruct (Js.trimEnd s) as [| x r] eqn:Er.
  - intros [= <-]. rewrite andb_true_r in E. exact E.
  - exact IH.
Qed.

(** A trimmed string neither starts nor ends with white space. *)
Lemma trim_ends (s : string) :
  (forall c r, Js.trim s = String c r -> Js.isSpace c = false)
  /\ (forall c, lastChar (Js.trim s) = Some c -> Js.isSpace c = false).
Proof.
  split.
  - unfold Js.trim. intros c r H.
    destruct (Js.trimStart s) as [| d t] eqn:E; [discriminate |].
    apply trimStart_head in E. rewrite (@trimEnd_cons d t E) in H.
    now injection H as <- _.
  - apply trimEnd_lastChar.
Qed.

Lemma truthy_iff (s : string) : Js.truthy s = true <-> s <> EmptyString.
Proof.
  unfold Js.truthy. rewrite negb_true_iff, String.eqb_neq. tauto.
Qed.

(** ** Selector fallback chains *)

(** Whatever a fallback chain extracts is trimmed. *)
Lemma extractWithSelectors_trimmed (doc : document)
                                   (selectors : list selector) (t : string) :
  extractWithSelectors doc selectors = Some t -> Js.trim t = t.
Proof.
  induction selectors as [| selector rest IH]; [discriminate |].
  cbn [extractWithSelectors].
  destruct (select doc selector) as [| element l]; [exact IH |].
  destruct (Js.startsWith (source selector) "meta").
  - destruct (attr (elem element) "content") as [content |]; [| exact IH].
    destruct (Js.truthy content); [| exact IH].
    intros [= <-]. apply trim_idem.
  - cbv zeta. destruct (Js.truthy (Js.trim (text (elem element))));
      [| exact IH].
    intros [= <-]. apply trim_idem.
Qed.

(** An earlier selector takes precedence: when the first element matching
    the first selector has text, that text is the result, whatever the
    later selectors match. *)
Lemma extractWithSelectors_first_wins (doc : document) (sel : selector)
                                      (rest : list selector)
                                      (element : located)
                                      (others : list located) :
  Js.startsWith (source sel) "meta" = false ->
  select doc sel = element :: others ->
  Js.trim (text (elem element)) <> EmptyString ->
  extractWithSelectors doc (sel :: rest)
  = Some (Js.trim (text (elem element))).
Proof.
  intros Hm Hs Ht. cbn [extractWithSelectors]. rewrite Hs, Hm. cbv zeta.
  apply truthy_iff in Ht. now rewrite Ht.
Qed.

(** ** Metadata of the returned article *)

Lemma append_assoc (a b c : string) :
  ((a ++ b) ++ c)%string = (a ++ (b ++ c))%string.
Proof. induction a as [| x a IH]; simpl; [reflexivity | now rewrite IH]. Qed.

Lemma span_app (p : ascii -> bool) (s a b : string) :
  Js.span p s = (a, b) ->
  s = (a ++ b)%string /\ Js.allChars p a = true.
Proof.
  revert a b. induction s as [| c r IH]; intros a b.
  - intros [= <- <-]. auto.
  - cbn [Js.span]. destruct (p c) eqn:E.
    + destruct (Js.span p r) as [a' b'] eqn:Er.
      intros [= <- <-]. destruct (IH a' b' eq_refl) as [-> Ha].
      split; [reflexivity |]. simpl. now rewrite E, Ha.
    + intros [= <- <-]. auto.
Qed.

Lemma matchMinutesAt_shape (s m : string) :
  matchMinutesAt s = Some m ->
  exists digits spaces rest,
    m = (digits ++ spaces ++ "min")%string
    /\ s = (m ++ rest)%string
    /\ digits <> EmptyString
    /\ Js.allChars Js.isDigit digits = true
    /\ Js.allChars Js.isSpace spaces = true.
Proof.
  unfold matchMinutesAt.
  destruct (Js.span Js.isDigit s) as [ds r1] eqn:E1.
  destruct (String.eqb_spec ds "") as [| Hne]; [discriminate |].
  destruct (Js.span Js.isSpace r1) as [ws r2] eqn:E2.
  destruct (Js.startsWith r2 "min") eqn:E3; [| discriminate].
  intros [= <-].
  apply span_app in E1 as [-> Hd]. apply span_app in E2 as [-> Hw].
  apply prefix_iff in E3 as [rest ->].
  exists ds, ws, rest. repeat split; auto.
  now rewrite !append_assoc.
Qed.

(** The reading time, when there is one, is a run of digits, optional
    white space and [min], found in the text it was read from. *)
Lemma matchMinutes_shape (s m : string) :
  matchMinutes s = Some m ->
  (exists digits spaces,
      m = (digits ++ spaces ++ "min")%string
      /\ digits <> EmptyString
      /\ Js.allChars Js.isDigit digits = true
      /\ Js.allChars Js.isSpace spaces = true)
  /\ Spec.occursIn m s.
Proof.
  induction s as [| c r IH].
  - cbn [matchMinutes]. destruct (matchMinutesAt "") as [x |] eqn:E;
      [| discriminate].
    intros [= <-].
    apply matchMinutesAt_shape in E as (ds & ws & rest & H1 & H2 & H3 & H4 & H5).
    split; [eauto 6 |]. exists EmptyString, rest. exact H2.
  - cbn [matchMinutes].
    destruct (matchMinutesAt (String c r)) as [x |] eqn:E.
    + intros [= <-].
      apply matchMinutesAt_shape in E
        as (ds & ws & rest & H1 & H2 & H3 & H4 & H5).
      split; [eauto 6 |]. exists EmptyString, rest. exact H2.
    + intros H. apply IH in H as [Hs (before & after & ->)].
      split; [exact Hs |]. now exists (String c before), after.
Qed.

Section MetadataFacts.

Variable parseURL : string -> option URL.
Variable net : nat -> string -> FetchOutcome.
Variable load : string -> document.
Variable render : list node -> string.
Variable now : string.

Lemma scrapeArticle_fields (pageUrl : string) (log log' : list string)
                           (a : Article) :
  scrapeArticle parseURL net load render now pageUrl log = (inr a, log') ->
  exists html metadata,
    fst (fetchHtml net pageUrl log) = inr html
    /\ extractMetadata now (load html) pageUrl = inr metadata
    /\ url a = Metadata.url metadata
    /\ title a = Metadata.title metadata
    /\ subtitle a = Metadata.subtitle metadata
    /\ author a = Metadata.author metadata
    /\ publishedDate a = Metadata.publishedDate metadata
    /\ readingTime a = Metadata.readingTime metadata.
Proof.
  unfold scrapeArticle, bindE, bind, ret.
  destruct (validateMediumUrl parseURL pageUrl) as [e | []];
    [discriminate |].
  destruct (fetchHtml net pageUrl log) as [[e | html] l1] eqn:Ef;
    [discriminate |].
  destruct (checkPaywall (load html)) as [e | []]; [discriminate |].
  destruct (extractMetadata now (load html) pageUrl) as [e | metadata] eqn:Em;
    [discriminate |].
  destruct (downloadAllImages net _ l1) as [imgs l2].
  destruct (negb _); [discriminate |].
  intros [= <- <-]. exists html, metadata. cbn. auto 10.
Qed.

Lemma extractMetadata_inv (doc : document) (pageUrl : string)
                          (metadata : Metadata.t) :
  extractMetadata now doc pageUrl = inr metadata ->
  exists t,
    extractWithSelectors doc CSS_SELECTORS.title = Some t
    /\ Js.truthy t = true
    /\ Metadata.url metadata = pageUrl
    /\ Metadata.title metadata = t
    /\ Metadata.subtitle metadata
       = extractWithSelectors doc CSS_SELECTORS.subtitle
    /\ Metadata.author metadata
       = match Js.orElse (extractWithSelectors doc CSS_SELECTORS.author)
                         (Some "Unknown Author") with
         | Some x => x
         | None => "Unknown Author"
         end
    /\ Metadata.publishedDate metadata = extractPublishedDate now doc
    /\ Metadata.readingTime metadata
       = match extractWithSelectors doc CSS_SELECTORS.readingTime with
         | Some x => matchMinutes x
         | None => None
         end.
Proof.
  unfold extractMetadata.
  destruct (extractWithSelectors doc CSS_SELECTORS.title) as [t |];
    [| discriminate].
  destruct (Js.truthy t) eqn:Et; cbn [negb]; [| discriminate].
  intros [= <-]. exists t. cbn. auto 10.
Qed.

(** X1.  The article carries the URL it was asked for; its title and author
    are never empty, and title, author and subtitle have no surrounding
    white space; its published date is not empty as long as the clock's
    instant is not. *)
Theorem scrapeArticle_metadata_fields (pageUrl : string)
                                      (log log' : list string)
                                      (a : Article) :
  scrapeArticle parseURL net load render now pageUrl log = (inr a, log') ->
  url a = pageUrl
  /\ title a <> EmptyString /\ Js.trim (title a) = title a
  /\ author a <> EmptyString /\ Js.trim (author a) = author a
  /\ (forall s, subtitle a = Some s -> Js.trim s = s)
  /\ (now <> EmptyString -> publishedDate a <> EmptyString).
Proof.
  intros H.
  apply scrapeArticle_fields in H
    as (html & md & _ & Hm & -> & -> & -> & -> & -> & _).
  apply extractMetadata_inv in Hm
    as (t & Ht & Htr & -> & -> & -> & -> & -> & _).
  split; [reflexivity |].
  split; [now apply truthy_iff |].
  split; [now apply (extractWithSelectors_trimmed _ _ Ht) |].
  assert (Ha : forall o,
             (forall x, o = Some x -> Js.trim x = x) ->
             let r := match Js.orElse o (Some "Unknown Author") with
                      | Some x => x
                      | None => "Unknown Author"
                      end in
             r <> EmptyString /\ Js.trim r = r).
  { intros o Ho. unfold Js.orElse.
    destruct o as [x |]; cbn [Js.truthyOpt].
    - destruct (Js.truthy x) eqn:Ex.
      + split; [now apply truthy_iff | now apply Ho].
      + split; [discriminate | reflexivity].
    - split; [discriminate | reflexivity]. }
  destruct (Ha (extractWithSelectors (load html) CSS_SELECTORS.author))
    as [Ha1 Ha2].
  { intros x Hx. now apply (extractWithSelectors_trimmed _ _ Hx). }
  split; [exact Ha1 |]. split; [exact Ha2 |].
  split.
  - intros s Hs. now apply (extractWithSelectors_trimmed _ _ Hs).
  - intros Hnow. unfold extractPublishedDate.
    destruct (Js.truthy (publishedDateLoop (load html)
                           CSS_SELECTORS.publishedDate "")) eqn:E;
      cbn [negb]; [now apply truthy_iff | exact Hnow].
Qed.

(** X2.  The reading time of an article, when present, has the shape
    [digits, white space, min], and is a part of the text that the
    reading-time selectors gave (all of it, when the text is such a
    match). *)
Theorem scrapeArticle_reading_time (pageUrl : string)
                                   (log log' : list string)
                                   (a : Article) (m : string) :
  scrapeArticle parseURL net load render now pageUrl log = (inr a, log') ->
  readingTime a = Some m ->
  (exists digits spaces,
      m = (digits ++ spaces ++ "min")%string
      /\ digits <> EmptyString
      /\ Js.allChars Js.isDigit digits = true
      /\ Js.allChars Js.isSpace spaces = true)
  /\ exists html text,
       fst (fetchHtml net pageUrl log) = inr html
       /\ extractWithSelectors (load html) CSS_SELECTORS.readingTime
          = Some text
       /\ Spec.occursIn m text.
Proof.
  intros H Hm.
  apply scrapeArticle_fields in H
    as (html & md & Hf & Hmd & _ & _ & _ & _ & _ & Hr).
  apply extractMetadata_inv in Hmd as (t & _ & _ & _ & _ & _ & _ & _ & Hrt).
  rewrite Hr, Hrt in Hm.
  destruct (extractWithSelectors (load html) CSS_SELECTORS.readingTime)
    as [x |] eqn:Ex; [| discriminate].
  apply matchMinutes_shape in Hm as [Hs Ho].
  split; [exact Hs |].
  exists html, x. split; [exact Hf |]. split; [exact Ex | exact Ho].
Qed.

End MetadataFacts.

(** The title, the author and the date of the article with one picture. *)
Lemma scrapeArticle_metadata_fields_witness :
  onePictureRun = (inr onePictureArticle, onePictureLog)
  /\ url onePictureArticle = "https://medium.com/@user/story"
  /\ title onePictureArticle = "Title"
  /\ author onePictureArticle = "Unknown Author"
  /\ publishedDate onePictureArticle <> EmptyString.
Proof.
  assert (H : scrapeArticle Example.parseURL
                (Example.serve "https://medium.com/@user/story" "<html>"
                               Example.pngResponse)
                (fun _ => onePicturePage) Example.render
                "2026-02-07T12:00:00.000Z"
                "https://medium.com/@user/story" []
              = (inr onePictureArticle, onePictureLog))
    by (vm_compute; reflexivity).
  split; [exact H |].
  destruct (scrapeArticle_metadata_fields Example.parseURL
              (Example.serve "https://medium.com/@user/story" "<html>"
                             Example.pngResponse)
              (fun _ => onePicturePage) Example.render
              "2026-02-07T12:00:00.000Z"
              "https://medium.com/@user/story" [] H)
    as (H1 & _ & _ & _ & _ & _ & H7).
  split; [exact H1 |].
  split; [reflexivity |]. split; [reflexivity |].
  apply H7. discriminate.
Defined.

(** The page that says [5 min read], and the page that says [5 min]: the
    reading time is [5 min] for both, the whole text for the second. *)
Lemma scrapeArticle_reading_time_witness :
  readingTime readTimeArticle = Some "5 min"
  /\ (exists digits spaces,
        "5 min" = (digits ++ spaces ++ "min")%string
        /\ digits <> EmptyString
        /\ Js.allChars Js.isDigit digits = true
        /\ Js.allChars Js.isSpace spaces = true)
  /\ extractWithSelectors readTimePage CSS_SELECTORS.readingTime
     = Some "5 min read"
  /\ match extractWithSelectors wholeReadTimePage
                                CSS_SELECTORS.readingTime with
     | Some text => text = "5 min" /\ matchMinutes text = Some "5 min"
     | None => False
     end.
Proof.
  split; [reflexivity |].
  split.
  - apply (scrapeArticle_reading_time Example.parseURL
             (Example.serve "https://medium.com/@user/story" "<html>"
                            Example.pngResponse)
             (fun _ => readTimePage) Example.render
             "2026-02-07T12:00:00.000Z"
             "https://medium.com/@user/story" [] (a := readTimeArticle)
             (log' := ["https://medium.com/@user/story"])).
    + vm_compute. reflexivity.
    + reflexivity.
  - split; [reflexivity |]. vm_compute. split; reflexivity.
Defined.

(** ** Requests and errors of a scrape *)

Lemma imageStep_http (st : list ImageData.t * list string) (el : node) :
  Forall (fun d => Js.startsWith (ImageData.url d) "http" = true) (fst st) ->
  Forall (fun d => Js.startsWith (ImageData.url d) "http" = true)
         (fst (imageStep st el)).
Proof.
  destruct st as [images seen]. unfold imageStep.
  destruct (Js.orElse (attr el "src") (attr el "data-src")) as [src |];
    [| auto].
  destruct (Js.truthy src && negb (existsb (String.eqb src) seen)); [| auto].
  destruct (Js.startsWith src "//") eqn:E2.
  - rewrite orb_true_r. cbn [fst]. intros H.
    apply Forall_app. split; [exact H |].
    constructor; [reflexivity | constructor].
  - rewrite orb_false_r. destruct (Js.startsWith src "http") eqn:E1;
      [| auto].
    cbn [fst]. intros H. apply Forall_app. split; [exact H |].
    constructor; [exact E1 | constructor].
Qed.

Lemma extractImages_http (doc : document) (contentSelector : selector) :
  Forall (fun d => Js.startsWith (ImageData.url d) "http" = true)
         (extractImages doc contentSelector).
Proof.
  unfold extractImages.
  generalize (map elem (find doc (select doc contentSelector) (tag "img"))).
  assert (H : Forall (fun d => Js.startsWith (ImageData.url d) "http" = true)
                     (fst (@nil ImageData.t, @nil string)))
    by constructor.
  revert H. generalize (@nil ImageData.t, @nil string).
  intros st H l. revert st H.
  induction l as [| el l IH]; intros st H; [exact H |].
  cbn [fold_left]. apply IH. now apply imageStep_http.
Qed.

Lemma extractImages_no_container (doc : document)
                                 (contentSelector : selector) :
  select doc contentSelector = [] -> extractImages doc contentSelector = [].
Proof.
  intros E. unfold extractImages, find. rewrite E. cbn [existsb].
  assert (Hnil : forall l : list located,
             filter (fun e => matches (tag "img") (ancestors e) (elem e)
                              && false) l = []).
  { induction l as [| x l IH]; [reflexivity |].
    cbn [filter]. now rewrite andb_false_r. }
  now rewrite Hnil.
Qed.

Lemma imagesFrom_urls (net : nat -> string -> FetchOutcome) (k : nat)
                      (l : list ImageData.t) :
  map originalUrl (imagesFrom net k l) = map ImageData.url l.
Proof.
  revert k. induction l as [| d l IH]; intros k; [reflexivity |].
  cbn [imagesFrom map originalUrl]. now rewrite IH.
Qed.

Lemma fetchHtml_error_code (net : nat -> string -> FetchOutcome)
                           (url : string) (log : list string)
                           (e : ScraperError) :
  fst (fetchHtml net url log) = inl e ->
  code e = TIMEOUT \/ code e = NOT_FOUND \/ code e = NETWORK_ERROR.
Proof.
  rewrite fetchHtml_unfold.
  destruct (net (List.length log) url) as [name | response].
  - destruct (name =? "AbortError")%string; intros [= <-]; auto.
  - destruct (status response =? 404)%Z; [intros [= <-]; auto |].
    destruct (negb (ok response)); [intros [= <-]; auto |].
    destruct (body response) as [name | text]; [| discriminate].
    destruct (name =? "AbortError")%string; intros [= <-]; auto.
Qed.

Lemma checkPaywall_error_code (doc : document) (e : ScraperError) :
  checkPaywall doc = inl e -> code e = PAYWALL.
Proof.
  unfold checkPaywall.
  destruct (existsb _ _); [now intros [= <-] |].
  destruct (_ || _); [| discriminate].
  destruct (_ <? _)%nat; [now intros [= <-] | discriminate].
Qed.

Lemma extractMetadata_error (now : string) (doc : document) (url : string)
                            (e : ScraperError) :
  extractMetadata now doc url = inl e ->
  code e = PARSE_ERROR.
Proof.
  unfold extractMetadata.
  destruct (extractWithSelectors doc CSS_SELECTORS.title) as [t |].
  - destruct (Js.truthy t); cbn [negb]; [discriminate |]. now intros [= <-].
  - now intros [= <-].
Qed.

Section RequestFacts.

Variable parseURL : string -> option URL.
Variable net : nat -> string -> FetchOutcome.
Variable load : string -> document.
Variable render : list node -> string.
Variable now : string.

(** The stages of [scrapeArticle], with the requests they make. *)
Lemma scrapeArticle_unfold (pageUrl : string) (log : list string) :
  scrapeArticle parseURL net load render now pageUrl log
  = match validateMediumUrl parseURL pageUrl with
    | inl e => (inl e, log)
    | inr _ =>
        match fst (fetchHtml net pageUrl log) with
        | inl e => (inl e, log ++ [pageUrl])
        | inr html =>
            let doc := load html in
            match checkPaywall doc with
            | inl e => (inl e, log ++ [pageUrl])
            | inr _ =>
                match extractMetadata now doc pageUrl with
                | inl e => (inl e, log ++ [pageUrl])
                | inr metadata =>
                    let contentSelector := contentSelectorOf doc in
                    let imageData :=
                      firstn MAX_IMAGES_PER_ARTICLE
                             (extractImages doc contentSelector) in
                    let content := cleanHtml render doc contentSelector in
                    (if negb (Js.truthy content) then
                       throw PARSE_ERROR (ERROR_MESSAGES PARSE_ERROR)
                     else
                       inr {| url := Metadata.url metadata;
                              title := Metadata.title metadata;
                              subtitle := Metadata.subtitle metadata;
                              author := Metadata.author metadata;
                              publishedDate :=
                                Metadata.publishedDate metadata;
                              readingTime := Metadata.readingTime metadata;
                              content := content;
                              images :=
                                imagesFrom net (S (List.length log))
                                           imageData;
                              tags := Metadata.tags metadata |},
                     log ++ pageUrl :: map ImageData.url imageData)
                end
            end
        end
    end.
Proof.
  unfold scrapeArticle, bindE, bind, ret.
  destruct (validateMediumUrl parseURL pageUrl) as [e | u]; [reflexivity |].
  pose proof (fetchHtml_log net pageUrl log) as Hl.
  destruct (fetchHtml net pageUrl log) as [[e | html] l1]; cbn [fst snd] in *;
    subst l1; [reflexivity |].
  destruct (checkPaywall (load html)) as [e | u']; [reflexivity |].
  destruct (extractMetadata now (load html) pageUrl) as [e | metadata];
    [reflexivity |].
  rewrite downloadAllImages_unfold. cbv zeta.
  rewrite length_app, Nat.add_1_r, <- app_assoc. cbn [app].
  destruct (negb _); reflexivity.
Qed.

(** X3.  A URL that fails validation costs no request.  Otherwise the first
    request is for the page, and it is followed by at most 50 requests,
    each for a URL that starts with [http]; when the call fails before
    the images are collected the page is the only request. *)
Theorem scrapeArticle_requests (pageUrl : string) (log : list string) :
  let run := scrapeArticle parseURL net load render now pageUrl log in
  match validateMediumUrl parseURL pageUrl with
  | inl e => run = (inl e, log)
  | inr _ =>
      exists later,
        snd run = log ++ pageUrl :: later
        /\ List.length later <= 50
        /\ Forall (fun u => Js.startsWith u "http" = true) later
        /\ (forall e, fst run = inl e -> code e <> PARSE_ERROR -> later = [])
  end.
Proof.
  cbv zeta. rewrite scrapeArticle_unfold.
  destruct (validateMediumUrl parseURL pageUrl) as [e | u]; [reflexivity |].
  assert (Hnone : exists later,
             log ++ [pageUrl] = log ++ pageUrl :: later
             /\ List.length later <= 50
             /\ Forall (fun u => Js.startsWith u "http" = true) later
             /\ later = []).
  { exists []. repeat split; [simpl; lia | constructor]. }
  destruct (fst (fetchHtml net pageUrl log)) as [e | html].
  { destruct Hnone as (later & H1 & H2 & H3 & H4).
    exists later. cbn [fst snd]. auto. }
  cbv zeta.
  destruct (checkPaywall (load html)) as [e | u'].
  { destruct Hnone as (later & H1 & H2 & H3 & H4).
    exists later. cbn [fst snd]. auto. }
  destruct (extractMetadata now (load html) pageUrl) as [e | metadata] eqn:Em.
  { destruct Hnone as (later & H1 & H2 & H3 & H4).
    exists later. cbn [fst snd]. auto. }
  cbn [fst snd].
  exists (map ImageData.url
              (firstn MAX_IMAGES_PER_ARTICLE
                      (extractImages (load html)
                                     (contentSelectorOf (load html))))).
  split; [reflexivity |].
  split.
  { rewrite length_map, length_firstn. unfold MAX_IMAGES_PER_ARTICLE. lia. }
  split.
  { apply Forall_map.
    pose proof (extractImages_http (load html)
                  (contentSelectorOf (load html))) as H.
    revert H. generalize (extractImages (load html)
                            (contentSelectorOf (load html))).
    generalize MAX_IMAGES_PER_ARTICLE.
    induction n as [| n IH]; intros l H; [constructor |].
    destruct H as [| d l Hd H]; [constructor |].
    cbn [firstn]. constructor; [exact Hd | now apply IH]. }
  intros e. destruct (negb _); [| discriminate].
  intros [= <-] Hc. now contradiction Hc.
Qed.

(** X4.  The page request and the image requests of a successful call: the
    images of the article are requested once each, in their order, after
    the page. *)
Theorem scrapeArticle_success_requests (pageUrl : string)
                                       (log log' : list string)
                                       (a : Article) :
  scrapeArticle parseURL net load render now pageUrl log = (inr a, log') ->
  log' = log ++ pageUrl :: map originalUrl (images a)
  /\ forall i img,
       nth_error (images a) i = Some img ->
       base64 img
       = imageOfOutcome (net (S (List.length log) + i) (originalUrl img)).
Proof.
  rewrite scrapeArticle_unfold.
  destruct (validateMediumUrl parseURL pageUrl) as [e | u]; [discriminate |].
  destruct (fst (fetchHtml net pageUrl log)) as [e | html]; [discriminate |].
  cbv zeta.
  destruct (checkPaywall (load html)) as [e | u']; [discriminate |].
  destruct (extractMetadata now (load html) pageUrl) as [e | metadata];
    [discriminate |].
  generalize (firstn MAX_IMAGES_PER_ARTICLE
                     (extractImages (load html)
                                    (contentSelectorOf (load html)))).
  intros l.
  destruct (negb _); [discriminate |].
  intros [= <- <-]. cbn [images]. split.
  - f_equal. f_equal. symmetry. apply imagesFrom_urls.
  - intros i img Hi.
    destruct (nth_error l i) as [d |] eqn:Ed.
    + rewrite (imagesFrom_nth net (S (List.length log)) _ _ Ed) in Hi.
      now injection Hi as <-.
    + apply nth_error_None in Ed.
      assert (i < List.length (imagesFrom net (S (List.length log)) l))
        by (apply nth_error_Some; congruence).
      rewrite imagesFrom_length in *. lia.
Qed.

(** X5.  The error of a failed call names the stage that failed, and says
    which requests had been made by then. *)
Theorem scrapeArticle_error_stage (pageUrl : string) (log log' : list string)
                                  (e : ScraperError) :
  scrapeArticle parseURL net load render now pageUrl log = (inl e, log') ->
  match code e with
  | INVALID_URL =>
      validateMediumUrl parseURL pageUrl = inl e /\ log' = log
  | TIMEOUT | NOT_FOUND | NETWORK_ERROR =>
      validateMediumUrl parseURL pageUrl = inr tt
      /\ fst (fetchHtml net pageUrl log) = inl e
      /\ log' = log ++ [pageUrl]
  | PAYWALL =>
      exists html,
        fst (fetchHtml net pageUrl log) = inr html
        /\ checkPaywall (load html) = inl e
        /\ log' = log ++ [pageUrl]
  | PARSE_ERROR =>
      exists html,
        fst (fetchHtml net pageUrl log) = inr html
        /\ checkPaywall (load html) = inr tt
        /\ ((extractMetadata now (load html) pageUrl = inl e
             /\ log' = log ++ [pageUrl])
            \/ cleanHtml render (load html) (contentSelectorOf (load html))
               = EmptyString)
  end.
Proof.
  rewrite scrapeArticle_unfold.
  destruct (validateMediumUrl parseURL pageUrl) as [e0 | []] eqn:Ev.
  { intros [= <- <-]. rewrite (validateMediumUrl_code _ _ Ev). auto. }
  destruct (fst (fetchHtml net pageUrl log)) as [e0 | html] eqn:Ef.
  { intros [= <- <-].
    destruct (fetchHtml_error_code _ _ _ Ef) as [-> | [-> | ->]]; auto. }
  cbv zeta.
  destruct (checkPaywall (load html)) as [e0 | []] eqn:Ep.
  { intros [= <- <-]. rewrite (checkPaywall_error_code _ Ep).
    exists html. auto. }
  destruct (extractMetadata now (load html) pageUrl) as [e0 | metadata] eqn:Em.
  { intros [= <- <-].
    rewrite (extractMetadata_error _ _ _ Em).
    exists html. auto. }
  destruct (Js.truthy (cleanHtml render (load html)
                         (contentSelectorOf (load html)))) eqn:Et;
    cbn [negb]; [discriminate |].
  intros [= <- <-]. cbn [code]. exists html.
  split; [reflexivity |]. split; [exact Ep |]. right.
  unfold Js.truthy in Et. apply negb_false_iff in Et.
  now apply String.eqb_eq in Et.
Qed.

End RequestFacts.

(** The run on the page with one picture: the page, then the picture. *)
Lemma scrapeArticle_success_requests_witness :
  onePictureRun = (inr onePictureArticle, onePictureLog)
  /\ onePictureLog
     = [] ++ "https://medium.com/@user/story"
          :: map originalUrl (images onePictureArticle).
Proof.
  assert (H : scrapeArticle Example.parseURL
                (Example.serve "https://medium.com/@user/story" "<html>"
                               Example.pngResponse)
                (fun _ => onePicturePage) Example.render
                "2026-02-07T12:00:00.000Z"
                "https://medium.com/@user/story" []
              = (inr onePictureArticle, onePictureLog))
    by (vm_compute; reflexivity).
  split; [exact H |].
  exact (proj1 (scrapeArticle_success_requests Example.parseURL
                  (Example.serve "https://medium.com/@user/story" "<html>"
                                 Example.pngResponse)
                  (fun _ => onePicturePage) Example.render
                  "2026-02-07T12:00:00.000Z"
                  "https://medium.com/@user/story" [] H)).
Defined.

(** A URL that is not https: rejected before any request. *)
Lemma scrapeArticle_error_stage_witness :
  validateMediumUrl Example.parseURL "http://medium.com/@user/story"
  = inl (ScraperException INVALID_URL "Only HTTPS URLs are allowed")
  /\ @nil string = [].
Proof.
  apply (scrapeArticle_error_stage Example.parseURL
           (Example.serve "https://medium.com/@user/story" "<html>"
                          Example.pngResponse)
           (fun _ => onePicturePage) Example.render
           "2026-02-07T12:00:00.000Z"
           "http://medium.com/@user/story" []
           (e := ScraperException INVALID_URL "Only HTTPS URLs are allowed")
           (log' := [])).
  vm_compute. reflexivity.
Defined.

(** ** Data URIs *)

Lemma imageOfOutcome_image (outcome : FetchOutcome) (d : string) :
  imageOfOutcome outcome = Some d ->
  Js.startsWith d "data:image/" = true.
Proof.
  unfold imageOfOutcome.
  destruct outcome as [name | response]; [discriminate |].
  destruct (negb (ok response)); [discriminate |].
  set (contentType := match Js.orElse _ _ with
                      | Some c => c
                      | None => "image/jpeg"
                      end).
  destruct (Js.startsWith contentType "image/") eqn:E; cbn [negb];
    [| discriminate].
  destruct (declaredTooLarge _); [discriminate |].
  destruct (body response) as [name | arrayBuffer]; [discriminate |].
  destruct (_ >? _)%Z; [discriminate |].
  intros [= <-]. apply prefix_iff in E as [r ->].
  apply prefix_iff. unfold dataUri.
  exists (r ++ ";base64," ++ toBase64 arrayBuffer)%string.
  cbn [String.append]. reflexivity.
Qed.

Section DataUriFacts.

Variable parseURL : string -> option URL.
Variable net : nat -> string -> FetchOutcome.
Variable load : string -> document.
Variable render : list node -> string.
Variable now : string.

(** X6.  Every data URI of an article is that of an image: it starts with
    [data:image/], whatever content type the server declared; and one
    download gives such a URI or nothing. *)
Theorem scrapeArticle_data_uris (pageUrl : string) (log log' : list string)
                                (a : Article) :
  scrapeArticle parseURL net load render now pageUrl log = (inr a, log') ->
  forall img d,
    In img (images a) -> base64 img = Some d ->
    Js.startsWith d "data:image/" = true.
Proof.
  intros H img d Hin Hd.
  apply scrapeArticle_success in H
    as (html & metadata & _ & _ & _ & _ & Hi & _).
  rewrite downloadAllImages_unfold in Hi. cbn [fst] in Hi.
  rewrite Hi in Hin. apply imagesFrom_In in Hin as [outcome Ho].
  rewrite Ho in Hd. now apply imageOfOutcome_image in Hd.
Qed.

End DataUriFacts.

Lemma scrapeArticle_data_uris_witness :
  onePictureRun = (inr onePictureArticle, onePictureLog)
  /\ exists img d,
       images onePictureArticle = [img]
       /\ base64 img = Some d
       /\ Js.startsWith d "data:image/" = true.
Proof.
  assert (H : scrapeArticle Example.parseURL
                (Example.serve "https://medium.com/@user/story" "<html>"
                               Example.pngResponse)
                (fun _ => onePicturePage) Example.render
                "2026-02-07T12:00:00.000Z"
                "https://medium.com/@user/story" []
              = (inr onePictureArticle, onePictureLog))
    by (vm_compute; reflexivity).
  split; [exact H |].
  eexists _, _. split; [reflexivity |]. split; [reflexivity |].
  eapply (scrapeArticle_data_uris Example.parseURL
            (Example.serve "https://medium.com/@user/story" "<html>"
                           Example.pngResponse)
            (fun _ => onePicturePage) Example.render
            "2026-02-07T12:00:00.000Z"
            "https://medium.com/@user/story" [] H).
  - left. reflexivity.
  - reflexivity.
Defined.

(** ** White space of the cleaned markup *)

Lemma append_nil_r (s : string) : (s ++ "")%string = s.
Proof. induction s as [| c s IH]; simpl; [reflexivity | now rewrite IH]. Qed.

Lemma allChars_app (p : ascii -> bool) (a b : string) :
  Js.allChars p (a ++ b) = Js.allChars p a && Js.allChars p b.
Proof.
  induction a as [| c a IH]; simpl; [reflexivity |].
  now rewrite IH, andb_assoc.
Qed.

Lemma headIsSpace_collapse (s : string) :
  headIsSpace (collapseWhitespace s) = headIsSpace s.
Proof.
  induction s as [| c r IH]; [reflexivity |].
  cbn [collapseWhitespace headIsSpace].
  destruct (Js.isSpace c) eqn:Ec.
  - destruct r as [| c' r']; [reflexivity |].
    destruct (Js.isSpace c') eqn:Ec'.
    + rewrite IH. simpl. exact Ec'.
    + reflexivity.
  - simpl. exact Ec.
Qed.

Lemma tidy_collapse (s : string) : tidy (collapseWhitespace s).
Proof.
  induction s as [| c r IH]; [exact I |].
  cbn [collapseWhitespace].
  destruct (Js.isSpace c) eqn:Ec.
  - destruct r as [| c' r'].
    + simpl. split; [| exact I]. intros _. split; reflexivity.
    + destruct (Js.isSpace c') eqn:Ec'; [exact IH |].
      cbn [tidy]. split; [| exact IH].
      intros _. split; [reflexivity |].
      rewrite headIsSpace_collapse. simpl. exact Ec'.
  - cbn [tidy]. split; [| exact IH]. intros H. congruence.
Qed.

Lemma joinTags_pending_head (s ws : string) :
  exists t, joinTags (Some ws) s = String ">" t.
Proof.
  revert ws. induction s as [| c r IH]; intros ws.
  - simpl. eauto.
  - cbn [joinTags]. destruct (Js.isSpace c); [apply IH |].
    destruct (c =? "<")%char; [simpl; eauto |].
    destruct (c =? ">")%char; simpl; eauto.
Qed.

Lemma headIsSpace_joinTags (s : string) :
  headIsSpace (joinTags None s) = headIsSpace s.
Proof.
  destruct s as [| c r]; [reflexivity |].
  cbn [joinTags]. destruct (Ascii.eqb_spec c ">") as [-> | Hc].
  - destruct (joinTags_pending_head r "") as [t ->]. reflexivity.
  - reflexivity.
Qed.

Lemma headIsSpace_app (p x y : string) (c : ascii) :
  headIsSpace (p ++ String c x) = headIsSpace (p ++ String c y).
Proof. destruct p; reflexivity. Qed.

Lemma tidy_splice (p x y : string) (c : ascii) :
  tidy (p ++ String c x) -> tidy (String c y) -> tidy (p ++ String c y).
Proof.
  intros Hx Hy. induction p as [| d p IH]; [exact Hy |].
  cbn [String.append tidy] in *. destruct Hx as [Hd Hx].
  split; [| now apply IH].
  intros E. destruct (Hd E) as [-> Hh]. split; [reflexivity |].
  now rewrite (headIsSpace_app p y x c).
Qed.

Lemma tidy_suffix (a b : string) : tidy (a ++ b) -> tidy b.
Proof.
  induction a as [| c a IH]; [auto |].
  cbn [String.append tidy]. intros [_ H]. now apply IH.
Qed.

Lemma tidy_joinTags (s : string) :
  (tidy s -> tidy (joinTags None s))
  /\ (forall ws,
         Js.allChars Js.isSpace ws = true ->
         tidy (String ">" (ws ++ s)) ->
         tidy (joinTags (Some ws) s)).
Proof.
  induction s as [| c r [IH1 IH2]].
  - split; [auto |]. intros ws _ H. cbn [joinTags].
    now rewrite append_nil_r in H.
  - split.
    + intros H. cbn [joinTags].
      destruct (Ascii.eqb_spec c ">") as [-> | Hc].
      * apply IH2; [reflexivity | exact H].
      * cbn [tidy] in *. destruct H as [Hc' Hr].
        split; [| now apply IH1].
        intros E. destruct (Hc' E) as [-> Hh]. split; [reflexivity |].
        now rewrite headIsSpace_joinTags.
    + intros ws Hws H. cbn [joinTags].
      assert (Hr : tidy r).
      { apply (tidy_suffix (String ">" (ws ++ String c EmptyString))).
        cbn [String.append]. rewrite append_assoc. exact H. }
      destruct (Js.isSpace c) eqn:Ec.
      { apply IH2.
        - rewrite allChars_app, Hws. simpl. now rewrite Ec.
        - rewrite append_assoc. exact H. }
      destruct (Ascii.eqb_spec c "<") as [-> | Hlt].
      { cbn [String.append tidy]. split; [discriminate |].
        split; [discriminate | now apply IH1]. }
      destruct (Ascii.eqb_spec c ">") as [-> | Hgt].
      { destruct (joinTags_pending_head r "") as [t Et].
        assert (Ht : tidy (joinTags (Some "") r)).
        { apply IH2; [reflexivity |].
          apply (tidy_suffix (String ">" ws)). exact H. }
        rewrite Et in *.
        change (tidy (String ">" ws ++ String ">" t)).
        apply tidy_splice with (x := r); [exact H | exact Ht]. }
      change (tidy (String ">" ws ++ String c (joinTags None r))).
      apply tidy_splice with (x := r); [exact H |].
      cbn [tidy]. split; [congruence | now apply IH1].
Qed.

Lemma tidy_runs (s a w b : string) :
  tidy s -> s = (a ++ w ++ b)%string ->
  Js.allChars Js.isSpace w = true ->
  w = EmptyString \/ w = " ".
Proof.
  intros Hs -> Hw. apply tidy_suffix in Hs.
  destruct w as [| c w]; [now left |]. right.
  simpl in Hw. apply andb_prop in Hw as [Hc Hw].
  cbn [String.append tidy] in Hs. destruct Hs as [Hs _].
  destruct (Hs Hc) as [-> Hh].
  destruct w as [| d w]; [reflexivity |].
  simpl in Hw, Hh. rewrite Hh in Hw. discriminate.
Qed.

Lemma sealed_suffix (a b : string) : sealed (a ++ b) -> sealed b.
Proof.
  induction a as [| c a IH]; [auto |].
  cbn [String.append sealed]. intros [_ H]. now apply IH.
Qed.

Lemma sealed_spaces (ws x : string) :
  Js.allChars Js.isSpace ws = true -> sealed x -> sealed (ws ++ x).
Proof.
  intros Hws Hx. induction ws as [| c ws IH]; [exact Hx |].
  simpl in Hws. apply andb_prop in Hws as [Hc Hws].
  cbn [String.append sealed]. split; [| now apply IH].
  intros ->. discriminate.
Qed.

Lemma gapAt_spaces (ws x : string) :
  Js.allChars Js.isSpace ws = true ->
  headIsSpace x = false ->
  (forall t, x <> String "<" t) ->
  gapAt (ws ++ x) = false.
Proof.
  intros Hws Hx Hlt.
  destruct ws as [| d [| e ws]]; cbn [String.append].
  - destruct x as [| c [| c' x']]; [reflexivity | reflexivity |].
    simpl in *. now rewrite Hx.
  - destruct x as [| c x']; [reflexivity |].
    simpl. destruct (Ascii.eqb_spec c "<") as [-> | Hc].
    + now contradiction (Hlt x').
    + apply andb_false_r.
  - simpl in *. apply andb_prop in Hws as [_ Hws].
    apply andb_prop in Hws as [He _].
    destruct (Ascii.eqb_spec e "<") as [-> | Hc]; [discriminate |].
    apply andb_false_r.
Qed.

Lemma sealed_joinTags (s : string) :
  sealed (joinTags None s)
  /\ (forall ws,
         Js.allChars Js.isSpace ws = true -> sealed (joinTags (Some ws) s)).
Proof.
  induction s as [| c r [IH1 IH2]].
  - split; [exact I |]. intros ws Hws. cbn [joinTags].
    cbn [String.append sealed]. split.
    + intros _. rewrite <- (append_nil_r ws).
      apply gapAt_spaces; [exact Hws | reflexivity | discriminate].
    + rewrite <- (append_nil_r ws). now apply sealed_spaces.
  - split.
    + cbn [joinTags]. destruct (Ascii.eqb_spec c ">") as [-> | Hc].
      * now apply IH2.
      * cbn [sealed]. split; [congruence | exact IH1].
    + intros ws Hws. cbn [joinTags].
      destruct (Js.isSpace c) eqn:Ec.
      { apply IH2. rewrite allChars_app, Hws. simpl. now rewrite Ec. }
      destruct (Ascii.eqb_spec c "<") as [-> | Hlt].
      { cbn [String.append sealed]. split.
        - intros _. cbn [gapAt]. destruct (joinTags None r); reflexivity.
        - split; [discriminate | exact IH1]. }
      destruct (Ascii.eqb_spec c ">") as [-> | Hgt].
      { cbn [String.append sealed].
        destruct (joinTags_pending_head r "") as [t Et].
        specialize (IH2 "" eq_refl). rewrite Et in *.
        split.
        - intros _. apply gapAt_spaces; [exact Hws | reflexivity |].
          discriminate.
        - now apply sealed_spaces. }
      cbn [String.append sealed]. split.
      * intros _. apply gapAt_spaces; [exact Hws | exact Ec |].
        intros t [= -> _]. now contradiction Hlt.
      * apply sealed_spaces; [exact Hws |].
        cbn [sealed]. split; [congruence | exact IH1].
Qed.

Lemma sealed_gaps (s a w b : string) :
  tidy s -> sealed s ->
  s = (a ++ ">" ++ w ++ "<" ++ b)%string ->
  Js.allChars Js.isSpace w = true ->
  w = EmptyString.
Proof.
  intros Ht Hs E Hw.
  assert (Hrun : w = EmptyString \/ w = " ").
  { apply (@tidy_runs s (a ++ ">") w ("<" ++ b)); [exact Ht | | exact Hw].
    rewrite E. now rewrite append_assoc. }
  destruct Hrun as [-> | ->]; [reflexivity |].
  rewrite E in Hs. apply sealed_suffix in Hs.
  cbn [String.append sealed] in Hs. destruct Hs as [Hs _].
  specialize (Hs eq_refl). discriminate.
Qed.

Lemma trimStart_suffix (s : string) :
  exists a, s = (a ++ Js.trimStart s)%string.
Proof.
  induction s as [| c s [a IH]]; [now exists EmptyString |].
  cbn [Js.trimStart]. destruct (Js.isSpace c).
  - exists (String c a). cbn [String.append]. now rewrite <- IH.
  - now exists EmptyString.
Qed.

Lemma trimEnd_prefix (s : string) :
  exists b, s = (Js.trimEnd s ++ b)%string.
Proof.
  induction s as [| c s [b IH]]; [now exists EmptyString |].
  cbn [Js.trimEnd]. cbv zeta.
  destruct (Js.isSpace c && (Js.trimEnd s =? ""))%string.
  - now exists (String c s).
  - exists b. cbn [String.append]. now rewrite <- IH.
Qed.

Lemma trim_substring (s : string) :
  exists a b, s = (a ++ Js.trim s ++ b)%string.
Proof.
  unfold Js.trim.
  destruct (trimStart_suffix s) as [a Ha].
  destruct (trimEnd_prefix (Js.trimStart s)) as [b Hb].
  exists a, b. now rewrite <- Hb.
Qed.

(** X7.  The markup that [cleanHtml] returns has no white space at either end;
    its white space is single plain spaces; and no white space is left
    between a [>] and the next [<]. *)
Theorem cleanHtml_whitespace (render : list node -> string) (doc : document)
                             (contentSelector : selector) :
  let out := cleanHtml render doc contentSelector in
  Js.trim out = out
  /\ (forall a w b,
        out = (a ++ w ++ b)%string ->
        Js.allChars Js.isSpace w = true ->
        w = EmptyString \/ w = " ")
  /\ (forall a w b,
        out = (a ++ ">" ++ w ++ "<" ++ b)%string ->
        Js.allChars Js.isSpace w = true ->
        w = EmptyString).
Proof.
  cbv zeta. rewrite cleanHtml_serializes.
  destruct (cleanContainer doc contentSelector) as [| first rest].
  { split; [reflexivity |]. split.
    - intros a w b E _. left.
      destruct a; [destruct w; [reflexivity | discriminate] | discriminate].
    - intros a w b E _. destruct a; discriminate. }
  set (y := joinTags None (collapseWhitespace (render (childrenOf first)))).
  rewrite !trim_idem.
  assert (Hy : tidy y).
  { apply (proj1 (tidy_joinTags _)). apply tidy_collapse. }
  assert (Hs : sealed y) by apply (proj1 (sealed_joinTags _)).
  destruct (trim_substring y) as (a0 & b0 & E0).
  split; [reflexivity |]. split.
  - intros a w b E Hw.
    apply (@tidy_runs y (a0 ++ a) w (b ++ b0)); [exact Hy | | exact Hw].
    rewrite E0 at 1. rewrite E. now rewrite !append_assoc.
  - intros a w b E Hw.
    apply (@sealed_gaps y (a0 ++ a) w (b ++ b0)); [exact Hy | exact Hs | |
                                                    exact Hw].
    rewrite E0 at 1. rewrite E. now rewrite !append_assoc.
Qed.

(** ** What the cleaning removes and what it keeps *)

Lemma testAttr_sub (t : attrTest) (name : string)
                   (attrs : list (string * string)) :
  testAttr t (cleanElementAttributes name attrs) = true ->
  testAttr t attrs = true.
Proof.
  destruct t as [k | k v | k v | k v | c]; cbn [testAttr];
    match goal with
    | |- context [getAttr ?key (cleanElementAttributes name attrs)] =>
        destruct (getAttr key (cleanElementAttributes name attrs)) as [x |]
                 eqn:E; [| discriminate];
        apply cleanElementAttributes_sub in E; rewrite E; auto
    end.
Qed.

Lemma matches_single (c : compound) (anc : list node) (n : node) :
  matches [c] anc n = matchesCompound c n.
Proof. unfold matches. cbn [rev app matchesUp]. apply andb_true_r. Qed.

Lemma removeMatching_single (c : compound) (n : node) :
  forall anc,
    Forall (deep (fun name attrs =>
                    matchesCompound c (Element name attrs []) = false))
           (childrenOf (removeMatching [c] anc n)).
Proof.
  induction n as [d | d | name attrs cs IH] using node_ind;
    [constructor | constructor |].
  intros anc. cbn [removeMatching childrenOf].
  apply Forall_flat_map.
  rewrite Forall_forall in *. intros x Hx.
  destruct (matches [c] _ x) eqn:Em; [constructor |].
  constructor; [| constructor].
  specialize (IH x Hx).
  destruct x as [d | d | cname cattrs ccs]; [exact I | exact I |].
  rewrite matches_single in Em.
  cbn [removeMatching]. apply deep_Element. split; [exact Em |].
  apply (IH (Element name attrs cs :: anc)).
Qed.

Lemma fold_removeMatching_single (c : compound) (sels : list selector)
                                 (n : node) :
  In [c] sels ->
  Forall (deep (fun name attrs =>
                  matchesCompound c (Element name attrs []) = false))
         (childrenOf (fold_left (fun x selector => removeMatching selector [] x)
                                sels n)).
Proof.
  revert n. induction sels as [| s sels IH]; intros n Hin; [destruct Hin |].
  cbn [fold_left]. destruct Hin as [-> | Hin].
  - apply fold_removeMatching_children. apply removeMatching_single.
  - now apply IH.
Qed.

Lemma ELEMENTS_TO_REMOVE_single (sel : selector) :
  In sel ELEMENTS_TO_REMOVE -> exists c, sel = [c].
Proof.
  unfold ELEMENTS_TO_REMOVE. cbn [In].
  intros H.
  repeat (destruct H as [<- | H]; [eexists; reflexivity |]).
  destruct H.
Qed.

(** X8.  Nothing that one of the selectors of [ELEMENTS_TO_REMOVE] matches is
    left below the cleaned container, wherever it sits. *)
Theorem cleanHtml_removes_listed (doc : document)
                                 (contentSelector : selector)
                                 (root : node) :
  In root (cleanContainer doc contentSelector) ->
  forall sel anc e,
    In sel ELEMENTS_TO_REMOVE -> Within root e -> matches sel anc e = false.
Proof.
  unfold cleanContainer. intros H sel anc e Hsel Hw.
  apply in_map_iff in H as (container & <- & H).
  apply in_map_iff in H as (c0 & <- & _).
  destruct (ELEMENTS_TO_REMOVE_single Hsel) as [c ->].
  rewrite matches_single.
  assert (Hkept : Forall (deep (fun name attrs =>
                                  matchesCompound c (Element name attrs [])
                                  = false))
                         (childrenOf (removeUnwantedElements c0))).
  { unfold removeUnwantedElements. apply removeEmpty_children.
    now apply fold_removeMatching_single. }
  assert (Hclean : Forall (deep (fun name attrs =>
                                   matchesCompound c (Element name attrs [])
                                   = false))
                          (childrenOf (cleanAttributes
                                         (removeUnwantedElements c0)))).
  { eapply cleanAttributes_children; [| exact Hkept].
    intros name attrs Hm. cbv beta in *.
    destruct (matchesCompound c (Element name
                                   (cleanElementAttributes name attrs) []))
             eqn:E; [| reflexivity].
    rewrite <- Hm. cbn [matchesCompound] in *.
    apply andb_prop in E as [E1 E2]. rewrite E1. cbn [andb].
    symmetry. apply forallb_forall. intros t Ht.
    rewrite forallb_forall in E2. apply (@testAttr_sub t name attrs).
    now apply E2. }
  apply (Within_deep _ Hclean) in Hw.
  destruct e as [d | d | name attrs cs]; [reflexivity | reflexivity |].
  now apply deep_Element in Hw as [Hw _].
Qed.

Lemma cleanHtml_removes_listed_witness :
  In clutteredClean (cleanContainer clutteredPage (tag "article"))
  /\ matches (any [AttrContains "class" "share"]) []
             (Example.p [Text "Body"]) = false.
Proof.
  assert (Hin : In clutteredClean
                   (cleanContainer clutteredPage (tag "article")))
    by (left; reflexivity).
  split; [exact Hin |].
  apply (@cleanHtml_removes_listed clutteredPage (tag "article") _ Hin).
  - do 17 right. left. reflexivity.
  - apply within_child. right. left. reflexivity.
Defined.

(** *** Empty elements *)

Lemma hasImg_Element (name : string) (attrs : list (string * string))
                     (cs : list node) :
  hasImg (Element name attrs cs)
  = existsb (fun c => isImg c || hasImg c) cs.
Proof.
  cbn [hasImg]. induction cs as [| c r IH]; [reflexivity |].
  cbn [existsb]. now rewrite IH.
Qed.

Lemma text_Element (name : string) (attrs : list (string * string))
                   (cs : list node) :
  text (Element name attrs cs) = textOf cs.
Proof. reflexivity. Qed.

Lemma walk_img (n : node) :
  forall p anc,
    existsb (fun e => matches (tag "img") (ancestors e) (elem e))
            (walk p anc n)
    = isImg n || hasImg n.
Proof.
  induction n as [d | d | name attrs cs IH] using node_ind;
    [reflexivity | reflexivity |].
  intros p anc. cbn [walk existsb ancestors elem].
  rewrite matches_tag. cbn [isImg]. f_equal.
  rewrite hasImg_Element.
  set (anc' := Element name attrs cs :: anc). clearbody anc'.
  generalize 0 at 1.
  induction cs as [| c r IHr]; intros i; [reflexivity |].
  inversion IH as [| c' r' Hc Hr]; subst.
  rewrite existsb_app, Hc. cbn [existsb]. f_equal. now apply IHr.
Qed.

Lemma walkForest_img (l : list node) :
  forall p anc i,
    existsb (fun e => matches (tag "img") (ancestors e) (elem e))
            (walkForest p anc i l)
    = existsb (fun c => isImg c || hasImg c) l.
Proof.
  induction l as [| c r IH]; intros p anc i; [reflexivity |].
  cbn [walkForest existsb]. now rewrite existsb_app, walk_img, IH.
Qed.

Lemma length_filter_zero {A : Type} (f : A -> bool) (l : list A) :
  (List.length (filter f l) =? 0)%nat = negb (existsb f l).
Proof.
  induction l as [| a l IH]; [reflexivity |].
  cbn [filter existsb]. destruct (f a); [reflexivity | exact IH].
Qed.

Lemma findIn_img (el : node) :
  (List.length (findIn el (tag "img")) =? 0)%nat = negb (hasImg el).
Proof.
  unfold findIn, descendants. rewrite length_filter_zero, walkForest_img.
  destruct el as [d | d | name attrs cs]; [reflexivity | reflexivity |].
  now rewrite hasImg_Element.
Qed.

Lemma trim_eqb_empty (s : string) :
  (Js.trim s =? "")%string = Js.allChars Js.isSpace s.
Proof.
  destruct (String.eqb_spec (Js.trim s) "") as [E | E].
  - symmetry. now apply trim_empty_iff.
  - destruct (Js.allChars Js.isSpace s) eqn:Es; [| reflexivity].
    apply trim_empty_iff in Es. contradiction.
Qed.

(** The test of the second loop, in terms of the subtree. *)
Lemma isEmptyElement_eq (name : string) (attrs : list (string * string))
                        (cs : list node) :
  isEmptyElement (Element name attrs cs)
  = if existsb (String.eqb (if isTag name then Js.toLowerCase name else ""))
               ["img"; "br"; "hr"; "input"; "meta"; "link"]
    then false
    else Js.allChars Js.isSpace (textOf cs)
         && negb (hasImg (Element name attrs cs)).
Proof.
  unfold isEmptyElement. cbv zeta.
  destruct (existsb _ _); [reflexivity |].
  now rewrite trim_eqb_empty, findIn_img.
Qed.

Lemma isEmptyElement_inv (n : node) :
  isEmptyElement n = true ->
  Js.allChars Js.isSpace (text n) = true
  /\ isImg n = false /\ hasImg n = false.
Proof.
  destruct n as [d | d | name attrs cs]; [discriminate | discriminate |].
  rewrite isEmptyElement_eq.
  destruct (existsb _ _) eqn:Ev; [discriminate |].
  intros H. apply andb_prop in H as [Ht Hi].
  apply negb_true_iff in Hi.
  split; [exact Ht |]. split; [| exact Hi].
  cbn [isImg]. destruct (String.eqb_spec name "img") as [-> | Hn];
    [| reflexivity].
  discriminate Ev.
Qed.

Lemma removeEmpty_facts (n : node) :
  Js.allChars Js.isSpace (text (removeEmpty n))
  = Js.allChars Js.isSpace (text n)
  /\ hasImg (removeEmpty n) = hasImg n
  /\ isImg (removeEmpty n) = isImg n.
Proof.
  induction n as [d | d | name attrs cs IH] using node_ind; [auto | auto |].
  cbn [removeEmpty]. rewrite !text_Element, !hasImg_Element.
  split; [| split; [| reflexivity]].
  - induction cs as [| c r IHr]; [reflexivity |].
    inversion IH as [| c' r' Hc Hr]; subst.
    cbn [flat_map]. destruct (isEmptyElement c) eqn:Ec.
    + cbn [app textOf fold_right].
      change (fold_right (fun c acc => (text c ++ acc)%string) "" r)
        with (textOf r).
      rewrite allChars_app.
      apply isEmptyElement_inv in Ec as [Ec _]. rewrite Ec.
      cbn [andb]. now apply IHr.
    + cbn [app textOf fold_right].
      change (fold_right (fun c acc => (text c ++ acc)%string) ""
                (flat_map (fun c => if isEmptyElement c then []
                                    else [removeEmpty c]) r))
        with (textOf (flat_map (fun c => if isEmptyElement c then []
                                         else [removeEmpty c]) r)).
      change (fold_right (fun c acc => (text c ++ acc)%string) "" r)
        with (textOf r).
      rewrite !allChars_app. destruct Hc as [Hc _]. rewrite Hc.
      f_equal. now apply IHr.
  - induction cs as [| c r IHr]; [reflexivity |].
    inversion IH as [| c' r' Hc Hr]; subst.
    cbn [flat_map]. destruct (isEmptyElement c) eqn:Ec.
    + cbn [app existsb].
      apply isEmptyElement_inv in Ec as (_ & Ei & Eh). rewrite Ei, Eh.
      cbn [orb]. now apply IHr.
    + cbn [app existsb]. destruct Hc as (_ & Hh & Hi). rewrite Hh, Hi.
      f_equal. now apply IHr.
Qed.

Lemma removeEmpty_name (name : string) (attrs : list (string * string))
                       (cs : list node) :
  exists cs', removeEmpty (Element name attrs cs) = Element name attrs cs'.
Proof. cbn [removeEmpty]. eauto. Qed.

Lemma isEmptyElement_removeEmpty (n : node) :
  isEmptyElement (removeEmpty n) = isEmptyElement n.
Proof.
  destruct (removeEmpty_facts n) as (Ht & Hh & _).
  destruct n as [d | d | name attrs cs]; [reflexivity | reflexivity |].
  destruct (removeEmpty_name name attrs cs) as [cs' E]. rewrite E in *.
  rewrite !isEmptyElement_eq. rewrite Hh.
  rewrite !text_Element in Ht. now rewrite Ht.
Qed.

Lemma Within_removeEmpty (n e : node) :
  Within (removeEmpty n) e ->
  exists e0, e = removeEmpty e0 /\ isEmptyElement e0 = false.
Proof.
  assert (Hchild : forall m x,
             In x (childrenOf (removeEmpty m)) ->
             exists e0, x = removeEmpty e0 /\ isEmptyElement e0 = false).
  { intros m x Hx.
    destruct m as [d | d | name attrs cs]; [destruct Hx | destruct Hx |].
    cbn [removeEmpty childrenOf] in Hx.
    apply in_flat_map in Hx as (c & Hc & Hx).
    destruct (isEmptyElement c) eqn:Ec; [destruct Hx |].
    destruct Hx as [<- | []]. eauto. }
  intros H. induction H as [c Hc | c d Hw IH Hd].
  - now apply Hchild in Hc.
  - destruct IH as (c0 & -> & _). now apply Hchild in Hd.
Qed.

Lemma cleanAttributesNode_facts (n : node) :
  text (cleanAttributesNode n) = text n
  /\ hasImg (cleanAttributesNode n) = hasImg n
  /\ isImg (cleanAttributesNode n) = isImg n.
Proof.
  induction n as [d | d | name attrs cs IH] using node_ind; [auto | auto |].
  cbn [cleanAttributesNode]. rewrite !text_Element, !hasImg_Element.
  split; [| split; [| reflexivity]].
  - induction cs as [| c r IHr]; [reflexivity |].
    inversion IH as [| c' r' Hc Hr]; subst.
    cbn [map textOf fold_right]. destruct Hc as [Hc _]. rewrite Hc.
    f_equal. now apply IHr.
  - induction cs as [| c r IHr]; [reflexivity |].
    inversion IH as [| c' r' Hc Hr]; subst.
    cbn [map existsb]. destruct Hc as (_ & Hh & Hi). rewrite Hh, Hi.
    f_equal. now apply IHr.
Qed.

Lemma isEmptyElement_cleanAttributesNode (n : node) :
  isEmptyElement (cleanAttributesNode n) = isEmptyElement n.
Proof.
  destruct (cleanAttributesNode_facts n) as (Ht & Hh & _).
  destruct n as [d | d | name attrs cs]; [reflexivity | reflexivity |].
  cbn [cleanAttributesNode] in *.
  rewrite !isEmptyElement_eq. rewrite Hh.
  rewrite !text_Element in Ht. now rewrite Ht.
Qed.

Lemma Within_cleanAttributes_inv (container e : node) :
  Within (cleanAttributes container) e ->
  exists e0, Within container e0 /\ e = cleanAttributesNode e0.
Proof.
  intros H. induction H as [c Hc | c d Hw IH Hd].
  - rewrite childrenOf_cleanAttributes in Hc.
    apply in_map_iff in Hc as (c0 & <- & Hc0).
    exists c0. split; [now apply within_child | reflexivity].
  - destruct IH as (c0 & Hw0 & ->).
    rewrite childrenOf_cleanAttributesNode in Hd.
    apply in_map_iff in Hd as (d0 & <- & Hd0).
    exists d0. split; [| reflexivity].
    now apply within_step with (c := c0).
Qed.

(** X9.  No element left below the cleaned container is empty: each is a
    void element, or has text that is not white space, or has an image
    below it. *)
Theorem cleanHtml_no_empty_element (doc : document)
                                   (contentSelector : selector)
                                   (root e : node) :
  In root (cleanContainer doc contentSelector) ->
  Within root e ->
  isEmptyElement e = false.
Proof.
  unfold cleanContainer. intros H Hw.
  apply in_map_iff in H as (container & <- & H).
  apply in_map_iff in H as (c0 & <- & _).
  apply Within_cleanAttributes_inv in Hw as (e0 & Hw & ->).
  rewrite isEmptyElement_cleanAttributesNode.
  unfold removeUnwantedElements in Hw.
  apply Within_removeEmpty in Hw as (e1 & -> & He).
  now rewrite isEmptyElement_removeEmpty.
Qed.

Lemma cleanHtml_no_empty_element_witness :
  In clutteredClean (cleanContainer clutteredPage (tag "article"))
  /\ Within clutteredClean (Example.p [Text "Body"])
  /\ isEmptyElement (Example.p [Text "Body"]) = false.
Proof.
  assert (Hin : In clutteredClean
                   (cleanContainer clutteredPage (tag "article")))
    by (left; reflexivity).
  assert (Hw : Within clutteredClean (Example.p [Text "Body"]))
    by (apply within_child; right; left; reflexivity).
  split; [exact Hin |]. split; [exact Hw |].
  exact (@cleanHtml_no_empty_element clutteredPage (tag "article") _ _
           Hin Hw).
Defined.

(** *** Attributes and text that are kept *)

Lemma getAttr_setIfTruthy_same (k : string) (v : option string)
                               (attrs : list (string * string)) :
  getAttr k (setIfTruthy k v attrs)
  = if Js.truthyOpt v then v else getAttr k attrs.
Proof.
  unfold setIfTruthy, Js.truthyOpt. destruct v as [x |]; [| reflexivity].
  destruct (Js.truthy x); [| reflexivity].
  now rewrite getAttr_setAttr, String.eqb_refl.
Qed.

Lemma cleanElementAttributes_a_keeps (k : string)
                                     (attrs : list (string * string)) :
  plainKeys attrs = true ->
  k = "href" \/ k = "title" ->
  getAttr k (cleanElementAttributes "a" attrs) = getAttr k attrs.
Proof.
  intros Hp. rewrite (cleanElementAttributes_a_plain attrs Hp). cbv zeta.
  intros [-> | ->].
  - rewrite getAttr_setIfTruthy_same.
    rewrite (@getAttr_filter_keep (isAllowed ["href"; "title"]))
      by reflexivity.
    rewrite getAttr_kept by reflexivity.
    now destruct (Js.truthyOpt _).
  - rewrite getAttr_setIfTruthy_other by discriminate.
    rewrite (@getAttr_filter_keep (isAllowed ["href"; "title"]))
      by reflexivity.
    now apply getAttr_kept.
Qed.

Lemma cleanElementAttributes_img_alt (attrs : list (string * string)) :
  plainKeys attrs = true ->
  getAttr "alt" (cleanElementAttributes "img" attrs) = getAttr "alt" attrs.
Proof.
  intros Hp. rewrite (cleanElementAttributes_img_plain attrs Hp). cbv zeta.
  rewrite getAttr_setIfTruthy_same.
  rewrite getAttr_setIfTruthy_other by discriminate.
  rewrite (@getAttr_filter_keep (isAllowed ["src"; "alt"])) by reflexivity.
  rewrite getAttr_kept by reflexivity.
  now destruct (Js.truthyOpt _).
Qed.

(** X10.  Cleaning the attributes changes no text and no element name, and
    invents no attribute: what an element has afterwards it had before,
    with the same value.  When the attribute names of an element are plain
    (not empty, no white space in them), a link keeps its [href] and
    [title], an image its [src] and [alt], and any other element every
    attribute that is not a [data-*] (other than [data-testid]), [aria-*]
    or [on*] one. *)
Theorem cleanAttributes_keeps (container : node) :
  text (cleanAttributes container) = text container
  /\ forall name attrs cs,
       Within container (Element name attrs cs) ->
       exists attrs' cs',
         Within (cleanAttributes container) (Element name attrs' cs')
         /\ text (Element name attrs' cs') = text (Element name attrs cs)
         /\ (forall k v,
               getAttr k attrs' = Some v -> getAttr k attrs = Some v)
         /\ (plainKeys attrs = true ->
             (name = "a" ->
              getAttr "href" attrs' = getAttr "href" attrs
              /\ getAttr "title" attrs' = getAttr "title" attrs)
             /\ (name = "img" ->
                 getAttr "src" attrs' = getAttr "src" attrs
                 /\ getAttr "alt" attrs' = getAttr "alt" attrs)
             /\ (name <> "a" -> name <> "img" ->
                 forall k, isTracking k = false ->
                           getAttr k attrs' = getAttr k attrs)).
Proof.
  split.
  - destruct container as [d | d | name attrs cs];
      [reflexivity | reflexivity |].
    cbn [cleanAttributes]. rewrite !text_Element.
    induction cs as [| c r IH]; [reflexivity |].
    cbn [map textOf fold_right].
    rewrite (proj1 (cleanAttributesNode_facts c)). f_equal. exact IH.
  - intros name attrs cs Hw.
    apply Within_cleanAttributes in Hw. cbn [cleanAttributesNode] in Hw.
    exists (cleanElementAttributes name attrs), (map cleanAttributesNode cs).
    split; [exact Hw |].
    split.
    { exact (proj1 (cleanAttributesNode_facts (Element name attrs cs))). }
    split; [intros k v; apply cleanElementAttributes_sub |].
    intros Hp. split.
    { intros ->. split; apply cleanElementAttributes_a_keeps; auto. }
    split.
    { intros ->. split; [now apply cleanElementAttributes_img_src_kept |
                         now apply cleanElementAttributes_img_alt]. }
    intros Ha Hi k Hk. now apply cleanElementAttributes_other_keeps.
Qed.

(** ** The content and the downloads *)

(** What is left of the images when the downloads are forgotten is
    decided by the candidates. *)
Lemma imagesFrom_forgotten (net : nat -> string -> FetchOutcome) (k : nat)
                           (l : list ImageData.t) :
  map (fun img => {| originalUrl := originalUrl img;
                     base64 := None;
                     alt := alt img |})
      (imagesFrom net k l)
  = map (fun d => {| originalUrl := ImageData.url d;
                     base64 := None;
                     alt := ImageData.alt d |}) l.
Proof.
  revert k. induction l as [| d l IH]; intros k; [reflexivity |].
  cbn [imagesFrom map originalUrl alt]. now rewrite IH.
Qed.

(** A content that is not empty was serialized from a first match. *)
Lemma cleanHtml_truthy (render : list node -> string) (doc : document)
                       (contentSelector : selector) :
  Js.truthy (cleanHtml render doc contentSelector) = true ->
  exists first others,
    select doc contentSelector = first :: others
    /\ cleanHtml render doc contentSelector
       = Js.trim (Js.trim
           (joinTags None
              (collapseWhitespace
                 (render (childrenOf
                            (cleanAttributes
                               (removeUnwantedElements (elem first)))))))).
Proof.
  rewrite cleanHtml_serializes. unfold cleanContainer.
  destruct (select doc contentSelector) as [| first others].
  - discriminate.
  - intros _. exists first, others. split; reflexivity.
Qed.

Section ContentFacts.

Variable parseURL : string -> option URL.
Variable load : string -> document.
Variable render : list node -> string.
Variable now : string.

(** C1, as the code has it.  [scrapeArticle] replaces no [src] in the
    content.  The content of a successful call is [cleanHtml] of the page
    at the content selector: the serialization, with its white space
    normalised, of the children of the first match after the removal and
    the attribute pass.  It does not depend on the image requests: on any
    network that answers the page request in the same way the call
    succeeds again, with the same content, and with an article that
    differs in the [base64] of its images at most, whatever the image
    requests give.  And in the tree that the content serializes an image
    that the removal pass leaves has a [src] only if it has that [src] in
    the page, and has the [src] of the page when its attribute names are
    plain. *)
Theorem scrapeArticle_content_keeps_urls
    (net : nat -> string -> FetchOutcome)
    (pageUrl : string) (log log' : list string) (a : Article) :
  scrapeArticle parseURL net load render now pageUrl log = (inr a, log') ->
  exists html first others,
    fst (fetchHtml net pageUrl log) = inr html
    /\ select (load html) (contentSelectorOf (load html)) = first :: others
    /\ content a
       = cleanHtml render (load html) (contentSelectorOf (load html))
    /\ content a
       = Js.trim (Js.trim
           (joinTags None
              (collapseWhitespace
                 (render (childrenOf
                            (cleanAttributes
                               (removeUnwantedElements (elem first))))))))
    /\ (forall net',
          net' (List.length log) pageUrl = net (List.length log) pageUrl ->
          exists a' log'',
            scrapeArticle parseURL net' load render now pageUrl log
            = (inr a', log'')
            /\ content a' = content a
            /\ withoutDownloads a' = withoutDownloads a)
    /\ (forall attrs cs,
          Within (removeUnwantedElements (elem first))
                 (Element "img" attrs cs) ->
          exists attrs' cs',
            Within (cleanAttributes (removeUnwantedElements (elem first)))
                   (Element "img" attrs' cs')
            /\ (forall v, getAttr "src" attrs' = Some v ->
                          getAttr "src" attrs = Some v)
            /\ (plainKeys attrs = true ->
                getAttr "src" attrs' = getAttr "src" attrs)).
Proof.
  intros H. pose proof H as H0.
  apply scrapeArticle_success in H
    as (html & metadata & Hv & Hf & Hp & Hm & _ & Hc & Ht & _).
  rewrite Hc in Ht.
  destruct (cleanHtml_truthy _ _ _ Ht) as (first & others & Es & Hser).
  exists html, first, others.
  split; [exact Hf |]. split; [exact Es |]. split; [exact Hc |].
  split; [now rewrite Hc |].
  split.
  - intros net' Hnet.
    rewrite scrapeArticle_unfold in H0. rewrite scrapeArticle_unfold.
    assert (Hf' : fst (fetchHtml net' pageUrl log) = inr html)
      by (rewrite fetchHtml_unfold, Hnet, <- fetchHtml_unfold; exact Hf).
    rewrite Hv, Hf in H0. rewrite Hv, Hf'. cbv zeta in *.
    rewrite Hp, Hm in *. rewrite Ht in *. cbn [negb] in *.
    injection H0 as <- _.
    eexists. eexists. split; [reflexivity |].
    split; [reflexivity |].
    unfold withoutDownloads. cbn [url title subtitle author publishedDate
                                  readingTime content images tags].
    now rewrite !imagesFrom_forgotten.
  - intros attrs cs Hw.
    apply Within_cleanAttributes in Hw. cbn [cleanAttributesNode] in Hw.
    eexists. eexists. split; [exact Hw |].
    split; [apply cleanElementAttributes_img_src |
            apply cleanElementAttributes_img_src_kept].
Qed.

End ContentFacts.

(** The content of the run on the page with one picture is the cleaned
    markup of that page, also on a network on which the picture does not
    download. *)
Lemma scrapeArticle_content_keeps_urls_witness :
  onePictureRun = (inr onePictureArticle, onePictureLog)
  /\ content onePictureArticle
     = cleanHtml Example.render onePicturePage
                 (contentSelectorOf onePicturePage)
  /\ exists a' log'',
       scrapeArticle Example.parseURL
         (Example.serve "https://medium.com/@user/story" "<html>"
                        (Rejected "TypeError"))
         (fun _ => onePicturePage) Example.render
         "2026-02-07T12:00:00.000Z"
         "https://medium.com/@user/story" []
       = (inr a', log'')
       /\ content a' = content onePictureArticle
       /\ map base64 (images a') = [None].
Proof.
  assert (H : scrapeArticle Example.parseURL
                (Example.serve "https://medium.com/@user/story" "<html>"
                               Example.pngResponse)
                (fun _ => onePicturePage) Example.render
                "2026-02-07T12:00:00.000Z"
                "https://medium.com/@user/story" []
              = (inr onePictureArticle, onePictureLog))
    by (vm_compute; reflexivity).
  split; [exact H |].
  destruct (scrapeArticle_content_keeps_urls Example.parseURL
              (fun _ => onePicturePage) Example.render
              "2026-02-07T12:00:00.000Z"
              (Example.serve "https://medium.com/@user/story" "<html>"
                             Example.pngResponse)
              "https://medium.com/@user/story" [] H)
    as (html & first & others & _ & _ & Hc & _ & Hnet & _).
  split; [exact Hc |].
  destruct (Hnet (Example.serve "https://medium.com/@user/story" "<html>"
                                (Rejected "TypeError")) eq_refl)
    as (a' & log'' & Hrun & Hc' & _).
  exists a', log''. split; [exact Hrun |]. split; [exact Hc' |].
  assert (Hrun' : scrapeArticle Example.parseURL
                    (Example.serve "https://medium.com/@user/story" "<html>"
                                   (Rejected "TypeError"))
                    (fun _ => onePicturePage) Example.render
                    "2026-02-07T12:00:00.000Z"
                    "https://medium.com/@user/story" []
                  = (inr {| url := url onePictureArticle;
                            title := title onePictureArticle;
                            subtitle := subtitle onePictureArticle;
                            author := author onePictureArticle;
                            publishedDate := publishedDate onePictureArticle;
                            readingTime := readingTime onePictureArticle;
                            content := content onePictureArticle;
                            images :=
                              [ {| originalUrl :=
                                     "https://cdn.example.com/a.png";
                                   base64 := None;
                                   alt := Some "A" |} ];
                            tags := tags onePictureArticle |},
                     onePictureLog))
    by (vm_compute; reflexivity).
  rewrite Hrun' in Hrun. injection Hrun as <- _. reflexivity.
Defined.

(** * Properties of the routes *)

(** ** The rate limiter *)

Lemma RateMap_get_set_same (ip : string) (e : RateMap.entry) (m : RateMap.t) :
  RateMap.get ip (RateMap.set ip e m) = Some e.
Proof.
  induction m as [| [k e'] m IH]; simpl.
  - now rewrite String.eqb_refl.
  - destruct (String.eqb_spec k ip) as [-> | H]; simpl.
    + now rewrite String.eqb_refl.
    + apply String.eqb_neq in H. now rewrite H.
Qed.

Lemma RateMap_get_set_other (ip ip' : string) (e : RateMap.entry)
                            (m : RateMap.t) :
  ip' <> ip ->
  RateMap.get ip' (RateMap.set ip e m) = RateMap.get ip' m.
Proof.
  intros Hne. induction m as [| [k e'] m IH]; simpl.
  - destruct (String.eqb_spec ip ip'); [congruence | reflexivity].
  - destruct (String.eqb_spec k ip) as [-> | H]; simpl.
    + destruct (String.eqb_spec ip ip'); [congruence | reflexivity].
    + now rewrite IH.
Qed.

Lemma checkRateLimit_max (nowMs : Z) (ip : string)
                         (l : ConvertRoute.limiter) :
  ConvertRoute.maxRequests (snd (ConvertRoute.checkRateLimit nowMs ip l))
  = ConvertRoute.maxRequests l.
Proof.
  unfold ConvertRoute.checkRateLimit. cbv zeta.
  destruct (RateMap.get ip (ConvertRoute.counts l)) as [r |]; [| reflexivity].
  destruct (nowMs >=? RateMap.resetAt r)%Z; [reflexivity |].
  destruct (RateMap.count r >=? ConvertRoute.maxRequests l)%Z; reflexivity.
Qed.

Lemma checkRateLimit_other (nowMs : Z) (ip ip' : string)
                           (l : ConvertRoute.limiter) :
  ip' <> ip ->
  RateMap.get ip'
    (ConvertRoute.counts (snd (ConvertRoute.checkRateLimit nowMs ip l)))
  = RateMap.get ip' (ConvertRoute.counts l).
Proof.
  intros Hne. unfold ConvertRoute.checkRateLimit. cbv zeta.
  destruct (RateMap.get ip (ConvertRoute.counts l)) as [r |].
  - destruct (nowMs >=? RateMap.resetAt r)%Z;
      [now apply RateMap_get_set_other |].
    destruct (RateMap.count r >=? ConvertRoute.maxRequests l)%Z;
      [reflexivity | now apply RateMap_get_set_other].
  - now apply RateMap_get_set_other.
Qed.

(** A call inside the window of a record. *)
Lemma checkRateLimit_inside (nowMs : Z) (ip : string)
                            (l : ConvertRoute.limiter) (c R : Z) :
  RateMap.get ip (ConvertRoute.counts l)
  = Some {| RateMap.count := c; RateMap.resetAt := R |} ->
  (nowMs < R)%Z ->
  let r := ConvertRoute.checkRateLimit nowMs ip l in
  fst r = (c <? ConvertRoute.maxRequests l)%Z
  /\ RateMap.get ip (ConvertRoute.counts (snd r))
     = Some {| RateMap.count :=
                 if (c <? ConvertRoute.maxRequests l)%Z then c + 1 else c;
               RateMap.resetAt := R |}.
Proof.
  intros Hg Ht. cbv zeta. unfold ConvertRoute.checkRateLimit. cbv zeta.
  rewrite Hg. cbn [RateMap.resetAt RateMap.count].
  destruct (Z.geb_spec nowMs R) as [H | _]; [lia |].
  destruct (Z.geb_spec c (ConvertRoute.maxRequests l)) as [H | H];
    destruct (Z.ltb_spec c (ConvertRoute.maxRequests l)) as [H' | H'];
    try lia; cbn [fst snd ConvertRoute.counts].
  - split; [reflexivity | exact Hg].
  - split; [reflexivity | apply RateMap_get_set_same].
Qed.

(** A call for an address with no record, or with an expired one. *)
Lemma checkRateLimit_fresh (nowMs : Z) (ip : string)
                           (l : ConvertRoute.limiter) :
  liveAt nowMs (RateMap.get ip (ConvertRoute.counts l)) = None ->
  let r := ConvertRoute.checkRateLimit nowMs ip l in
  fst r = true
  /\ RateMap.get ip (ConvertRoute.counts (snd r))
     = Some {| RateMap.count := 1;
               RateMap.resetAt :=
                 nowMs + ConvertRoute.RATE_LIMIT_WINDOW_MS |}.
Proof.
  intros Hl. cbv zeta. unfold ConvertRoute.checkRateLimit. cbv zeta.
  unfold liveAt in Hl.
  destruct (RateMap.get ip (ConvertRoute.counts l)) as [r |].
  - destruct (nowMs >=? RateMap.resetAt r)%Z; [| discriminate].
    split; [reflexivity | apply RateMap_get_set_same].
  - split; [reflexivity | apply RateMap_get_set_same].
Qed.

Lemma runChecks_cons (l : ConvertRoute.limiter) (nowMs : Z) (ip : string)
                     (rest : list (Z * string)) :
  runChecks l ((nowMs, ip) :: rest)
  = (fst (ConvertRoute.checkRateLimit nowMs ip l)
       :: fst (runChecks (snd (ConvertRoute.checkRateLimit nowMs ip l)) rest),
     snd (runChecks (snd (ConvertRoute.checkRateLimit nowMs ip l)) rest)).
Proof.
  cbn [runChecks].
  destruct (ConvertRoute.checkRateLimit nowMs ip l) as [a l']. cbn [fst snd].
  destruct (runChecks l' rest) as [ds l'']. reflexivity.
Qed.

Lemma decisionsOf_cons (ip ip' : string) (nowMs : Z)
                       (calls : list (Z * string)) (d : bool)
                       (ds : list bool) :
  decisionsOf ip ((nowMs, ip') :: calls) (d :: ds)
  = if ip' =? ip then d :: decisionsOf ip calls ds
    else decisionsOf ip calls ds.
Proof.
  unfold decisionsOf. cbn [combine filter fst snd].
  destruct (ip' =? ip)%string; reflexivity.
Qed.

Lemma callsOf_cons (ip ip' : string) (nowMs : Z) (calls : list (Z * string)) :
  callsOf ip ((nowMs, ip') :: calls)
  = if ip' =? ip then S (callsOf ip calls) else callsOf ip calls.
Proof.
  unfold callsOf. cbn [filter snd]. destruct (ip' =? ip)%string; reflexivity.
Qed.

(** Inside the window of a record that has counted [c] calls, the calls
    for its address are allowed until the count reaches the maximum, and
    refused from then on, whatever the calls for other addresses. *)
Lemma runChecks_inside (ip : string) (R : Z) (calls : list (Z * string)) :
  forall (l : ConvertRoute.limiter) (c : Z),
    RateMap.get ip (ConvertRoute.counts l)
    = Some {| RateMap.count := c; RateMap.resetAt := R |} ->
    (forall t, In (t, ip) calls -> (t < R)%Z) ->
    let left := Z.to_nat (ConvertRoute.maxRequests l - c) in
    decisionsOf ip calls (fst (runChecks l calls))
    = repeat true (Nat.min (callsOf ip calls) left)
      ++ repeat false (callsOf ip calls - left).
Proof.
  induction calls as [| [t ip'] calls IH]; intros l c Hg Ht; cbv zeta.
  - reflexivity.
  - rewrite runChecks_cons. cbn [fst].
    rewrite decisionsOf_cons, callsOf_cons.
    destruct (String.eqb_spec ip' ip) as [-> | Hne].
    + assert (HtR : (t < R)%Z) by (apply Ht; now left).
      destruct (@checkRateLimit_inside t ip l c R Hg HtR) as [Hd Hg'].
      rewrite Hd.
      specialize (IH (snd (ConvertRoute.checkRateLimit t ip l)) _ Hg'
                     (fun t' H => Ht t' (or_intror H))).
      cbv zeta in IH. rewrite IH, checkRateLimit_max.
      destruct (Z.ltb_spec c (ConvertRoute.maxRequests l)) as [Hc | Hc].
      * replace (Z.to_nat (ConvertRoute.maxRequests l - c))
          with (S (Z.to_nat (ConvertRoute.maxRequests l - (c + 1))))
          by lia.
        reflexivity.
      * replace (Z.to_nat (ConvertRoute.maxRequests l - c)) with 0 by lia.
        rewrite !Nat.min_0_r, !Nat.sub_0_r. reflexivity.
    + assert (Hg' : RateMap.get ip
                      (ConvertRoute.counts
                         (snd (ConvertRoute.checkRateLimit t ip' l)))
                    = Some {| RateMap.count := c; RateMap.resetAt := R |}).
      { rewrite checkRateLimit_other by congruence. exact Hg. }
      specialize (IH (snd (ConvertRoute.checkRateLimit t ip' l)) _ Hg').
      cbv zeta in IH. rewrite IH, checkRateLimit_max; [reflexivity |].
      intros t' H. apply Ht. now right.
Qed.

Lemma ScraperRoute_checkRateLimit_eq (nowMs : Z) (ip : string)
                                     (m : RateMap.t) :
  ScraperRoute.checkRateLimit nowMs ip m
  = (fst (ConvertRoute.checkRateLimit nowMs ip
            {| ConvertRoute.maxRequests := 10; ConvertRoute.counts := m |}),
     ConvertRoute.counts
       (snd (ConvertRoute.checkRateLimit nowMs ip
               {| ConvertRoute.maxRequests := 10;
                  ConvertRoute.counts := m |}))).
Proof.
  unfold ScraperRoute.checkRateLimit, ConvertRoute.checkRateLimit.
  cbv zeta. cbn [ConvertRoute.counts ConvertRoute.maxRequests].
  destruct (RateMap.get ip m) as [r |]; [| reflexivity].
  destruct (nowMs >=? RateMap.resetAt r)%Z; [reflexivity |].
  unfold ScraperRoute.RATE_LIMIT_MAX_REQUESTS.
  destruct (RateMap.count r >=? 10)%Z; reflexivity.
Qed.

(** X11.  The quota of a window.  A call for an address that has no record, or
    an expired one, opens a window of one minute.  Of the calls made for
    that address before the window ends, that first call included, the
    first [maxRequests] are allowed and all the others are refused,
    however they are interleaved with calls for other addresses.  The
    limiter of [routes/scraper.ts] is the same function with a maximum of
    10. *)
Theorem checkRateLimit_window_quota (l : ConvertRoute.limiter) (ip : string)
                                    (t0 : Z) (rest : list (Z * string)) :
  (1 <= ConvertRoute.maxRequests l)%Z ->
  liveAt t0 (RateMap.get ip (ConvertRoute.counts l)) = None ->
  (forall t, In (t, ip) rest ->
             (t < t0 + ConvertRoute.RATE_LIMIT_WINDOW_MS)%Z) ->
  let calls := (t0, ip) :: rest in
  let n := callsOf ip calls in
  let quota := Z.to_nat (ConvertRoute.maxRequests l) in
  decisionsOf ip calls (fst (runChecks l calls))
  = repeat true (Nat.min n quota) ++ repeat false (n - quota)
  /\ forall nowMs m,
       ScraperRoute.checkRateLimit nowMs ip m
       = (fst (ConvertRoute.checkRateLimit nowMs ip
                 {| ConvertRoute.maxRequests := 10;
                    ConvertRoute.counts := m |}),
          ConvertRoute.counts
            (snd (ConvertRoute.checkRateLimit nowMs ip
                    {| ConvertRoute.maxRequests := 10;
                       ConvertRoute.counts := m |}))).
Proof.
  intros Hmax Hfresh Hrest. cbv zeta.
  split; [| intros nowMs m; apply ScraperRoute_checkRateLimit_eq].
  rewrite runChecks_cons. cbn [fst].
  rewrite decisionsOf_cons, callsOf_cons, String.eqb_refl.
  destruct (@checkRateLimit_fresh t0 ip l Hfresh) as [Hd Hg].
  rewrite Hd.
  rewrite (@runChecks_inside ip _ rest _ _ Hg Hrest). cbv zeta.
  rewrite checkRateLimit_max.
  replace (Z.to_nat (ConvertRoute.maxRequests l))
    with (S (Z.to_nat (ConvertRoute.maxRequests l - 1))) by lia.
  reflexivity.
Qed.

(** Seven calls in one window of the convert limiter: five allowed. *)
Lemma checkRateLimit_window_quota_witness :
  decisionsOf "1.2.3.4"
    [(0, "1.2.3.4"); (1, "1.2.3.4"); (2, "5.6.7.8"); (3, "1.2.3.4");
     (4, "1.2.3.4"); (5, "1.2.3.4"); (6, "1.2.3.4"); (59999, "1.2.3.4")]%Z
    (fst (runChecks (ConvertRoute.convertRateLimiter
                       ConvertRoute.initialLimiters)
            [(0, "1.2.3.4"); (1, "1.2.3.4"); (2, "5.6.7.8"); (3, "1.2.3.4");
             (4, "1.2.3.4"); (5, "1.2.3.4"); (6, "1.2.3.4");
             (59999, "1.2.3.4")]%Z))
  = [true; true; true; true; true; false; false].
Proof.
  apply (proj1 (@checkRateLimit_window_quota
                  (ConvertRoute.convertRateLimiter
                     ConvertRoute.initialLimiters)
                  "1.2.3.4" 0%Z
                  [(1, "1.2.3.4"); (2, "5.6.7.8"); (3, "1.2.3.4");
                   (4, "1.2.3.4"); (5, "1.2.3.4"); (6, "1.2.3.4");
                   (59999, "1.2.3.4")]%Z
                  ltac:(simpl; lia) eq_refl
                  ltac:(simpl; intros t H;
                        unfold ConvertRoute.RATE_LIMIT_WINDOW_MS;
                        repeat (destruct H as [H | H];
                                [inversion H; subst; lia |]);
                        destruct H))).
Defined.

(** *** The periodic clean-up *)

Lemma deleteExpired_fold (nowMs : Z) (l cur : RateMap.t) :
  fold_left (fun cur kv =>
               if (nowMs >=? RateMap.resetAt (snd kv))%Z
               then RateMap.delete (fst kv) cur else cur)
            l cur
  = filter (fun kv =>
              negb (existsb (fun kv' =>
                               (fst kv' =? fst kv)%string
                               && (nowMs >=? RateMap.resetAt (snd kv'))%Z)
                            l))
           cur.
Proof.
  revert cur. induction l as [| [k e] l IH]; intros cur.
  - cbn [fold_left existsb negb]. symmetry. now apply filter_all.
  - cbn [fold_left fst snd existsb]. rewrite IH.
    destruct (nowMs >=? RateMap.resetAt e)%Z.
    + unfold RateMap.delete. rewrite filter_filter.
      apply filter_ext. intros [k' e']. cbn [fst snd].
      rewrite andb_true_r, negb_orb. now rewrite (String.eqb_sym k' k).
    + apply filter_ext. intros [k' e']. cbn [fst snd].
      now rewrite andb_false_r.
Qed.

Lemma RateMap_get_In (ip : string) (e : RateMap.entry) (m : RateMap.t) :
  RateMap.get ip m = Some e -> In (ip, e) m.
Proof.
  induction m as [| [k e'] m IH]; [discriminate |].
  cbn [RateMap.get]. destruct (String.eqb_spec k ip) as [-> | H].
  - intros [= ->]. now left.
  - intros Hg. right. now apply IH.
Qed.

Lemma RateMap_get_None (ip : string) (m : RateMap.t) :
  ~ In ip (map fst m) -> RateMap.get ip m = None.
Proof.
  induction m as [| [k e] m IH]; [reflexivity |].
  cbn [map fst In RateMap.get]. intros H.
  destruct (String.eqb_spec k ip) as [-> | Hne]; [tauto |].
  apply IH. tauto.
Qed.

Lemma RateMap_get_filter (p : RateMap.entry -> bool) (ip : string)
                         (m : RateMap.t) :
  NoDup (map fst m) ->
  RateMap.get ip (filter (fun kv => p (snd kv)) m)
  = match RateMap.get ip m with
    | Some e => if p e then Some e else None
    | None => None
    end.
Proof.
  induction m as [| [k e] m IH]; [reflexivity |].
  cbn [map fst]. intros Hnd. inversion Hnd as [| k' ks Hk Hks]; subst.
  cbn [filter snd RateMap.get].
  destruct (String.eqb_spec k ip) as [-> | Hne].
  - destruct (p e); cbn [RateMap.get].
    + now rewrite String.eqb_refl.
    + apply RateMap_get_None. intros Hin. apply Hk.
      apply in_map_iff in Hin as ([k' e'] & <- & Hin).
      apply filter_In in Hin as [Hin _].
      apply in_map_iff. now exists (k', e').
  - destruct (p e); cbn [RateMap.get].
    + apply String.eqb_neq in Hne. rewrite Hne. now apply IH.
    + now apply IH.
Qed.

Lemma deleteExpired_filter (nowMs : Z) (m : RateMap.t) :
  NoDup (map fst m) ->
  RateMap.deleteExpired nowMs m
  = filter (fun kv => negb (nowMs >=? RateMap.resetAt (snd kv))%Z) m.
Proof.
  intros Hnd. unfold RateMap.deleteExpired. rewrite deleteExpired_fold.
  apply filter_ext_in. intros [k e] Hin. cbn [fst snd]. f_equal.
  destruct (nowMs >=? RateMap.resetAt e)%Z eqn:E.
  - apply existsb_exists. exists (k, e). cbn [fst snd].
    now rewrite String.eqb_refl, E.
  - destruct (existsb _ m) eqn:Ex; [| reflexivity].
    apply existsb_exists in Ex as ([k' e'] & Hin' & H).
    cbn [fst snd] in H. apply andb_prop in H as [Hk He].
    apply String.eqb_eq in Hk. subst k'.
    assert (e' = e); [| congruence].
    clear E He. induction m as [| [k0 e0] m IH]; [destruct Hin |].
    cbn [map fst] in Hnd. inversion Hnd as [| x xs Hx Hxs]; subst.
    assert (Hkey : forall v, In (k, v) m -> In k (map fst m)).
    { intros v Hv. apply in_map_iff. now exists (k, v). }
    destruct Hin as [[= -> ->] | Hin], Hin' as [[= <-] | Hin'].
    + reflexivity.
    + exfalso. apply Hx. now apply (Hkey e').
    + exfalso. subst. apply Hx. now apply (Hkey e).
    + now apply IH.
Qed.

Lemma deleteExpired_live (nowMs t : Z) (ip : string) (m : RateMap.t) :
  NoDup (map fst m) -> (nowMs <= t)%Z ->
  liveAt t (RateMap.get ip (RateMap.deleteExpired nowMs m))
  = liveAt t (RateMap.get ip m).
Proof.
  intros Hnd Ht. rewrite deleteExpired_filter by exact Hnd.
  rewrite (@RateMap_get_filter
             (fun e => negb (nowMs >=? RateMap.resetAt e)%Z)) by exact Hnd.
  destruct (RateMap.get ip m) as [e |]; [| reflexivity].
  destruct (Z.geb_spec nowMs (RateMap.resetAt e)) as [H | H];
    [| reflexivity].
  cbn [negb liveAt].
  destruct (Z.geb_spec t (RateMap.resetAt e)); [reflexivity | lia].
Qed.

(** Two limiters that agree on the records that are live at [nowMs]
    decide alike from then on. *)
Lemma checkRateLimit_live (nowMs t : Z) (ip : string)
                          (l1 l2 : ConvertRoute.limiter) :
  (nowMs <= t)%Z ->
  ConvertRoute.maxRequests l1 = ConvertRoute.maxRequests l2 ->
  (forall k, liveAt nowMs (RateMap.get k (ConvertRoute.counts l1))
             = liveAt nowMs (RateMap.get k (ConvertRoute.counts l2))) ->
  let r1 := ConvertRoute.checkRateLimit t ip l1 in
  let r2 := ConvertRoute.checkRateLimit t ip l2 in
  fst r1 = fst r2
  /\ ConvertRoute.maxRequests (snd r1) = ConvertRoute.maxRequests (snd r2)
  /\ forall k, liveAt nowMs (RateMap.get k (ConvertRoute.counts (snd r1)))
               = liveAt nowMs (RateMap.get k (ConvertRoute.counts (snd r2))).
Proof.
  intros Ht Hmax Hlive. cbv zeta.
  rewrite !checkRateLimit_max.
  assert (Hother : forall k, k <> ip ->
             liveAt nowMs
               (RateMap.get k (ConvertRoute.counts
                                 (snd (ConvertRoute.checkRateLimit t ip l1))))
             = liveAt nowMs
                 (RateMap.get k (ConvertRoute.counts
                                   (snd (ConvertRoute.checkRateLimit t ip
                                                                     l2))))).
  { intros k Hk. rewrite !checkRateLimit_other by exact Hk. apply Hlive. }
  assert (Hfresh : forall o, liveAt nowMs o = None -> liveAt t o = None).
  { intros [e |] H; [| reflexivity]. cbn [liveAt] in *.
    destruct (Z.geb_spec nowMs (RateMap.resetAt e)); [| discriminate].
    destruct (Z.geb_spec t (RateMap.resetAt e)); [reflexivity | lia]. }
  specialize (Hlive ip) as Hip.
  destruct (liveAt nowMs (RateMap.get ip (ConvertRoute.counts l1)))
    as [e |] eqn:E1.
  - (* the same live record on both sides *)
    symmetry in Hip.
    assert (H1 : RateMap.get ip (ConvertRoute.counts l1) = Some e).
    { destruct (RateMap.get ip (ConvertRoute.counts l1)) as [x |];
        [| discriminate].
      cbn [liveAt] in E1. destruct (nowMs >=? RateMap.resetAt x)%Z;
        [discriminate | exact E1]. }
    assert (H2 : RateMap.get ip (ConvertRoute.counts l2) = Some e).
    { destruct (RateMap.get ip (ConvertRoute.counts l2)) as [x |];
        [| discriminate].
      cbn [liveAt] in Hip. destruct (nowMs >=? RateMap.resetAt x)%Z;
        [discriminate | exact Hip]. }
    assert (Hsame : fst (ConvertRoute.checkRateLimit t ip l1)
                    = fst (ConvertRoute.checkRateLimit t ip l2)
                    /\ RateMap.get ip
                         (ConvertRoute.counts
                            (snd (ConvertRoute.checkRateLimit t ip l1)))
                       = RateMap.get ip
                           (ConvertRoute.counts
                              (snd (ConvertRoute.checkRateLimit t ip l2)))).
    { unfold ConvertRoute.checkRateLimit. cbv zeta.
      rewrite H1, H2, Hmax.
      destruct (t >=? RateMap.resetAt e)%Z.
      - cbn [fst snd ConvertRoute.counts].
        now rewrite !RateMap_get_set_same.
      - destruct (RateMap.count e >=? ConvertRoute.maxRequests l2)%Z;
          cbn [fst snd ConvertRoute.counts].
        + now rewrite H1, H2.
        + now rewrite !RateMap_get_set_same. }
    destruct Hsame as [Hd Hg].
    split; [exact Hd |]. split; [exact Hmax |].
    intros k. destruct (String.eqb_spec k ip) as [-> | Hk];
      [now rewrite Hg | now apply Hother].
  - (* no live record on either side *)
    symmetry in Hip.
    destruct (@checkRateLimit_fresh t ip l1 (Hfresh _ E1)) as [Hd1 Hg1].
    destruct (@checkRateLimit_fresh t ip l2 (Hfresh _ Hip)) as [Hd2 Hg2].
    split; [congruence |]. split; [exact Hmax |].
    intros k. destruct (String.eqb_spec k ip) as [-> | Hk];
      [now rewrite Hg1, Hg2 | now apply Hother].
Qed.

Lemma runChecks_live (nowMs : Z) (calls : list (Z * string)) :
  forall l1 l2 : ConvertRoute.limiter,
    (forall t ip, In (t, ip) calls -> (nowMs <= t)%Z) ->
    ConvertRoute.maxRequests l1 = ConvertRoute.maxRequests l2 ->
    (forall k, liveAt nowMs (RateMap.get k (ConvertRoute.counts l1))
               = liveAt nowMs (RateMap.get k (ConvertRoute.counts l2))) ->
    fst (runChecks l1 calls) = fst (runChecks l2 calls).
Proof.
  induction calls as [| [t ip] calls IH]; intros l1 l2 Ht Hmax Hlive;
    [reflexivity |].
  rewrite !runChecks_cons. cbn [fst].
  assert (Hle : (nowMs <= t)%Z) by (apply (Ht t ip); now left).
  destruct (@checkRateLimit_live nowMs t ip l1 l2 Hle Hmax Hlive)
    as (Hd & Hmax' & Hlive').
  rewrite Hd. f_equal. apply IH; [| exact Hmax' | exact Hlive'].
  intros t' ip' H. apply (Ht t' ip'). now right.
Qed.

Lemma RateMap_set_keys (ip : string) (e : RateMap.entry) (m : RateMap.t) :
  NoDup (map fst m) -> NoDup (map fst (RateMap.set ip e m)).
Proof.
  assert (Hin : forall k m, In k (map fst (RateMap.set ip e m)) ->
                            k = ip \/ In k (map fst m)).
  { intros k m0. induction m0 as [| [k0 e0] m0 IH]; cbn [RateMap.set].
    - intros [<- | []]. now left.
    - destruct (String.eqb_spec k0 ip) as [-> | Hne]; cbn [map fst In].
      + tauto.
      + intros [<- | H]; [tauto |]. apply IH in H. tauto. }
  induction m as [| [k e'] m IH]; cbn [RateMap.set map fst].
  - intros _. repeat constructor. intros [].
  - intros Hnd. inversion Hnd as [| x xs Hx Hxs]; subst.
    destruct (String.eqb_spec k ip) as [-> | Hne]; cbn [map fst].
    + exact Hnd.
    + constructor; [| now apply IH].
      intros H. apply Hin in H as [-> | H]; [congruence | contradiction].
Qed.

Lemma checkRateLimit_keys (nowMs : Z) (ip : string)
                          (l : ConvertRoute.limiter) :
  NoDup (map fst (ConvertRoute.counts l)) ->
  NoDup (map fst (ConvertRoute.counts
                    (snd (ConvertRoute.checkRateLimit nowMs ip l)))).
Proof.
  intros Hnd. unfold ConvertRoute.checkRateLimit. cbv zeta.
  destruct (RateMap.get ip (ConvertRoute.counts l)) as [r |].
  - destruct (nowMs >=? RateMap.resetAt r)%Z;
      [now apply RateMap_set_keys |].
    destruct (RateMap.count r >=? ConvertRoute.maxRequests l)%Z;
      [exact Hnd | now apply RateMap_set_keys].
  - now apply RateMap_set_keys.
Qed.

(** X12.  The clean-up that runs every five minutes changes no decision: from
    the instant it ran on, as long as the clock does not go back before
    it, every call is decided as it would have been without it, in both
    limiters of [routes/convert.ts] and in that of [routes/scraper.ts];
    and what it leaves is the records that had not expired.  Each address
    has one record, before and after any call. *)
Theorem cleanup_changes_no_decision (nowMs : Z) (st : ConvertRoute.limiters)
                                    (m : RateMap.t)
                                    (calls : list (Z * string)) :
  NoDup (map fst (ConvertRoute.counts (ConvertRoute.convertRateLimiter st))) ->
  NoDup (map fst (ConvertRoute.counts (ConvertRoute.previewRateLimiter st))) ->
  NoDup (map fst m) ->
  (forall t ip, In (t, ip) calls -> (nowMs <= t)%Z) ->
  let st' := ConvertRoute.cleanup nowMs st in
  fst (runChecks (ConvertRoute.convertRateLimiter st') calls)
  = fst (runChecks (ConvertRoute.convertRateLimiter st) calls)
  /\ fst (runChecks (ConvertRoute.previewRateLimiter st') calls)
     = fst (runChecks (ConvertRoute.previewRateLimiter st) calls)
  /\ fst (runChecks {| ConvertRoute.maxRequests := 10;
                       ConvertRoute.counts := ScraperRoute.cleanup nowMs m |}
                    calls)
     = fst (runChecks {| ConvertRoute.maxRequests := 10;
                         ConvertRoute.counts := m |} calls)
  /\ ScraperRoute.cleanup nowMs m
     = filter (fun kv => negb (nowMs >=? RateMap.resetAt (snd kv))%Z) m
  /\ forall t ip l,
       NoDup (map fst (ConvertRoute.counts l)) ->
       NoDup (map fst (ConvertRoute.counts
                         (snd (ConvertRoute.checkRateLimit t ip l)))).
Proof.
  intros Hc Hp Hm Ht. cbv zeta.
  assert (Hrun : forall l,
             NoDup (map fst (ConvertRoute.counts l)) ->
             fst (runChecks
                    {| ConvertRoute.maxRequests := ConvertRoute.maxRequests l;
                       ConvertRoute.counts :=
                         RateMap.deleteExpired nowMs (ConvertRoute.counts l) |}
                    calls)
             = fst (runChecks l calls)).
  { intros l Hnd. apply (@runChecks_live nowMs); [exact Ht | reflexivity |].
    intros k. cbn [ConvertRoute.counts].
    apply deleteExpired_live; [exact Hnd | lia]. }
  split; [apply (Hrun _ Hc) |]. split; [apply (Hrun _ Hp) |].
  split.
  { apply (Hrun {| ConvertRoute.maxRequests := 10;
                   ConvertRoute.counts := m |} Hm). }
  split; [now apply deleteExpired_filter |].
  intros t ip l. apply checkRateLimit_keys.
Qed.

Lemma cleanup_changes_no_decision_witness :
  fst (runChecks
         (ConvertRoute.convertRateLimiter
            (ConvertRoute.cleanup 60000
               {| ConvertRoute.convertRateLimiter :=
                    {| ConvertRoute.maxRequests := 5;
                       ConvertRoute.counts :=
                         [("1.2.3.4", {| RateMap.count := 5;
                                         RateMap.resetAt := 60000 |});
                          ("5.6.7.8", {| RateMap.count := 5;
                                         RateMap.resetAt := 90000 |})]%Z |};
                  ConvertRoute.previewRateLimiter :=
                    ConvertRoute.previewRateLimiter
                      ConvertRoute.initialLimiters |}))
         [(60000, "1.2.3.4"); (60001, "5.6.7.8")]%Z)
  = [true; false].
Proof.
  apply (proj1 (@cleanup_changes_no_decision 60000
                  {| ConvertRoute.convertRateLimiter :=
                       {| ConvertRoute.maxRequests := 5;
                          ConvertRoute.counts :=
                            [("1.2.3.4", {| RateMap.count := 5;
                                            RateMap.resetAt := 60000 |});
                             ("5.6.7.8", {| RateMap.count := 5;
                                            RateMap.resetAt := 90000 |})]%Z |};
                     ConvertRoute.previewRateLimiter :=
                       ConvertRoute.previewRateLimiter
                         ConvertRoute.initialLimiters |}
                  []
                  [(60000, "1.2.3.4"); (60001, "5.6.7.8")]%Z
                  ltac:(repeat constructor; simpl; intuition discriminate)
                  ltac:(constructor)
                  ltac:(constructor)
                  ltac:(simpl; intros t ip H;
                        repeat (destruct H as [H | H];
                                [inversion H; subst; lia |]);
                        destruct H))).
Defined.

(** ** Keys, file names and escaping *)

Lemma split_first (sep : ascii) (s : string) :
  exists first rest,
    Js.split sep s = first :: rest
    /\ ~ In sep (list_ascii_of_string first).
Proof.
  induction s as [| c r (first & rest & E & Hn)].
  - exists EmptyString, []. split; [reflexivity | intros []].
  - cbn [Js.split]. destruct (Ascii.eqb_spec c sep) as [-> | Hc].
    + exists EmptyString, (Js.split sep r). split; [reflexivity | intros []].
    + rewrite E. exists (String c first), rest. split; [reflexivity |].
      cbn [list_ascii_of_string In]. tauto.
Qed.

Lemma split_head_app (sep : ascii) (h a : string) :
  ~ In sep (list_ascii_of_string h) ->
  nth_error (Js.split sep (h ++ String sep a)) 0 = Some h.
Proof.
  induction h as [| c h IH]; intros Hn.
  - cbn [String.append Js.split]. now rewrite Ascii.eqb_refl.
  - cbn [String.append Js.split].
    cbn [list_ascii_of_string In] in Hn.
    destruct (Ascii.eqb_spec c sep) as [-> | Hc]; [tauto |].
    assert (Hh : ~ In sep (list_ascii_of_string h)) by tauto.
    specialize (IH Hh).
    destruct (Js.split sep (h ++ String sep a)) as [| x l];
      [discriminate |].
    now injection IH as ->.
Qed.

Lemma chars_trimStart (s : string) (c : ascii) :
  In c (list_ascii_of_string (Js.trimStart s)) ->
  In c (list_ascii_of_string s).
Proof.
  induction s as [| d s IH]; [auto |].
  cbn [Js.trimStart]. destruct (Js.isSpace d); [| auto].
  intros H. right. now apply IH.
Qed.

Lemma chars_trimEnd (s : string) (c : ascii) :
  In c (list_ascii_of_string (Js.trimEnd s)) ->
  In c (list_ascii_of_string s).
Proof.
  induction s as [| d s IH]; [auto |].
  cbn [Js.trimEnd]. cbv zeta.
  destruct (Js.isSpace d && (Js.trimEnd s =? ""))%string; [intros [] |].
  cbn [list_ascii_of_string In]. intros [H | H]; [now left |].
  right. now apply IH.
Qed.

Lemma chars_trim (s : string) (c : ascii) :
  In c (list_ascii_of_string (Js.trim s)) -> In c (list_ascii_of_string s).
Proof.
  unfold Js.trim. intros H. now apply chars_trimStart, chars_trimEnd.
Qed.

Lemma orDefault_cases (a : option string) (d : string) :
  (exists s, a = Some s /\ s <> EmptyString /\ orDefault a d = s)
  \/ ((a = None \/ a = Some EmptyString) /\ orDefault a d = d).
Proof.
  unfold orDefault, Js.orElse, Js.truthyOpt.
  destruct a as [s |]; [| right; auto].
  destruct (Js.truthy s) eqn:E.
  - left. exists s. split; [reflexivity |]. split; [| reflexivity].
    now apply truthy_iff.
  - right. split; [| reflexivity]. right. f_equal.
    unfold Js.truthy in E. apply negb_false_iff in E.
    now apply String.eqb_eq.
Qed.

(** X13.  The key under which a request is rate-limited is never empty, has no
    white space around it and no comma in it; it is [unknown] when the
    [x-forwarded-for] header is missing or its first entry is blank; and
    only the first entry of the header counts. *)
Theorem getClientIp_key (forwardedFor : option string) :
  let ip := ConvertRoute.getClientIp forwardedFor in
  ip <> EmptyString
  /\ Js.trim ip = ip
  /\ ~ In ","%char (list_ascii_of_string ip)
  /\ (forwardedFor = None -> ip = "unknown")
  /\ (forall first, forwardedFor = Some first ->
                    Js.trim first = EmptyString -> ip = "unknown")
  /\ (forall first others,
        forwardedFor = Some (first ++ String "," others)%string ->
        ~ In ","%char (list_ascii_of_string first) ->
        ip = ConvertRoute.getClientIp (Some first)).
Proof.
  cbv zeta.
  pose (entry := fun h : option string =>
                   match h with
                   | Some h => nth_error (Js.split "," h) 0
                   | None => None
                   end).
  assert (Hdef : forall h, ConvertRoute.getClientIp h
                           = orDefault (option_map Js.trim (entry h))
                                       "unknown")
    by reflexivity.
  rewrite !Hdef.
  assert (Hentry : forall h x, entry h = Some x ->
                               ~ In ","%char (list_ascii_of_string x)).
  { intros [h |] x; [| discriminate]. cbn [entry].
    destruct (split_first "," h) as (first & rest & -> & Hn).
    now intros [= <-]. }
  split; [| split; [| split; [| split; [| split]]]].
  - destruct (orDefault_cases (option_map Js.trim (entry forwardedFor))
                              "unknown")
      as [(s & _ & Hs & ->) | [_ ->]]; [exact Hs | discriminate].
  - destruct (orDefault_cases (option_map Js.trim (entry forwardedFor))
                              "unknown")
      as [(s & Ea & _ & ->) | [_ ->]]; [| reflexivity].
    destruct (entry forwardedFor) as [x |]; [| discriminate].
    injection Ea as <-. apply trim_idem.
  - destruct (orDefault_cases (option_map Js.trim (entry forwardedFor))
                              "unknown")
      as [(s & Ea & _ & ->) | [_ ->]].
    + destruct (entry forwardedFor) as [x |] eqn:Ex; [| discriminate].
      injection Ea as <-. intros H. apply chars_trim in H.
      now apply (Hentry _ _ Ex).
    + cbn. intuition discriminate.
  - intros ->. reflexivity.
  - intros first -> Hblank. cbn [entry].
    destruct (split_first "," first) as (x & rest & E & Hn).
    rewrite E. cbn [nth_error option_map].
    assert (Hx : Js.trim x = EmptyString).
    { apply trim_empty_iff. apply trim_empty_iff in Hblank.
      clear Hn. revert x rest E Hblank.
      induction first as [| c r IH]; intros x rest E Hb.
      - injection E as <- _. reflexivity.
      - cbn [Js.split] in E. simpl in Hb. apply andb_prop in Hb as [Hc Hr].
        destruct (c =? ",")%char; [injection E as <- _; reflexivity |].
        destruct (Js.split "," r) as [| y l] eqn:Er.
        + injection E as <- _. simpl. now rewrite Hc.
        + injection E as <- _. simpl. rewrite Hc.
          now apply (IH y l eq_refl). }
    now rewrite Hx.
  - intros first others -> Hn. rewrite Hdef. cbn [entry].
    rewrite (@split_head_app "," first others Hn).
    destruct (split_first "," first) as (x & rest & E & _).
    assert (Hx : nth_error (Js.split "," first) 0 = Some first).
    { clear E. induction first as [| c r IH]; [reflexivity |].
      cbn [Js.split]. cbn [list_ascii_of_string In] in Hn.
      destruct (Ascii.eqb_spec c ",") as [-> | Hc]; [tauto |].
      assert (Hr : ~ In ","%char (list_ascii_of_string r)) by tauto.
      specialize (IH Hr).
      destruct (Js.split "," r) as [| y l]; [discriminate |].
      now injection IH as ->. }
    now rewrite Hx.
Qed.

Lemma allChars_keepChars (p : ascii -> bool) (s : string) :
  Js.allChars p (ConvertRoute.keepChars p s) = true.
Proof.
  induction s as [| c r IH]; [reflexivity |].
  cbn [ConvertRoute.keepChars]. destruct (p c) eqn:E; [| exact IH].
  simpl. now rewrite E.
Qed.

Lemma allChars_In (p : ascii -> bool) (s : string) :
  Js.allChars p s = true <->
  forall c, In c (list_ascii_of_string s) -> p c = true.
Proof.
  induction s as [| d s IH]; simpl.
  - split; [intros _ c [] | reflexivity].
  - rewrite andb_true_iff, IH. split.
    + intros [Hd Hs] c [<- | Hc]; auto.
    + intros H. split; [apply H; now left |]. intros c Hc. apply H. now right.
Qed.

Lemma substring_prefix (m : nat) (s : string) :
  exists rest, s = (String.substring 0 m s ++ rest)%string
               /\ String.length (String.substring 0 m s) <= m.
Proof.
  revert s. induction m as [| m IH]; intros s.
  - exists s. destruct s; split; simpl; auto.
  - destruct s as [| c s].
    + exists EmptyString. simpl. split; [reflexivity | lia].
    + destruct (IH s) as (rest & E & Hl). exists rest. simpl.
      split; [now rewrite <- E | lia].
Qed.

Lemma keepChars_id (p : ascii -> bool) (s : string) :
  Js.allChars p s = true -> ConvertRoute.keepChars p s = s.
Proof.
  induction s as [| c r IH]; [reflexivity |].
  simpl. intros H. apply andb_prop in H as [Hc Hr].
  now rewrite Hc, IH.
Qed.

Lemma substring_all (m : nat) (s : string) :
  String.length s <= m -> String.substring 0 m s = s.
Proof.
  revert s. induction m as [| m IH]; intros [| c s]; simpl; intros H;
    try reflexivity; try lia.
  rewrite IH; [reflexivity | lia].
Qed.

Lemma sanitizeFilename_chars (name : string) :
  Js.allChars ConvertRoute.isFilenameChar (ConvertRoute.sanitizeFilename name)
  = true.
Proof.
  unfold ConvertRoute.sanitizeFilename.
  set (kept := Js.trim (ConvertRoute.keepChars ConvertRoute.isFilenameChar
                                               name)).
  destruct (substring_prefix 100 kept) as (rest & E & Hl).
  assert (Hkept : Js.allChars ConvertRoute.isFilenameChar kept = true).
  { apply allChars_In. intros c Hc. unfold kept in Hc.
    apply chars_trim in Hc.
    revert c Hc. apply allChars_In, allChars_keepChars. }
  rewrite E, allChars_app in Hkept. apply andb_prop in Hkept as [Hcut _].
  destruct (orDefault_cases (Some (String.substring 0 100 kept)) "ebook")
    as [(s & [= <-] & _ & ->) | [_ ->]]; [exact Hcut | reflexivity].
Qed.

(** X14.  The file name of the download is never empty, has at most 100
    characters, and is made of letters, digits, [-], [_] and spaces only:
    no quote, slash, dot or control character reaches the
    [Content-Disposition] header.  A title that is already such a name,
    without spaces around it, is used as it is. *)
Theorem sanitizeFilename_safe (name : string) :
  let filename := ConvertRoute.sanitizeFilename name in
  filename <> EmptyString
  /\ String.length filename <= 100
  /\ Js.allChars ConvertRoute.isFilenameChar filename = true
  /\ (Js.allChars ConvertRoute.isFilenameChar name = true ->
      Js.trim name = name -> name <> EmptyString ->
      String.length name <= 100 -> filename = name).
Proof.
  cbv zeta. unfold ConvertRoute.sanitizeFilename.
  set (kept := Js.trim (ConvertRoute.keepChars ConvertRoute.isFilenameChar
                                               name)).
  destruct (substring_prefix 100 kept) as (rest & E & Hl).
  assert (Hkept : Js.allChars ConvertRoute.isFilenameChar kept = true).
  { apply allChars_In. intros c Hc. unfold kept in Hc.
    apply chars_trim in Hc.
    revert c Hc. apply allChars_In, allChars_keepChars. }
  assert (Hcut : Js.allChars ConvertRoute.isFilenameChar
                             (String.substring 0 100 kept) = true).
  { rewrite E, allChars_app in Hkept. now apply andb_prop in Hkept as [H _]. }
  split; [| split; [| split]].
  - destruct (orDefault_cases (Some (String.substring 0 100 kept)) "ebook")
      as [(s & _ & Hs & ->) | [_ ->]]; [exact Hs | discriminate].
  - destruct (orDefault_cases (Some (String.substring 0 100 kept)) "ebook")
      as [(s & [= <-] & _ & ->) | [_ ->]]; [exact Hl | simpl; lia].
  - destruct (orDefault_cases (Some (String.substring 0 100 kept)) "ebook")
      as [(s & [= <-] & _ & ->) | [_ ->]]; [exact Hcut | reflexivity].
  - intros Hall Htrim Hne Hlen.
    assert (Hk : kept = name).
    { unfold kept. now rewrite keepChars_id. }
    rewrite Hk, substring_all by exact Hlen.
    destruct (orDefault_cases (Some name) "ebook")
      as [(s & [= <-] & _ & ->) | [[[=] | [= ->]] _]];
      [reflexivity | contradiction].
Qed.

Lemma sanitizeFilename_safe_witness :
  ConvertRoute.sanitizeFilename "My Book" = "My Book".
Proof.
  apply (proj2 (proj2 (proj2 (sanitizeFilename_safe "My Book")))).
  - reflexivity.
  - reflexivity.
  - discriminate.
  - simpl. lia.
Defined.

Lemma replaceChar_app (c : ascii) (by_ a b : string) :
  HtmlTemplate.replaceChar c by_ (a ++ b)
  = (HtmlTemplate.replaceChar c by_ a
     ++ HtmlTemplate.replaceChar c by_ b)%string.
Proof.
  induction a as [| d a IH]; [reflexivity |].
  cbn [String.append HtmlTemplate.replaceChar].
  destruct (d =? c)%char; rewrite IH; [| reflexivity].
  now rewrite append_assoc.
Qed.

Lemma escapeHtml_app (a b : string) :
  HtmlTemplate.escapeHtml (a ++ b)
  = (HtmlTemplate.escapeHtml a ++ HtmlTemplate.escapeHtml b)%string.
Proof. unfold HtmlTemplate.escapeHtml. now rewrite !replaceChar_app. Qed.

Lemma escapeHtml_char (c : ascii) :
  HtmlTemplate.escapeHtml (String c EmptyString) = escapeChar c.
Proof.
  destruct c as [[] [] [] [] [] [] [] []]; reflexivity.
Qed.

Lemma escapeChar_plain (c : ascii) :
  Forall (fun x => x <> "<" /\ x <> ">" /\ x <> "034" /\ x <> "'")%char
         (list_ascii_of_string (escapeChar c)).
Proof.
  destruct c as [[] [] [] [] [] [] [] []];
    repeat constructor; discriminate.
Qed.

(** X15.  The five replacements of [escapeHtml], made one after the other, come
    to escaping every character once: an ampersand that an earlier
    replacement wrote is never escaped again.  The result has no [<],
    [>], double or single quote, and escaping commutes with
    concatenation. *)
Theorem escapeHtml_each (text : string) :
  HtmlTemplate.escapeHtml text = escapeEach text
  /\ Forall (fun c => c <> "<" /\ c <> ">" /\ c <> "034" /\ c <> "'")%char
            (list_ascii_of_string (HtmlTemplate.escapeHtml text))
  /\ forall more,
       HtmlTemplate.escapeHtml (text ++ more)
       = (HtmlTemplate.escapeHtml text
          ++ HtmlTemplate.escapeHtml more)%string.
Proof.
  assert (Heach : forall s, HtmlTemplate.escapeHtml s = escapeEach s).
  { induction s as [| c r IH]; [reflexivity |].
    change (String c r) with (String c EmptyString ++ r)%string.
    rewrite escapeHtml_app, escapeHtml_char, IH. reflexivity. }
  split; [apply Heach |]. split; [| intros more; apply escapeHtml_app].
  rewrite Heach. induction text as [| c r IH]; [constructor |].
  cbn [escapeEach].
  assert (Happ : forall a b,
             list_ascii_of_string (a ++ b)
             = list_ascii_of_string a ++ list_ascii_of_string b).
  { induction a as [| x a IHa]; intros b; [reflexivity |].
    cbn [String.append list_ascii_of_string app]. now rewrite IHa. }
  rewrite Happ. apply Forall_app. split; [apply escapeChar_plain | exact IH].
Qed.


(** ** The handlers *)

Section RouteFacts.

Variable parseURL : string -> option URL.
Variable net : nat -> string -> FetchOutcome.
Variable load : string -> document.
Variable render : list node -> string.
Variable now : string.

(** The requests of one scrape: none, or the validated page first. *)
Lemma scrapeArticle_log_cases (pageUrl : string) (log : list string) :
  let run := scrapeArticle parseURL net load render now pageUrl log in
  (snd run = log /\ exists e, fst run = inl e)
  \/ (validateMediumUrl parseURL pageUrl = inr tt
      /\ exists later,
           snd run = log ++ pageUrl :: later
           /\ List.length later <= 50
           /\ Forall (fun u => Js.startsWith u "http" = true) later).
Proof.
  cbv zeta. rewrite scrapeArticle_unfold.
  destruct (validateMediumUrl parseURL pageUrl) as [e | []].
  { left. cbn [fst snd]. eauto. }
  right. split; [reflexivity |].
  assert (Hnone : exists later,
             log ++ [pageUrl] = log ++ pageUrl :: later
             /\ List.length later <= 50
             /\ Forall (fun u => Js.startsWith u "http" = true) later).
  { exists []. repeat split; [simpl; lia | constructor]. }
  destruct (fst (fetchHtml net pageUrl log)) as [e | html]; [exact Hnone |].
  cbv zeta.
  destruct (checkPaywall (load html)) as [e | u']; [exact Hnone |].
  destruct (extractMetadata now (load html) pageUrl) as [e | metadata];
    [exact Hnone |].
  cbn [snd].
  exists (map ImageData.url
              (firstn MAX_IMAGES_PER_ARTICLE
                      (extractImages (load html)
                                     (contentSelectorOf (load html))))).
  split; [reflexivity |]. split.
  { rewrite length_map, length_firstn. unfold MAX_IMAGES_PER_ARTICLE. lia. }
  apply Forall_map.
  pose proof (extractImages_http (load html)
                (contentSelectorOf (load html))) as H.
  revert H. generalize (extractImages (load html)
                          (contentSelectorOf (load html))).
  generalize MAX_IMAGES_PER_ARTICLE.
  induction n as [| n IH]; intros l H; [constructor |].
  destruct H as [| d l Hd H]; [constructor |].
  cbn [firstn]. constructor; [exact Hd | now apply IH].
Qed.

Lemma scrapeArticle_url (pageUrl : string) (log log' : list string)
                        (a : Article) :
  scrapeArticle parseURL net load render now pageUrl log = (inr a, log') ->
  url a = pageUrl /\ title a <> EmptyString /\ author a <> EmptyString.
Proof.
  intros H.
  apply scrapeArticle_fields in H
    as (html & md & _ & Hm & -> & -> & _ & -> & _).
  apply extractMetadata_inv in Hm
    as (t & Ht & Htr & -> & -> & _ & -> & _).
  split; [reflexivity |]. split; [now apply truthy_iff |].
  unfold Js.orElse.
  destruct (extractWithSelectors (load html) CSS_SELECTORS.author) as [x |];
    cbn [Js.truthyOpt]; [| discriminate].
  destruct (Js.truthy x) eqn:Ex; [now apply truthy_iff | discriminate].
Qed.

Lemma statusOf_codeName (c : ErrorCode) :
  ConvertRoute.getHttpStatusForError (codeName c) = ScraperRoute.statusOf c.
Proof. destruct c; reflexivity. Qed.

(** X17.  The reply of [POST /scrape].  Its status is 200 exactly when it is a
    success, and then the article is that of the [url] of the body; a
    refused call is answered 429 with the code [NETWORK_ERROR]; every
    other failure carries one of the six scraper codes and its status is
    that of the code: 400 for [INVALID_URL], 404 for [NOT_FOUND], 403
    for [PAYWALL], 504 for [TIMEOUT], 500 otherwise. *)
Theorem postScrape_reply (nowMs : Z) (forwardedFor : option string)
                         (body : option Json.value)
                         (requestCounts : RateMap.t) (log : list string) :
  let run := ScraperRoute.postScrape parseURL net load render now nowMs
               forwardedFor body requestCounts log in
  let reply := fst (fst run) in
  let allowed :=
    fst (ScraperRoute.checkRateLimit nowMs
           (ConvertRoute.getClientIp forwardedFor) requestCounts) in
  snd (fst run)
  = snd (ScraperRoute.checkRateLimit nowMs
           (ConvertRoute.getClientIp forwardedFor) requestCounts)
  /\ match response reply with
     | ApiSuccess article =>
         httpStatus reply = 200%Z
         /\ allowed = true
         /\ exists b u,
              body = Some b
              /\ Json.prop "url" b = Some (Json.JString u)
              /\ url article = u
              /\ fst (scrapeArticle parseURL net load render now u log)
                 = inr article
     | ApiFailure c msg =>
         (allowed = false /\ httpStatus reply = 429%Z
          /\ c = "NETWORK_ERROR" /\ snd run = log)
         \/ (allowed = true
             /\ exists ec,
                  c = codeName ec
                  /\ httpStatus reply = ScraperRoute.statusOf ec
                  /\ httpStatus reply
                     = ConvertRoute.getHttpStatusForError c)
     end.
Proof.
  cbv zeta. unfold ScraperRoute.postScrape.
  change (orDefault _ "unknown")
    with (ConvertRoute.getClientIp forwardedFor).
  destruct (ScraperRoute.checkRateLimit nowMs
              (ConvertRoute.getClientIp forwardedFor) requestCounts)
    as [allowed counts'].
  destruct allowed; cbn [negb fst snd].
  2:{ split; [reflexivity |]. left. auto. }
  assert (Hinvalid : forall msg : string,
             (true = false /\ 400%Z = 429%Z /\ "INVALID_URL" = "NETWORK_ERROR"
              /\ log = log)
             \/ (true = true
                 /\ exists ec,
                      "INVALID_URL" = codeName ec
                      /\ 400%Z = ScraperRoute.statusOf ec
                      /\ 400%Z = ConvertRoute.getHttpStatusForError
                                   "INVALID_URL")).
  { intros _. right. split; [reflexivity |]. exists INVALID_URL. auto. }
  destruct body as [b |];
    [| split; [reflexivity | now apply Hinvalid]].
  destruct (Json.truthy (Some b)) eqn:Eb;
    [| split; [reflexivity | now apply Hinvalid]].
  destruct (Json.prop "url" b) as [[| x | x y | u | x | x] |] eqn:Eu;
    try (split; [reflexivity | now apply Hinvalid]).
  destruct (Js.truthy (Js.trim u)); cbn [negb];
    [| split; [reflexivity | now apply Hinvalid]].
  unfold bind, ret.
  destruct (scrapeArticle parseURL net load render now u log)
    as [[e | article] log'] eqn:Es; cbn [fst snd response httpStatus].
  - split; [reflexivity |]. right. split; [reflexivity |].
    exists (code e). split; [reflexivity |]. split; [reflexivity |].
    symmetry. apply statusOf_codeName.
  - split; [reflexivity |]. split; [reflexivity |]. split; [reflexivity |].
    exists b, u. split; [reflexivity |]. split; [exact Eu |].
    split; [| now rewrite Es].
    now apply scrapeArticle_url in Es as [Hu _].
Qed.

(** X18.  [POST /scrape] makes no request for a call that is refused or whose
    body has no usable [url]; when it makes one, the call was allowed,
    the first request is for the [url] of the body, which passed
    [validateMediumUrl], and at most 50 requests follow, each for a URL
    that starts with [http]. *)
Theorem postScrape_requests (nowMs : Z) (forwardedFor : option string)
                            (body : option Json.value)
                            (requestCounts : RateMap.t)
                            (log : list string) :
  let run := ScraperRoute.postScrape parseURL net load render now nowMs
               forwardedFor body requestCounts log in
  snd run = log
  \/ (fst (ScraperRoute.checkRateLimit nowMs
             (ConvertRoute.getClientIp forwardedFor) requestCounts) = true
      /\ exists b u later,
           body = Some b
           /\ Json.prop "url" b = Some (Json.JString u)
           /\ Js.trim u <> EmptyString
           /\ validateMediumUrl parseURL u = inr tt
           /\ snd run = log ++ u :: later
           /\ List.length later <= 50
           /\ Forall (fun x => Js.startsWith x "http" = true) later).
Proof.
  cbv zeta. unfold ScraperRoute.postScrape.
  change (orDefault _ "unknown")
    with (ConvertRoute.getClientIp forwardedFor).
  destruct (ScraperRoute.checkRateLimit nowMs
              (ConvertRoute.getClientIp forwardedFor) requestCounts)
    as [allowed counts'].
  destruct allowed; cbn [negb fst snd]; [| now left].
  destruct body as [b |]; [| now left].
  destruct (Json.truthy (Some b)); [| now left].
  destruct (Json.prop "url" b) as [[| x | x y | u | x | x] |] eqn:Eu;
    try (now left).
  destruct (Js.truthy (Js.trim u)) eqn:Et; cbn [negb]; [| now left].
  unfold bind, ret.
  destruct (scrapeArticle_log_cases u log) as [[Hl _] | (Hv & later & H)].
  - left.
    destruct (scrapeArticle parseURL net load render now u log)
      as [r log']. exact Hl.
  - right. split; [reflexivity |]. exists b, u, later.
    split; [reflexivity |]. split; [exact Eu |].
    split; [now apply truthy_iff |]. split; [exact Hv |].
    destruct (scrapeArticle parseURL net load render now u log)
      as [r log']. exact H.
Qed.

End RouteFacts.

Lemma validateEach_strings (items : list Json.value) :
  ConvertRoute.validateEach items = None ->
  Forall (fun v => exists s, v = Json.JString s /\ Js.trim s <> EmptyString)
         items.
Proof.
  induction items as [| v items IH]; [constructor |].
  cbn [ConvertRoute.validateEach].
  destruct v as [| x | x y | s | x | x]; try discriminate.
  destruct (Js.truthy (Js.trim s)) eqn:E; cbn [negb]; [| discriminate].
  intros H. constructor; [| now apply IH].
  exists s. split; [reflexivity | now apply truthy_iff].
Qed.

Lemma validateUrls_valid (urls : option Json.value) :
  ConvertRoute.validateUrls urls = None ->
  exists items,
    urls = Some (Json.JArray items)
    /\ 1 <= List.length items <= 10
    /\ Forall (fun v => exists s, v = Json.JString s
                                  /\ Js.trim s <> EmptyString)
              items.
Proof.
  unfold ConvertRoute.validateUrls.
  destruct urls as [[| x | x y | s | items | x] |]; try discriminate.
  destruct (Nat.eqb_spec (List.length items) 0) as [H0 | H0];
    [discriminate |].
  destruct (Nat.ltb_spec 10 (List.length items)) as [H10 | H10];
    [discriminate |].
  intros Hv. exists items. split; [reflexivity |].
  split; [lia | now apply validateEach_strings].
Qed.

Section PreviewFacts.

Variable parseURL : string -> option URL.
Variable net : nat -> string -> FetchOutcome.
Variable load : string -> document.
Variable render : list node -> string.
Variable now : string.

Lemma scrapeEach_inr {A : Type} (f : Article -> A) (urls : list string) :
  forall (acc : list A) (log : list string) (out : list A)
         (log' : list string),
    ConvertRoute.scrapeEach parseURL net load render now f urls acc log
    = (inr out, log') ->
    exists articles,
      out = acc ++ map f articles
      /\ map url articles = urls
      /\ Forall (fun a => title a <> EmptyString /\ author a <> EmptyString)
                articles.
Proof.
  induction urls as [| u urls IH]; intros acc log out log'.
  - cbn [ConvertRoute.scrapeEach]. unfold ret. intros [= <- <-].
    exists []. rewrite app_nil_r. repeat split. constructor.
  - cbn [ConvertRoute.scrapeEach]. unfold bindE, bind, ret.
    destruct (scrapeArticle parseURL net load render now u log)
      as [[e | a] l1] eqn:Es; [discriminate |].
    intros H. apply IH in H as (articles & -> & Hu & Hall).
    apply scrapeArticle_url in Es as (Ha & Ht & Hau).
    exists (a :: articles). cbn [map].
    split; [now rewrite <- app_assoc |].
    split; [now rewrite Ha, Hu |].
    constructor; auto.
Qed.

Lemma scrapeEach_app {A : Type} (f : Article -> A)
                     (done rest : list string) :
  forall (acc : list A) (log : list string),
    ConvertRoute.scrapeEach parseURL net load render now f (done ++ rest)
                            acc log
    = match ConvertRoute.scrapeEach parseURL net load render now f done
                                    acc log with
      | (inr out, log1) =>
          ConvertRoute.scrapeEach parseURL net load render now f rest out
                                  log1
      | (inl e, log1) => (inl e, log1)
      end.
Proof.
  induction done as [| u done IH]; intros acc log; [reflexivity |].
  cbn [app ConvertRoute.scrapeEach]. unfold bindE, bind, ret.
  destruct (scrapeArticle parseURL net load render now u log)
    as [[e | a] l1]; [reflexivity |].
  apply IH.
Qed.

(** X19.  The reply of [POST /preview].  A success has status 200 and one
    preview for each of the 1 to 10 URLs of the body, in their order,
    each with the URL it was asked for and a title and an author that are
    not empty.  A failure is a refused call (429, [RATE_LIMIT]), a body
    that is not JSON or whose [urls] are not valid (400,
    [INVALID_INPUT]), the body [null] (500, [NETWORK_ERROR]), or the
    error of the scrape that failed, with the status that [POST /scrape]
    gives to its code; in the first three cases nothing was requested. *)
Theorem postPreview_reply (nowMs : Z) (forwardedFor : option string)
                          (body : option Json.value)
                          (st : ConvertRoute.limiters) (log : list string) :
  let run := ConvertRoute.postPreview parseURL net load render now nowMs
               forwardedFor body st log in
  let reply := fst (fst run) in
  match response reply with
  | ApiSuccess previews =>
      httpStatus reply = 200%Z
      /\ exists b items,
           body = Some b
           /\ Json.prop "urls" b = Some (Json.JArray items)
           /\ 1 <= List.length items <= 10
           /\ map Preview.url previews = map ConvertRoute.asString items
           /\ Forall (fun p => Preview.title p <> EmptyString
                               /\ Preview.author p <> EmptyString)
                     previews
  | ApiFailure c msg =>
      (httpStatus reply = 429%Z /\ c = "RATE_LIMIT" /\ snd run = log)
      \/ (httpStatus reply = 400%Z /\ c = "INVALID_INPUT" /\ snd run = log)
      \/ (httpStatus reply = 500%Z /\ c = "NETWORK_ERROR"
          /\ body = Some Json.JNull /\ snd run = log)
      \/ (exists ec, c = codeName ec
                     /\ httpStatus reply = ScraperRoute.statusOf ec)
  end.
Proof.
  cbv zeta. unfold ConvertRoute.postPreview.
  destruct (ConvertRoute.checkRateLimit nowMs
              (ConvertRoute.getClientIp forwardedFor)
              (ConvertRoute.previewRateLimiter st)) as [allowed l'].
  destruct allowed; cbn [negb]; [| left; auto].
  destruct body as [b |]; [| right; left; auto].
  destruct b as [| x | x y | s | items | fields];
    try (right; left; cbn; auto; fail).
  - right. right. left. auto.
  - (* an object *)
    destruct (ConvertRoute.validateUrls
                (Json.prop "urls" (Json.JObject fields))) as [err |] eqn:Ev;
      [right; left; auto |].
    apply validateUrls_valid in Ev as (items & Ep & Hlen & Hitems).
    rewrite Ep. unfold bind, ret.
    destruct (ConvertRoute.scrapeEach parseURL net load render now
                ConvertRoute.previewOf (map ConvertRoute.asString items) []
                log) as [[e | out] log'] eqn:Es;
      cbn [fst snd response httpStatus].
    + right. right. right. exists (code e).
      split; [reflexivity | apply statusOf_codeName].
    + split; [reflexivity |].
      apply scrapeEach_inr in Es as (articles & -> & Hu & Hall).
      exists (Json.JObject fields), items.
      split; [reflexivity |]. split; [exact Ep |]. split; [exact Hlen |].
      cbn [app]. split.
      * rewrite map_map. cbn [ConvertRoute.previewOf Preview.url].
        exact Hu.
      * apply Forall_map. cbn [ConvertRoute.previewOf Preview.title
                                 Preview.author]. exact Hall.
Qed.

(** X20.  [POST /preview] stops at the first URL that cannot be scraped: the
    reply carries the error of that scrape, and the requests made are
    those of the scrapes before it and of that one; nothing is requested
    for the URLs after it. *)
Theorem postPreview_fail_fast (nowMs : Z) (forwardedFor : option string)
                              (fields : list (string * Json.value))
                              (items : list Json.value)
                              (st : ConvertRoute.limiters)
                              (log logk log' : list string)
                              (done rest : list string) (u : string)
                              (out : list Preview.t) (e : ScraperError) :
  fst (ConvertRoute.checkRateLimit nowMs
         (ConvertRoute.getClientIp forwardedFor)
         (ConvertRoute.previewRateLimiter st)) = true ->
  Json.lookup "urls" fields = Some (Json.JArray items) ->
  ConvertRoute.validateUrls (Some (Json.JArray items)) = None ->
  map ConvertRoute.asString items = done ++ u :: rest ->
  ConvertRoute.scrapeEach parseURL net load render now
    ConvertRoute.previewOf done [] log = (inr out, logk) ->
  scrapeArticle parseURL net load render now u logk = (inl e, log') ->
  let run := ConvertRoute.postPreview parseURL net load render now nowMs
               forwardedFor (Some (Json.JObject fields)) st log in
  fst (fst run)
  = {| httpStatus := ScraperRoute.statusOf (code e);
       response := ApiFailure (codeName (code e)) (message e) |}
  /\ snd run = log'.
Proof.
  intros Hallowed Hfields Hvalid Hsplit Hdone Hfail. cbv zeta.
  unfold ConvertRoute.postPreview.
  destruct (ConvertRoute.checkRateLimit nowMs
              (ConvertRoute.getClientIp forwardedFor)
              (ConvertRoute.previewRateLimiter st)) as [allowed l'].
  cbn [fst] in Hallowed. subst allowed. cbn [negb Json.prop].
  rewrite Hfields, Hvalid, Hsplit. unfold bind, ret.
  rewrite scrapeEach_app, Hdone.
  cbn [ConvertRoute.scrapeEach]. unfold bindE, bind, ret.
  rewrite Hfail. cbn [fst snd].
  split; [| reflexivity]. now rewrite statusOf_codeName.
Qed.

End PreviewFacts.

(** Two URLs, the second of which is rejected: the first is scraped, the
    second costs no request, and the reply is the 400 of the second. *)
Lemma postPreview_fail_fast_witness :
  snd (ConvertRoute.postPreview Example.parseURL
         (Example.serve "https://medium.com/@user/story" "<html>"
                        Example.pngResponse)
         (fun _ => onePicturePage) Example.render
         "2026-02-07T12:00:00.000Z" 0%Z None (Some twoUrlBody)
         ConvertRoute.initialLimiters [])
  = onePictureLog
  /\ fst (fst (ConvertRoute.postPreview Example.parseURL
                 (Example.serve "https://medium.com/@user/story" "<html>"
                                Example.pngResponse)
                 (fun _ => onePicturePage) Example.render
                 "2026-02-07T12:00:00.000Z" 0%Z None (Some twoUrlBody)
                 ConvertRoute.initialLimiters []))
     = {| httpStatus := 400;
          response := ApiFailure "INVALID_URL"
                                 "Only HTTPS URLs are allowed" |}.
Proof.
  assert (Hdone : ConvertRoute.scrapeEach Example.parseURL
                    (Example.serve "https://medium.com/@user/story" "<html>"
                                   Example.pngResponse)
                    (fun _ => onePicturePage) Example.render
                    "2026-02-07T12:00:00.000Z" ConvertRoute.previewOf
                    ["https://medium.com/@user/story"] [] []
                  = (inr [ConvertRoute.previewOf onePictureArticle],
                     onePictureLog))
    by (vm_compute; reflexivity).
  assert (Hfail : scrapeArticle Example.parseURL
                    (Example.serve "https://medium.com/@user/story" "<html>"
                                   Example.pngResponse)
                    (fun _ => onePicturePage) Example.render
                    "2026-02-07T12:00:00.000Z"
                    "http://medium.com/@user/other" onePictureLog
                  = (inl (ScraperException INVALID_URL
                            "Only HTTPS URLs are allowed"),
                     onePictureLog))
    by (vm_compute; reflexivity).
  destruct (@postPreview_fail_fast Example.parseURL
              (Example.serve "https://medium.com/@user/story" "<html>"
                             Example.pngResponse)
              (fun _ => onePicturePage) Example.render
              "2026-02-07T12:00:00.000Z" 0%Z None
              [("urls", Json.JArray
                          [Json.JString "https://medium.com/@user/story";
                           Json.JString "http://medium.com/@user/other"])]
              [Json.JString "https://medium.com/@user/story";
               Json.JString "http://medium.com/@user/other"]
              ConvertRoute.initialLimiters [] onePictureLog onePictureLog
              ["https://medium.com/@user/story"] []
              "http://medium.com/@user/other"
              [ConvertRoute.previewOf onePictureArticle]
              (ScraperException INVALID_URL "Only HTTPS URLs are allowed")
              eq_refl eq_refl eq_refl eq_refl Hdone Hfail) as [H1 H2].
  split; [exact H2 | exact H1].
Defined.

(** ** [POST /convert] and the generators *)

Lemma validateInput_passes (format : Generator.Format)
                           (articles : list Article)
                           (options : Generator.Options) :
  1 <= List.length articles <= Generator.MAX_ARTICLES ->
  Generator.title options <> EmptyString ->
  Generator.validateInput format (Some articles) options = inr tt.
Proof.
  intros Hlen Ht. unfold Generator.validateInput.
  destruct (Nat.eqb_spec (List.length articles) 0) as [H0 | H0]; [lia |].
  destruct (Nat.ltb_spec Generator.MAX_ARTICLES (List.length articles))
    as [Hm | Hm]; [lia |].
  apply truthy_iff in Ht. now rewrite Ht.
Qed.

Section ConvertFacts.

Variable parseURL : string -> option URL.
Variable net : nat -> string -> FetchOutcome.
Variable load : string -> document.
Variable render : list node -> string.
Variable now : string.
Variable renderDocument :
  Generator.Format -> list Article -> Generator.Options
  -> Generator.RenderFailure + string.

(** X21.  The reply of [POST /convert].  A success has status 200; it was made
    from a body with 1 to 10 URLs, a format and a title that is not
    blank; its content type is that of the format, its length header is
    the length of the document, and its file name is the sanitized title
    with the extension of the format, between the only two quotes of the
    header.  A failure is a refused call (429), an invalid body (400,
    [INVALID_INPUT]) or the body [null] (500), all three before any
    request; or the error of the scrape that failed; or a failure of the
    size check, the timer or the renderer.  The input validation of the
    generators never fails: [EMPTY_ARTICLES] and [TOO_MANY_ARTICLES] are
    never sent. *)
Theorem postConvert_reply (nowMs : Z) (forwardedFor : option string)
                          (body : option Json.value)
                          (st : ConvertRoute.limiters) (log : list string) :
  let run := ConvertHandler.postConvert parseURL net load render now
               renderDocument nowMs forwardedFor body st log in
  let reply := fst (fst run) in
  match response reply with
  | ApiSuccess download =>
      httpStatus reply = 200%Z
      /\ exists b items title format,
           body = Some b
           /\ Json.prop "urls" b = Some (Json.JArray items)
           /\ 1 <= List.length items <= 10
           /\ ConvertHandler.titleOf (Json.prop "options" b)
              = Some (Json.JString title)
           /\ Js.trim title <> EmptyString
           /\ Json.prop "format" b
              = Some (Json.JString match format with
                                   | Generator.Pdf => "pdf"
                                   | Generator.Epub => "epub"
                                   end)
           /\ contentType download
              = match format with
                | Generator.Pdf => "application/pdf"
                | Generator.Epub => "application/epub+zip"
                end
           /\ contentLength download = String.length (bytes download)
           /\ contentDisposition download
              = ("attachment; filename=" ++ quote
                 ++ ConvertRoute.sanitizeFilename title ++ "."
                 ++ match format with
                    | Generator.Pdf => "pdf"
                    | Generator.Epub => "epub"
                    end ++ quote)%string
           /\ Js.allChars ConvertRoute.isFilenameChar
                          (ConvertRoute.sanitizeFilename title) = true
  | ApiFailure c msg =>
      (httpStatus reply = 429%Z /\ c = "RATE_LIMIT" /\ snd run = log)
      \/ (httpStatus reply = 400%Z /\ c = "INVALID_INPUT" /\ snd run = log)
      \/ (httpStatus reply = 500%Z /\ c = "NETWORK_ERROR"
          /\ body = Some Json.JNull /\ snd run = log)
      \/ (exists ec, c = codeName ec
                     /\ httpStatus reply = ScraperRoute.statusOf ec)
      \/ (exists f,
            c = Generator.codeName (Generator.failureCode f)
            /\ httpStatus reply
               = match f with
                 | Generator.ContentTooLarge => 400%Z
                 | Generator.RenderTimeout => 504%Z
                 | Generator.RenderFailed => 500%Z
                 end)
  end.
Proof.
  cbv zeta. unfold ConvertHandler.postConvert, ConvertHandler.failure.
  destruct (ConvertRoute.checkRateLimit nowMs
              (ConvertRoute.getClientIp forwardedFor)
              (ConvertRoute.convertRateLimiter st)) as [allowed l'].
  destruct allowed; cbn [negb]; [| left; auto].
  destruct body as [b |]; [| right; left; auto].
  destruct b as [| x | x y | s | items0 | fields];
    try (right; left; cbn; auto; fail).
  { right. right. left. auto. }
  set (b := Json.JObject fields).
  destruct (ConvertRoute.validateUrls (Json.prop "urls" b)) as [err |] eqn:Ev;
    [right; left; auto |].
  apply validateUrls_valid in Ev as (items & Ep & Hlen & Hitems).
  assert (Hformat :
            forall fmt,
              match Json.prop "format" b with
              | Some (Json.JString f) =>
                  if f =? "pdf" then Some Generator.Pdf
                  else if f =? "epub" then Some Generator.Epub else None
              | _ => None
              end = Some fmt ->
              Json.prop "format" b
              = Some (Json.JString match fmt with
                                   | Generator.Pdf => "pdf"
                                   | Generator.Epub => "epub"
                                   end)).
  { intros fmt.
    destruct (Json.prop "format" b) as [[| x | x y | f | x | x] |];
      try discriminate.
    destruct (String.eqb_spec f "pdf") as [-> | _];
      [now intros [= <-] |].
    destruct (String.eqb_spec f "epub") as [-> | _];
      [now intros [= <-] | discriminate]. }
  destruct (match Json.prop "format" b with
            | Some (Json.JString f) =>
                if f =? "pdf" then Some Generator.Pdf
                else if f =? "epub" then Some Generator.Epub else None
            | _ => None
            end) as [fmt |]; [| right; left; auto].
  specialize (Hformat fmt eq_refl).
  destruct (ConvertHandler.titleOf (Json.prop "options" b))
    as [[| x | x y | title | x | x] |] eqn:Etitle;
    try (right; left; auto; fail).
  destruct (Js.truthy title) eqn:Et1; cbn [negb orb];
    [| right; left; auto].
  destruct (Js.truthy (Js.trim title)) eqn:Et2; cbn [negb];
    [| right; left; auto].
  rewrite Ep. unfold bind, ret.
  destruct (ConvertRoute.scrapeEach parseURL net load render now
              (fun article => article) (map ConvertRoute.asString items) []
              log) as [[e | articles] log'] eqn:Es;
    cbn [fst snd response httpStatus].
  { right. right. right. left. exists (code e).
    split; [reflexivity | apply statusOf_codeName]. }
  apply scrapeEach_inr in Es as (articles' & -> & Hu & _).
  cbn [app]. rewrite map_id.
  assert (Hcount : List.length articles' = List.length items).
  { rewrite <- (length_map url articles'), Hu. apply length_map. }
  unfold Generator.generate.
  rewrite validateInput_passes;
    [| unfold Generator.MAX_ARTICLES; lia
     | cbn [Generator.title]; now apply truthy_iff ].
  destruct (renderDocument fmt articles' _) as [f | buffer];
    cbn [fst snd response httpStatus Generator.code Generator.message].
  { right. right. right. right. exists f.
    split; [reflexivity | destruct f; reflexivity]. }
  split; [reflexivity |].
  exists b, items, title, fmt.
  split; [reflexivity |]. split; [exact Ep |]. split; [exact Hlen |].
  split; [exact Etitle |]. split; [now apply truthy_iff |].
  split; [exact Hformat |].
  cbn [contentType contentLength contentDisposition bytes].
  split; [destruct fmt; reflexivity |]. split; [reflexivity |].
  split; [reflexivity |].
  apply (sanitizeFilename_chars title).
Qed.

End ConvertFacts.

(** *** Any one minute *)

Lemma allowedIn_cons (ip ip' : string) (s t : Z)
                     (calls : list (Z * string)) (d : bool)
                     (ds : list bool) :
  allowedIn ip s ((t, ip') :: calls) (d :: ds)
  = (if (ip' =? ip)%string && d && (s <=? t)%Z
        && (t <? s + ConvertRoute.RATE_LIMIT_WINDOW_MS)%Z
     then 1 else 0)
    + allowedIn ip s calls ds.
Proof.
  unfold allowedIn. cbn [combine filter fst snd].
  destruct ((ip' =? ip)%string && d && (s <=? t)%Z
            && (t <? s + ConvertRoute.RATE_LIMIT_WINDOW_MS)%Z);
    reflexivity.
Qed.

Lemma allowedIn_late (ip : string) (s : Z) (calls : list (Z * string)) :
  forall ds,
    Forall (fun c => (s + ConvertRoute.RATE_LIMIT_WINDOW_MS <= fst c)%Z)
           calls ->
    allowedIn ip s calls ds = 0.
Proof.
  induction calls as [| [t ip'] calls IH]; intros ds H; [reflexivity |].
  destruct ds as [| d ds]; [reflexivity |].
  inversion H as [| x xs Hx Hxs]; subst. cbn [fst] in Hx.
  rewrite allowedIn_cons, IH by exact Hxs.
  destruct (Z.ltb_spec t (s + ConvertRoute.RATE_LIMIT_WINDOW_MS)); [lia |].
  now rewrite andb_false_r.
Qed.

Lemma runChecks_allowance (ip : string) (s : Z)
                          (calls : list (Z * string)) :
  forall l : ConvertRoute.limiter,
    (1 <= ConvertRoute.maxRequests l)%Z ->
    nondecreasing (map fst calls) ->
    allowedIn ip s calls (fst (runChecks l calls))
    <= allowance (ConvertRoute.maxRequests l) s
                 (RateMap.get ip (ConvertRoute.counts l)).
Proof.
  induction calls as [| [t ip'] calls IH]; intros l Hmax Hsorted.
  { cbn. lia. }
  cbn [map fst nondecreasing] in Hsorted.
  destruct Hsorted as [Hle Hrest].
  rewrite runChecks_cons. cbn [fst]. rewrite allowedIn_cons.
  specialize (IH (snd (ConvertRoute.checkRateLimit t ip' l))).
  rewrite checkRateLimit_max in IH. specialize (IH Hmax Hrest).
  destruct (String.eqb_spec ip' ip) as [-> | Hne].
  2:{ cbn [andb]. rewrite checkRateLimit_other in IH by congruence.
      exact IH. }
  cbn [andb].
  set (W := ConvertRoute.RATE_LIMIT_WINDOW_MS) in *.
  assert (HW : (0 < W)%Z) by (unfold W, ConvertRoute.RATE_LIMIT_WINDOW_MS; lia).
  set (M := ConvertRoute.maxRequests l) in *.
  (* once the minute is over nothing more is counted *)
  destruct (Z.ltb_spec t (s + W)) as [Hin | Hout].
  2:{ rewrite andb_false_r. cbn [Nat.add].
      rewrite allowedIn_late; [lia |].
      rewrite Forall_forall. intros [t' k] Hk. cbn [fst].
      rewrite Forall_forall in Hle.
      assert (t <= t')%Z; [| fold W; lia].
      apply Hle. apply in_map_iff. now exists (t', k). }
  rewrite andb_true_r.
  destruct (RateMap.get ip (ConvertRoute.counts l)) as [[c R] |] eqn:Eg.
  - destruct (Z.ltb_spec t R) as [Hlive | Hdead].
    + (* inside the window of the record *)
      destruct (@checkRateLimit_inside t ip l c R Eg Hlive) as [Hd Hg].
      fold M in Hd, Hg. rewrite Hd. rewrite Hg in IH.
      unfold allowance in *. cbn [RateMap.resetAt RateMap.count] in *.
      fold W in IH |- *.
      destruct (Z.ltb_spec c M) as [Hc | Hc];
        destruct (Z.leb_spec s t) as [Hs | Hs];
        destruct (Z.leb_spec R s) as [HRs | HRs];
        destruct (Z.ltb_spec R (s + W)) as [HRw | HRw];
        cbn [andb] in *; try lia.
    + (* the record has expired: a new window *)
      assert (Hfresh : liveAt t (RateMap.get ip (ConvertRoute.counts l))
                       = None).
      { rewrite Eg. cbn [liveAt RateMap.resetAt].
        destruct (Z.geb_spec t R); [reflexivity | lia]. }
      destruct (@checkRateLimit_fresh t ip l Hfresh) as [Hd Hg].
      rewrite Hd. rewrite Hg in IH.
      unfold allowance in *. cbn [RateMap.resetAt RateMap.count] in *.
      fold W in IH |- *.
      destruct (Z.leb_spec s t) as [Hs | Hs];
        destruct (Z.leb_spec R s) as [HRs | HRs];
        destruct (Z.ltb_spec R (s + W)) as [HRw | HRw];
        destruct (Z.leb_spec (t + W) s) as [Hts | Hts];
        destruct (Z.ltb_spec (t + W) (s + W)) as [Htw | Htw];
        cbn [andb] in *; try lia.
  - assert (Hfresh : liveAt t (RateMap.get ip (ConvertRoute.counts l))
                     = None) by now rewrite Eg.
    destruct (@checkRateLimit_fresh t ip l Hfresh) as [Hd Hg].
    rewrite Hd. rewrite Hg in IH.
    unfold allowance in *. cbn [RateMap.resetAt RateMap.count] in *.
    fold W in IH |- *.
    destruct (Z.leb_spec s t) as [Hs | Hs];
      destruct (Z.leb_spec (t + W) s) as [Hts | Hts];
      destruct (Z.ltb_spec (t + W) (s + W)) as [Htw | Htw];
      cbn [andb] in *; try lia.
Qed.

(** X22.  In any one minute, whenever it starts, at most twice [maxRequests]
    calls are allowed for one address, as long as the clock does not go
    back: the calls of the minute fall into at most two windows. *)
Theorem checkRateLimit_any_minute (l : ConvertRoute.limiter) (ip : string)
                                  (s : Z) (calls : list (Z * string)) :
  (1 <= ConvertRoute.maxRequests l)%Z ->
  (forall r, RateMap.get ip (ConvertRoute.counts l) = Some r ->
             (0 <= RateMap.count r)%Z) ->
  nondecreasing (map fst calls) ->
  allowedIn ip s calls (fst (runChecks l calls))
  <= 2 * Z.to_nat (ConvertRoute.maxRequests l).
Proof.
  intros Hmax Hcount Hsorted.
  pose proof (@runChecks_allowance ip s calls l Hmax Hsorted) as H.
  eapply Nat.le_trans; [exact H |].
  unfold allowance.
  destruct (RateMap.get ip (ConvertRoute.counts l)) as [r |]; [| lia].
  specialize (Hcount r eq_refl).
  destruct (RateMap.resetAt r <=? s)%Z; [lia |].
  destruct (RateMap.resetAt r
            <? s + ConvertRoute.RATE_LIMIT_WINDOW_MS)%Z; lia.
Qed.

(** Twelve calls around the end of a window of the convert limiter: the
    ten allowed ones, five on each side, fall into one minute. *)
Lemma checkRateLimit_any_minute_witness :
  allowedIn "1.2.3.4" 59000
    [(59000, "1.2.3.4"); (59001, "1.2.3.4"); (59002, "1.2.3.4");
     (59003, "1.2.3.4"); (59004, "1.2.3.4"); (59005, "1.2.3.4");
     (119000, "1.2.3.4"); (119001, "1.2.3.4"); (119002, "1.2.3.4");
     (119003, "1.2.3.4"); (119004, "1.2.3.4"); (119005, "1.2.3.4")]%Z
    (fst (runChecks
            (ConvertRoute.convertRateLimiter ConvertRoute.initialLimiters)
            [(59000, "1.2.3.4"); (59001, "1.2.3.4"); (59002, "1.2.3.4");
             (59003, "1.2.3.4"); (59004, "1.2.3.4"); (59005, "1.2.3.4");
             (119000, "1.2.3.4"); (119001, "1.2.3.4"); (119002, "1.2.3.4");
             (119003, "1.2.3.4"); (119004, "1.2.3.4");
             (119005, "1.2.3.4")]%Z))
  <= 2 * Z.to_nat 5.
Proof.
  apply (@checkRateLimit_any_minute
           (ConvertRoute.convertRateLimiter ConvertRoute.initialLimiters)
           "1.2.3.4" 59000%Z
           [(59000, "1.2.3.4"); (59001, "1.2.3.4"); (59002, "1.2.3.4");
            (59003, "1.2.3.4"); (59004, "1.2.3.4"); (59005, "1.2.3.4");
            (119000, "1.2.3.4"); (119001, "1.2.3.4"); (119002, "1.2.3.4");
            (119003, "1.2.3.4"); (119004, "1.2.3.4");
            (119005, "1.2.3.4")]%Z).
  - simpl. lia.
  - intros r H. discriminate H.
  - cbn [map fst nondecreasing].
    repeat (split; [repeat constructor; lia |]). exact I.
Defined.

(** ** Where the metadata comes from *)

Section MetadataSources.

Variable parseURL : string -> option URL.
Variable net : nat -> string -> FetchOutcome.
Variable load : string -> document.
Variable render : list node -> string.
Variable now : string.

(** X23.  The title of the article is the trimmed text of the first [h1] of the
    page when that text is not blank; its published date is the
    [datetime] attribute of the first [time] element that has one, as
    written, when it is not empty; its author is [Unknown Author] when
    no author selector gives a text. *)
Theorem scrapeArticle_metadata_sources (pageUrl html : string)
                                       (log log' : list string)
                                       (a : Article) :
  scrapeArticle parseURL net load render now pageUrl log = (inr a, log') ->
  fst (fetchHtml net pageUrl log) = inr html ->
  (forall e rest,
      select (load html) (tag "h1") = e :: rest ->
      Js.trim (text (elem e)) <> EmptyString ->
      title a = Js.trim (text (elem e)))
  /\ (forall e rest d,
        select (load html) (tagWith "time" [AttrExists "datetime"])
        = e :: rest ->
        attr (elem e) "datetime" = Some d -> d <> EmptyString ->
        publishedDate a = d)
  /\ (extractWithSelectors (load html) CSS_SELECTORS.author = None ->
      author a = "Unknown Author").
Proof.
  intros H Hf.
  apply scrapeArticle_fields in H
    as (html' & md & Hf' & Hm & _ & -> & _ & -> & -> & _).
  rewrite Hf in Hf'. injection Hf' as <-.
  apply extractMetadata_inv in Hm
    as (t & Ht & _ & _ & -> & _ & -> & -> & _).
  split; [| split].
  - intros e rest Hs Hne.
    unfold CSS_SELECTORS.title in Ht.
    rewrite (@extractWithSelectors_first_wins (load html) (tag "h1") _ e rest
               eq_refl Hs Hne) in Ht.
    now injection Ht as <-.
  - intros e rest d Hs Ha Hd.
    now apply (@extractPublishedDate_time now (load html) e rest d).
  - intros ->. reflexivity.
Qed.

End MetadataSources.

Lemma scrapeArticle_metadata_sources_witness :
  title datedArticle = "Title"
  /\ publishedDate datedArticle = "2026-01-15T10:00:00.000Z"
  /\ author datedArticle = "Unknown Author".
Proof.
  assert (H : scrapeArticle Example.parseURL
                (Example.serve "https://medium.com/@user/story" "<html>"
                               Example.pngResponse)
                (fun _ => datedPage) Example.render
                "2026-02-07T12:00:00.000Z"
                "https://medium.com/@user/story" []
              = (inr datedArticle,
                 ["https://medium.com/@user/story"]))
    by (vm_compute; reflexivity).
  destruct (@scrapeArticle_metadata_sources Example.parseURL
              (Example.serve "https://medium.com/@user/story" "<html>"
                             Example.pngResponse)
              (fun _ => datedPage) Example.render
              "2026-02-07T12:00:00.000Z"
              "https://medium.com/@user/story" "<html>" [] _ datedArticle
              H eq_refl) as (H1 & H2 & H3).
  split; [| split].
  - assert (E : exists e rest,
               select datedPage (tag "h1") = e :: rest
               /\ Js.trim (text (elem e)) = "Title")
      by (eexists _, _; split; vm_compute; reflexivity).
    destruct E as (e & rest & Es & Et). rewrite <- Et.
    apply (H1 e rest Es). rewrite Et. discriminate.
  - assert (E : exists e rest,
               select datedPage (tagWith "time" [AttrExists "datetime"])
               = e :: rest
               /\ attr (elem e) "datetime"
                  = Some "2026-01-15T10:00:00.000Z")
      by (eexists _, _; split; vm_compute; reflexivity).
    destruct E as (e & rest & Es & Ea).
    apply (H2 e rest _ Es Ea). discriminate.
  - apply H3. reflexivity.
Defined.

(** ** The content comes from the first match *)

(** X24.  [cleanHtml] reads the first element that the content selector
    matches and nothing else: two documents in which that element is the
    same give the same markup, whatever else they contain and whatever
    else the selector matches in them; and a selector that matches
    nothing gives the empty string. *)
Theorem cleanHtml_first_match_only (render : list node -> string)
                                   (doc doc' : document)
                                   (contentSelector : selector) :
  option_map elem (hd_error (select doc contentSelector))
  = option_map elem (hd_error (select doc' contentSelector)) ->
  cleanHtml render doc contentSelector
  = cleanHtml render doc' contentSelector
  /\ (select doc contentSelector = [] ->
      cleanHtml render doc contentSelector = EmptyString).
Proof.
  intros H. rewrite !cleanHtml_serializes. unfold cleanContainer.
  split.
  - destruct (select doc contentSelector) as [| e rest],
             (select doc' contentSelector) as [| e' rest'];
      cbn [hd_error option_map] in H; try discriminate; [reflexivity |].
    injection H as H. cbn [map]. now rewrite H.
  - intros ->. reflexivity.
Qed.

Lemma cleanHtml_first_match_only_witness :
  cleanHtml Example.render
    (Example.page []
       [ Element "section" [] [Example.p [Text "One"]];
         Element "section" [] [Example.p [Text "Two"]] ])
    (inside (tag "article") (tag "section"))
  = cleanHtml Example.render
      (Example.page []
         [ Element "section" [] [Example.p [Text "One"]];
           Element "section" [] [Example.p [Text "Other"]];
           Example.p [Text "More"] ])
      (inside (tag "article") (tag "section")).
Proof.
  apply (proj1 (@cleanHtml_first_match_only Example.render
                  (Example.page []
                     [ Element "section" [] [Example.p [Text "One"]];
                       Element "section" [] [Example.p [Text "Two"]] ])
                  (Example.page []
                     [ Element "section" [] [Example.p [Text "One"]];
                       Element "section" [] [Example.p [Text "Other"]];
                       Example.p [Text "More"] ])
                  (inside (tag "article") (tag "section")) eq_refl)).
Defined.

(** ** The budgets of the endpoints *)

Section BudgetFacts.

Variable parseURL : string -> option URL.
Variable net : nat -> string -> FetchOutcome.
Variable load : string -> document.
Variable render : list node -> string.
Variable now : string.
Variable renderDocument :
  Generator.Format -> list Article -> Generator.Options
  -> Generator.RenderFailure + string.

(** X25.  Every call of [POST /preview] and of [POST /convert], whatever its
    body and its outcome, is counted once against the budget of its own
    endpoint, and leaves the budget of the other endpoint as it was. *)
Theorem endpoints_have_separate_budgets
    (nowMs : Z) (forwardedFor : option string) (body : option Json.value)
    (st : ConvertRoute.limiters) (log : list string) :
  let ip := ConvertRoute.getClientIp forwardedFor in
  let afterPreview :=
    snd (fst (ConvertRoute.postPreview parseURL net load render now nowMs
                forwardedFor body st log)) in
  let afterConvert :=
    snd (fst (ConvertHandler.postConvert parseURL net load render now
                renderDocument nowMs forwardedFor body st log)) in
  afterPreview
  = {| ConvertRoute.convertRateLimiter := ConvertRoute.convertRateLimiter st;
       ConvertRoute.previewRateLimiter :=
         snd (ConvertRoute.checkRateLimit nowMs ip
                (ConvertRoute.previewRateLimiter st)) |}
  /\ afterConvert
     = {| ConvertRoute.convertRateLimiter :=
            snd (ConvertRoute.checkRateLimit nowMs ip
                   (ConvertRoute.convertRateLimiter st));
          ConvertRoute.previewRateLimiter :=
            ConvertRoute.previewRateLimiter st |}.
Proof.
  cbv zeta. split.
  - unfold ConvertRoute.postPreview.
    destruct (ConvertRoute.checkRateLimit nowMs
                (ConvertRoute.getClientIp forwardedFor)
                (ConvertRoute.previewRateLimiter st)) as [allowed l'].
    cbn [snd]. destruct allowed; cbn [negb]; [| reflexivity].
    destruct body as [b |]; [| reflexivity].
    destruct b as [| x | x y | s | items | fields]; try reflexivity;
      (destruct (ConvertRoute.validateUrls _); [reflexivity |]);
      unfold bind, ret;
      match goal with
      | |- context [ConvertRoute.scrapeEach ?a ?b ?c ?d ?e ?f ?g ?h ?i] =>
          destruct (ConvertRoute.scrapeEach a b c d e f g h i) as [r l1]
      end; reflexivity.
  - unfold ConvertHandler.postConvert.
    destruct (ConvertRoute.checkRateLimit nowMs
                (ConvertRoute.getClientIp forwardedFor)
                (ConvertRoute.convertRateLimiter st)) as [allowed l'].
    cbn [snd]. destruct allowed; cbn [negb]; [| reflexivity].
    destruct body as [b |]; [| reflexivity].
    destruct b as [| x | x y | s | items | fields]; try reflexivity;
      (destruct (ConvertRoute.validateUrls _); [reflexivity |]);
      match goal with
      | |- context [match ?f with Some _ => _ | None => _ end] =>
          destruct f as [fmt |]; [| reflexivity]
      end;
      (destruct (ConvertHandler.titleOf _)
         as [[| x1 | x1 y1 | title | x1 | x1] |]; try reflexivity);
      (destruct (negb (Js.truthy title) || negb (Js.truthy (Js.trim title)));
       [reflexivity |]);
      unfold bind, ret;
      match goal with
      | |- context [ConvertRoute.scrapeEach ?a ?b ?c ?d ?e ?f ?g ?h ?i] =>
          destruct (ConvertRoute.scrapeEach a b c d e f g h i) as [r l1]
      end; reflexivity.
Qed.

End BudgetFacts.
